(** * File-Encrypter: the cryptographic engine and the key manager

    A shallow embedding of [src/crypto/crypto_base.py], [aes.py],
    [chacha20.py], [rsa.py], [crypto_factory.py], [key_manager.py] and
    [hash.py], of [secure_delete] of [src/utils/file_utils.py] and of the
    command line of [src/cli/__init__.py].

    Python code that touches the file system or [os.urandom] is written in
    a state-and-exception monad over a [world]; the primitives of the
    [cryptography] package (the AES block function, RSA-OAEP, the
    ChaCha20-Poly1305 AEAD, Fernet, PBKDF2) and of [base64]/[json] are
    interfaces (type classes) whose contracts are separate [Prop] classes,
    so every theorem names the contracts it relies on. *)

From Stdlib Require Import ZArith NArith Lia Bool.
From Stdlib Require Import Strings.Byte Strings.Ascii.
From stdpp Require Import base option list strings gmap pretty.

Local Open Scope nat_scope.

(* ===================================================================== *)
(** ** Python outcomes: a value or a raised exception                    *)
(* ===================================================================== *)

Module Py.

(** The exception classes that occur in the modelled code. [OtherError]
    stands for any other subclass of [Exception] raised by a library. *)
Inductive exn : Type :=
  | ValueError
  | RuntimeError
  | InvalidTag
  | InvalidToken
  | OSError
  | OtherError.

Inductive outcome (A : Type) : Type :=
  | Ok (a : A)
  | Raise (e : exn).
Arguments Ok {A} a.
Arguments Raise {A} e.

Definition is_ok {A} (o : outcome A) : bool :=
  match o with Ok _ => true | Raise _ => false end.

Definition exn_eqb (a b : exn) : bool :=
  match a, b with
  | ValueError, ValueError | RuntimeError, RuntimeError
  | InvalidTag, InvalidTag | InvalidToken, InvalidToken
  | OSError, OSError | OtherError, OtherError => true
  | _, _ => false
  end.

End Py.
Export Py.

(* ===================================================================== *)
(** ** Byte strings                                                      *)
(* ===================================================================== *)

Abbreviation bytes := (list byte).

Module Bytes.

Definition byte_eqb (a b : byte) : bool := Byte.eqb a b.

Fixpoint bytes_eqb (a b : bytes) : bool :=
  match a, b with
  | [], [] => true
  | x :: a', y :: b' => byte_eqb x y && bytes_eqb a' b'
  | _, _ => false
  end.

(** [b"..."] literals. *)
Definition blit (s : string) : bytes := String.list_byte_of_string s.

(** [bytes([n])] for [0 <= n < 256]; out of that range Python raises,
    which no caller below can trigger. *)
Definition byte_of_nat (n : nat) : byte :=
  match Byte.of_nat n with Some x => x | None => x00 end.

Definition nat_of_byte (x : byte) : nat := Byte.to_nat x.

(** Bitwise exclusive or of two bytes, on their eight bits. *)
Definition byte_xor (x y : byte) : byte :=
  let '(x0, (x1, (x2, (x3, (x4, (x5, (x6, x7))))))) := Byte.to_bits x in
  let '(y0, (y1, (y2, (y3, (y4, (y5, (y6, y7))))))) := Byte.to_bits y in
  Byte.of_bits (xorb x0 y0, (xorb x1 y1, (xorb x2 y2, (xorb x3 y3,
               (xorb x4 y4, (xorb x5 y5, (xorb x6 y6, xorb x7 y7))))))).

(** [bytes(a ^ b for a, b in zip(x, y))]. *)
Definition xor_bytes (x y : bytes) : bytes := zip_with byte_xor x y.

(** The byte with only bit [k] set ([k < 8]); [x00] otherwise. *)
Definition bit_mask (k : nat) : byte :=
  match k with
  | 0 => x01 | 1 => x02 | 2 => x04 | 3 => x08
  | 4 => x10 | 5 => x20 | 6 => x40 | 7 => x80
  | _ => x00
  end.

(** Flip bit [i mod 8] of the byte at index [i / 8]; the string is
    unchanged when that index is out of range. *)
Definition flip_bit (i : nat) (s : bytes) : bytes :=
  match s !! (i / 8) with
  | Some x => <[i / 8 := byte_xor x (bit_mask (i mod 8))]> s
  | None => s
  end.

Definition byte_of_N (n : N) : byte :=
  match Byte.of_N n with Some x => x | None => x00 end.

(** [n.to_bytes(4, byteorder='big')]; Python raises [OverflowError]
    when [n] does not fit. *)
Definition to_bytes4_big (n : nat) : outcome bytes :=
  let z := N.of_nat n in
  if (z <? 2 ^ 32)%N then
    Ok [ byte_of_N (z / 2 ^ 24);
         byte_of_N (z / 2 ^ 16 mod 256);
         byte_of_N (z / 2 ^ 8 mod 256);
         byte_of_N (z mod 256) ]
  else Raise OtherError.

(** [int.from_bytes(s, byteorder='big')]. *)
Definition from_bytes_big (s : bytes) : nat :=
  N.to_nat (foldl (fun acc x => acc * 256 + Byte.to_N x)%N 0%N s).

(** [s.startswith(p)]. *)
Definition startswith (s p : bytes) : bool := bytes_eqb (take (length p) s) p.

(** The chunks seen by the loop
    [while True: chunk = f.read(n); if not chunk: break; ...]
    over a file whose remaining content is [data]. [read(0)] returns the
    empty string, so the loop body never runs for [n = 0]. *)
Fixpoint chunks_fuel (fuel n : nat) (data : bytes) : list bytes :=
  match fuel with
  | 0 => []
  | S fuel' =>
      match take n data with
      | [] => []
      | c => c :: chunks_fuel fuel' n (drop n data)
      end
  end.

Definition chunks (n : nat) (data : bytes) : list bytes :=
  chunks_fuel (length data) n data.

End Bytes.
Export Bytes.

(* ===================================================================== *)
(** ** The world: files, [os.urandom] and the clock                      *)
(* ===================================================================== *)

Module World.

(** [fs] maps a path to the content of the regular file there; [rng] is
    the stream of bytes [os.urandom] and the libraries' own generators
    will deliver; [now] is [datetime.now().isoformat()]. *)
Record world : Type := MkWorld {
  fs : gmap string bytes;
  rng : nat → byte;
  now : string;
}.

Definition set_fs (f : gmap string bytes → gmap string bytes) (w : world) : world :=
  MkWorld (f (fs w)) (rng w) (now w).

(** Computations that read and write the world and may raise. The world
    reached when an exception is raised is kept: what was written before
    the exception stays written. *)
Definition M (A : Type) : Type := world → outcome A * world.

Definition ret {A} (a : A) : M A := fun w => (Ok a, w).

Definition bind {A B} (m : M A) (k : A → M B) : M B :=
  fun w => match m w with
           | (Ok a, w') => k a w'
           | (Raise e, w') => (Raise e, w')
           end.

Definition raise {A} (e : exn) : M A := fun w => (Raise e, w).

Definition lift {A} (o : outcome A) : M A := fun w => (o, w).

(** [try: m  except Exception as e: h e]. *)
Definition try_except {A} (m : M A) (h : exn → M A) : M A :=
  fun w => match m w with
           | (Ok a, w') => (Ok a, w')
           | (Raise e, w') => h e w'
           end.

(** [for x in xs: body x]. *)
Fixpoint for_each {A} (xs : list A) (body : A → M unit) : M unit :=
  match xs with
  | [] => ret tt
  | x :: xs' => bind (body x) (fun _ => for_each xs' body)
  end.

(** [os.urandom(n)]. *)
Definition urandom (n : nat) : M bytes :=
  fun w => (Ok (map (rng w) (seq 0 n)),
            MkWorld (fs w) (fun i => rng w (n + i)) (now w)).

Definition datetime_now_isoformat : M string := fun w => (Ok (now w), w).

(** [os.path.exists(p)]. *)
Definition path_exists (p : string) : M bool :=
  fun w => (Ok (bool_decide (is_Some (fs w !! p))), w).

(** [os.path.getsize(p)]. *)
Definition getsize (p : string) : M nat :=
  fun w => match fs w !! p with
           | Some d => (Ok (length d), w)
           | None => (Raise OSError, w)
           end.

(** [open(p, 'rb')]: fails when there is no such file. *)
Definition open_rb (p : string) : M unit :=
  fun w => match fs w !! p with
           | Some _ => (Ok tt, w)
           | None => (Raise OSError, w)
           end.

(** [open(p, 'wb')] and [open(p, 'w')]: create or truncate. *)
Definition open_wb (p : string) : M unit :=
  fun w => (Ok tt, set_fs (insert p []) w).

(** The content an open read handle on [p] delivers. *)
Definition contents (p : string) : M bytes :=
  fun w => match fs w !! p with
           | Some d => (Ok d, w)
           | None => (Raise OSError, w)
           end.

(** [f.write(d)] on a write handle on [p]. *)
Definition write (p : string) (d : bytes) : M unit :=
  fun w => (Ok tt, set_fs (fun m => <[p := default [] (m !! p) ++ d]> m) w).

(** [os.remove(p)]. *)
Definition remove (p : string) : M unit :=
  fun w => match fs w !! p with
           | Some _ => (Ok tt, set_fs (delete p) w)
           | None => (Raise OSError, w)
           end.

(** [os.path.isfile(p)]: the file system holds regular files only. *)
Definition isfile (p : string) : M bool :=
  fun w => (Ok (bool_decide (is_Some (fs w !! p))), w).

(** A loop that threads a local variable:
    [for x in xs: acc = body x acc]. *)
Fixpoint fold_each {A B} (xs : list A) (acc : B) (body : A → B → M B) : M B :=
  match xs with
  | [] => ret acc
  | x :: xs' => bind (body x acc) (fun acc' => fold_each xs' acc' body)
  end.

(** The text [os.path.join(d, name)] puts before [name]. *)
Definition dir_prefix (d : string) : string :=
  if String.eqb d EmptyString || String.prefix "/" (String.rev d) then d
  else d +:+ "/".

(** [s] without the prefix [p], when it starts with [p]. *)
Fixpoint strip_prefix (p s : string) : option string :=
  match p, s with
  | EmptyString, _ => Some s
  | String a p', String b s' =>
      if Ascii.eqb a b then strip_prefix p' s' else None
  | String _ _, EmptyString => None
  end.

(** The part of a relative path before its first slash. *)
Fixpoint first_component (s : string) : string :=
  match s with
  | EmptyString => EmptyString
  | String c rest =>
      if Ascii.eqb c "/"%char then EmptyString
      else String c (first_component rest)
  end.

(** The entry of directory [d] that the file at path [p] lies in or is. *)
Definition entry_of (d p : string) : option string :=
  match strip_prefix (dir_prefix d) p with
  | Some rest =>
      let n := first_component rest in
      if String.eqb n EmptyString then None else Some n
  | None => None
  end.

(** [os.listdir(d)] for a directory that exists: the names of its
    entries, each once. A file below a subdirectory of [d] makes that
    subdirectory an entry. Python leaves the order unspecified; here it
    is the order in which the map enumerates the paths. *)
Definition listdir (d : string) : M (list string) :=
  fun w => (Ok (remove_dups (omap (entry_of d) (map_to_list (fs w)).*1)), w).

End World.
Export World.

Notation "'let*' x := m 'in' k" := (bind m (fun x => k))
  (at level 10, x pattern, m at level 100, k at level 200,
   format "'[v' 'let*'  x  :=  m  'in' '/' k ']'").
Notation "'exec' m 'in' k" := (bind m (fun _ => k))
  (at level 10, m at level 100, k at level 200,
   format "'[v' 'exec'  m  'in' '/' k ']'").

(* ===================================================================== *)
(** ** Python values, dictionaries and keyword arguments                 *)
(* ===================================================================== *)

Module Values.

(** Key objects of the [cryptography] package, identified with their
    canonical (DER) serialisation. *)
Inductive pyobj : Type :=
  | RSAPrivateKey (der : bytes)
  | RSAPublicKey (der : bytes).

(** The values found in key dictionaries. A [dict] keeps insertion
    order; assigning to a present key keeps its position. *)
#[local] Unset Elimination Schemes.
Inductive pyval : Type :=
  | VNone
  | VBool (x : bool)
  | VInt (z : Z)
  | VStr (s : string)
  | VBytes (x : bytes)
  | VDict (d : list (string * pyval))
  | VObj (o : pyobj).
#[local] Set Elimination Schemes.

Abbreviation dict := (list (string * pyval)).

(** [d.get(k)]. *)
Fixpoint dict_get (d : dict) (k : string) : option pyval :=
  match d with
  | [] => None
  | (k', v) :: d' => if String.eqb k' k then Some v else dict_get d' k
  end.

(** [d[k] = v]. *)
Fixpoint dict_set (d : dict) (k : string) (v : pyval) : dict :=
  match d with
  | [] => [(k, v)]
  | (k', v') :: d' =>
      if String.eqb k' k then (k', v) :: d' else (k', v') :: dict_set d' k v
  end.

(** The keyword arguments the ciphers look up with [kwargs.get]. Key
    objects are truthy; byte strings and strings are truthy when they are
    not empty. *)
Record kwargs : Type := MkKwargs {
  kw_iv : option bytes;
  kw_associated_data : option bytes;
  kw_public_key : option bytes;
  kw_public_pem : option bytes;
  kw_private_key : option bytes;
  kw_private_pem : option bytes;
  kw_passphrase : option string;
}.

Definition no_kwargs : kwargs := MkKwargs None None None None None None None.

(** Truth value of an optional byte string or string. *)
Definition truthy {A} (x : option (list A)) : bool :=
  match x with Some (_ :: _) => true | _ => false end.

Definition truthy_str (x : option string) : bool :=
  match x with Some (String _ _) => true | _ => false end.

(** Truth value of what [d.get(k)] returns. *)
Definition truthy_val (x : option pyval) : bool :=
  match x with
  | None | Some VNone => false
  | Some (VBool b) => b
  | Some (VInt z) => negb (z =? 0)%Z
  | Some (VStr s) => negb (String.eqb s EmptyString)
  | Some (VBytes x) => negb (bytes_eqb x [])
  | Some (VDict d) => match d with [] => false | _ => true end
  | Some (VObj _) => true
  end.

(** [d[k]]: [KeyError] for a missing key. *)
Definition dict_item (d : dict) (k : string) : outcome pyval :=
  match dict_get d k with
  | Some v => Ok v
  | None => Raise OtherError
  end.

(** [s.lower()] on ASCII text: the letters [A]-[Z] become [a]-[z]. It is
    exact for hexadecimal digests; characters outside ASCII are left as
    they are. *)
Definition ascii_lower (c : ascii) : ascii :=
  let n := Ascii.nat_of_ascii c in
  if (65 <=? n) && (n <=? 90) then Ascii.ascii_of_nat (n + 32) else c.

Fixpoint lower (s : string) : string :=
  match s with
  | EmptyString => EmptyString
  | String c rest => String (ascii_lower c) (lower rest)
  end.



(** [s[:-k]]. *)
Definition drop_last (k : nat) (s : string) : string :=
  String.substring 0 (String.length s - k) s.

(** [c in s] for a character [c]. *)
Fixpoint contains_char (c : ascii) (s : string) : bool :=
  match s with
  | EmptyString => false
  | String a rest => Ascii.eqb a c || contains_char c rest
  end.

(** [os.path.basename(p)] on POSIX: what follows the last slash. *)
Fixpoint basename (p : string) : string :=
  match p with
  | EmptyString => EmptyString
  | String c rest =>
      if contains_char "/"%char p then basename rest else p
  end.

End Values.
Export Values.

(* ===================================================================== *)
(** ** Interfaces of the external libraries                              *)
(* ===================================================================== *)

(** The AES block function of [cryptography]'s [algorithms.AES]: a key
    of 16, 24 or 32 bytes and a block of 16 bytes. *)
Class BlockCipher : Type := {
  block_encrypt : bytes → bytes → bytes;
  block_decrypt : bytes → bytes → bytes;
}.

Definition aes_key_ok (key : bytes) : Prop :=
  length key = 16 ∨ length key = 24 ∨ length key = 32.

Class BlockCipherLaws (BC : BlockCipher) : Prop := {
  block_encrypt_length : ∀ key x,
    aes_key_ok key → length x = 16 → length (block_encrypt key x) = 16;
  block_decrypt_encrypt : ∀ key x,
    aes_key_ok key → length x = 16 →
    block_decrypt key (block_encrypt key x) = x;
}.

(** ChaCha20-Poly1305 of [cryptography]'s [aead] module, for a 32-byte
    key and a 12-byte nonce. [aead_decrypt] raises [InvalidTag] when the
    tag does not verify. *)
Class AEAD : Type := {
  aead_encrypt : bytes → bytes → bytes → option bytes → bytes;
  aead_decrypt : bytes → bytes → bytes → option bytes → outcome bytes;
}.

Class AEADLaws (A : AEAD) : Prop := {
  aead_decrypt_encrypt : ∀ key nonce data ad,
    length key = 32 → length nonce = 12 →
    aead_decrypt key nonce (aead_encrypt key nonce data ad) ad = Ok data;
}.

(** The ciphertext of ChaCha20-Poly1305 is the encrypted data followed
    by the 16-byte tag. *)
Class AEADTagLength (A : AEAD) : Prop := {
  aead_encrypt_length : ∀ key nonce data ad,
    length (aead_encrypt key nonce data ad) = length data + 16;
}.

(** Authentication, as the library promises it (RFC 8439): [decrypt]
    accepts nothing but what [encrypt] made, so that an accepted input
    is the encryption of the plaintext returned; and an output of
    [encrypt] with one bit changed, in the encrypted data or in the
    tag, is rejected with [InvalidTag]. *)
Class AEADAuth (A : AEAD) : Prop := {
  aead_decrypt_sound : ∀ key nonce c ad p,
    length key = 32 → length nonce = 12 →
    aead_decrypt key nonce c ad = Ok p → c = aead_encrypt key nonce p ad;
  aead_decrypt_flipped : ∀ key nonce data ad j,
    length key = 32 → length nonce = 12 →
    j < 8 * length (aead_encrypt key nonce data ad) →
    aead_decrypt key nonce (flip_bit j (aead_encrypt key nonce data ad)) ad
    = Raise InvalidTag;
}.

(** RSA of [cryptography]. Keys are identified with their serialisation.
    [rsa_generate] takes the key size in bits and the random bytes the
    generator consumes; [oaep_encrypt] takes the 32-byte OAEP seed. *)
Class RSA : Type := {
  rsa_generate : nat → bytes → bytes;
  rsa_public_key : bytes → bytes;
  rsa_modulus_bytes : bytes → nat;
  rsa_private_pem : bytes → option bytes → bytes;
  rsa_public_pem : bytes → bytes;
  load_pem_private_key : bytes → option bytes → outcome bytes;
  load_pem_public_key : bytes → outcome bytes;
  oaep_encrypt : bytes → bytes → bytes → outcome bytes;
  oaep_decrypt : bytes → bytes → outcome bytes;
}.

(** OAEP with SHA-256 takes at most [k - 2*32 - 2] bytes under a modulus
    of [k] bytes and produces [k] bytes. *)
Class RSALaws (R : RSA) : Prop := {
  rsa_generate_modulus : ∀ bits seed,
    rsa_modulus_bytes (rsa_public_key (rsa_generate bits seed)) = bits / 8;
  oaep_encrypt_ok : ∀ pub seed data,
    length data + 66 ≤ rsa_modulus_bytes pub →
    ∃ c, oaep_encrypt pub seed data = Ok c ∧ length c = rsa_modulus_bytes pub;
  oaep_encrypt_too_long : ∀ pub seed data,
    rsa_modulus_bytes pub < length data + 66 →
    oaep_encrypt pub seed data = Raise ValueError;
  oaep_decrypt_encrypt : ∀ priv seed data c,
    oaep_encrypt (rsa_public_key priv) seed data = Ok c →
    oaep_decrypt priv c = Ok data;
  load_public_pem : ∀ pub, load_pem_public_key (rsa_public_pem pub) = Ok pub;
  load_private_pem : ∀ priv pw,
    load_pem_private_key (rsa_private_pem priv pw) pw = Ok priv;
  rsa_public_pem_nonempty : ∀ pub, rsa_public_pem pub ≠ [];
  rsa_private_pem_nonempty : ∀ priv pw, rsa_private_pem priv pw ≠ [];
}.

(** [base64], [json] and the UTF-8 codec. A Python [str] is represented
    by its UTF-8 encoding, so [s.encode('utf-8')] is [blit s].
    [json_dumps d indent] is [json.dumps(d, indent=indent)]; it raises for
    a value [json] cannot write. *)
Class Codec : Type := {
  b64encode : bytes → string;
  b64decode : string → outcome bytes;
  urlsafe_b64encode : bytes → bytes;
  utf8_decode : bytes → outcome string;
  json_dumps : dict → option nat → outcome string;
  json_loads : string → outcome dict;
}.

(** [json_safe d]: every value of [d] is one [json] writes and reads back
    unchanged (no bytes, no objects). *)
Fixpoint json_safe_val (v : pyval) : bool :=
  match v with
  | VNone | VBool _ | VInt _ | VStr _ => true
  | VBytes _ | VObj _ => false
  | VDict d => forallb (fun kv => json_safe_val kv.2) d
  end.

Definition json_safe (d : dict) : bool :=
  forallb (fun kv => json_safe_val kv.2) d.

Class CodecLaws (C : Codec) : Prop := {
  b64decode_encode : ∀ x, b64decode (b64encode x) = Ok x;
  utf8_decode_encode : ∀ s, utf8_decode (blit s) = Ok s;
  json_loads_dumps : ∀ d indent,
    json_safe d = true → NoDup d.*1 →
    ∃ s, json_dumps d indent = Ok s ∧ json_loads s = Ok d
         ∧ String.prefix "{" s = true;
}.

(** PBKDF2-HMAC and Fernet of [cryptography]. [pbkdf2_hmac_sha256]
    takes password, salt, iteration count and output length;
    [fernet_encrypt] takes the url-safe key, the 16 fresh IV bytes and the
    message, and raises [ValueError] when the key is not the encoding of
    32 bytes; [fernet_decrypt] raises [InvalidToken] when the token does
    not authenticate under the key. *)
Class KeyWrap : Type := {
  pbkdf2_hmac_sha256 : bytes → bytes → nat → nat → bytes;
  fernet_encrypt : bytes → bytes → bytes → outcome bytes;
  fernet_decrypt : bytes → bytes → outcome bytes;
}.

Class KeyWrapLaws (C : Codec) (K : KeyWrap) : Prop := {
  pbkdf2_length : ∀ pw salt iters n,
    length (pbkdf2_hmac_sha256 pw salt iters n) = n;
  fernet_encrypt_ok : ∀ raw iv msg,
    length raw = 32 →
    ∃ tok, fernet_encrypt (urlsafe_b64encode raw) iv msg = Ok tok;
  fernet_decrypt_encrypt : ∀ key iv msg tok,
    fernet_encrypt key iv msg = Ok tok → fernet_decrypt key tok = Ok msg;
}.

(** [hashlib]: each constructor is given by its digest function, from
    the data to the hexadecimal digest; the two flags are
    [hasattr(hashlib, 'sha3_256')] and [hasattr(hashlib, 'blake2b')]. *)
Class Hashlib : Type := {
  hashlib_md5 : bytes → string;
  hashlib_sha1 : bytes → string;
  hashlib_sha256 : bytes → string;
  hashlib_sha384 : bytes → string;
  hashlib_sha512 : bytes → string;
  hashlib_sha3_256 : bytes → string;
  hashlib_sha3_384 : bytes → string;
  hashlib_sha3_512 : bytes → string;
  hashlib_blake2b : bytes → string;
  hashlib_blake2s : bytes → string;
  hashlib_has_sha3 : bool;
  hashlib_has_blake2 : bool;
}.

(** A hash object: [update] appends to the data fed so far, and
    [hexdigest] is the digest of all of it ("repeated calls are
    equivalent to a single call with the concatenation of all the
    arguments"). *)
Record hash_obj : Type := MkHashObj {
  digest_of : bytes → string;
  fed : bytes;
}.

Definition hash_new (digest : bytes → string) : hash_obj := MkHashObj digest [].

(** A constructor of [hashlib], such as [hashlib.sha256], called with no
    argument. *)
Definition hash_constructor (digest : bytes → string) : unit → outcome hash_obj :=
  fun _ => Ok (hash_new digest).

Definition hash_update (h : hash_obj) (data : bytes) : hash_obj :=
  MkHashObj (digest_of h) (fed h ++ data).

Definition hexdigest (h : hash_obj) : string := digest_of h (fed h).

(* ===================================================================== *)
(** ** [cryptography.hazmat]: PKCS7 padding and the cipher modes         *)
(* ===================================================================== *)

Module Hazmat.

(** [padder = PKCS7(128).padder(); padder.update(d) + padder.finalize()]:
    [n = 16 - len(d) % 16] bytes of value [n] are appended. *)
Definition pkcs7_pad (data : bytes) : bytes :=
  let n := 16 - length data mod 16 in
  data ++ replicate n (byte_of_nat n).

(** [u = PKCS7(128).unpadder(); u.update(d) + u.finalize()]: [finalize]
    raises [ValueError] unless exactly one block is left in the buffer and
    its last byte [n] satisfies [1 <= n <= 16] with the last [n] bytes all
    equal to [n]. *)
Definition pkcs7_unpad (data : bytes) : outcome bytes :=
  match last data with
  | None => Raise ValueError
  | Some x =>
      let n := nat_of_byte x in
      if negb (length data mod 16 =? 0) then Raise ValueError
      else if (1 <=? n) && (n <=? 16)
              && forallb (byte_eqb x) (drop (length data - n) data)
           then Ok (take (length data - n) data)
           else Raise ValueError
  end.

Inductive mode : Type :=
  | CBC (iv : bytes)
  | CFB (iv : bytes)
  | OFB (iv : bytes)
  | CTR (nonce : bytes).

Definition mode_iv (m : mode) : bytes :=
  match m with CBC iv | CFB iv | OFB iv | CTR iv => iv end.

Record cipher : Type := MkCipher { c_key : bytes; c_mode : mode }.

(** [Cipher(algorithms.AES(key), mode)]: [ValueError] for a key that is
    not 128, 192 or 256 bits or an IV/nonce that is not one block. *)
Definition Cipher (key : bytes) (m : mode) : outcome cipher :=
  if negb ((length key =? 16) || (length key =? 24) || (length key =? 32))
  then Raise ValueError
  else if negb (length (mode_iv m) =? 16) then Raise ValueError
  else Ok (MkCipher key m).

Section Modes.
Context {BC : BlockCipher}.

Fixpoint cbc_encrypt_blocks (key prev : bytes) (blocks : list bytes) : list bytes :=
  match blocks with
  | [] => []
  | p :: rest =>
      let c := block_encrypt key (xor_bytes p prev) in
      c :: cbc_encrypt_blocks key c rest
  end.

Fixpoint cbc_decrypt_blocks (key prev : bytes) (blocks : list bytes) : list bytes :=
  match blocks with
  | [] => []
  | c :: rest =>
      xor_bytes (block_decrypt key c) prev :: cbc_decrypt_blocks key c rest
  end.

(** CFB with a 128-bit segment; a short final segment is allowed. *)
Fixpoint cfb_encrypt_blocks (key prev : bytes) (blocks : list bytes) : list bytes :=
  match blocks with
  | [] => []
  | p :: rest =>
      let c := xor_bytes p (block_encrypt key prev) in
      c :: cfb_encrypt_blocks key c rest
  end.

Fixpoint cfb_decrypt_blocks (key prev : bytes) (blocks : list bytes) : list bytes :=
  match blocks with
  | [] => []
  | c :: rest =>
      xor_bytes c (block_encrypt key prev) :: cfb_decrypt_blocks key c rest
  end.

Fixpoint ofb_stream (key prev : bytes) (n : nat) : list bytes :=
  match n with
  | 0 => []
  | S n' => let o := block_encrypt key prev in o :: ofb_stream key o n'
  end.

(** The counter block is a 128-bit big-endian integer that wraps. *)
Fixpoint incr_little_endian (l : bytes) : bytes :=
  match l with
  | [] => []
  | x :: rest =>
      if byte_eqb x xff then x00 :: incr_little_endian rest
      else byte_of_nat (S (nat_of_byte x)) :: rest
  end.

Definition ctr_incr (ctr : bytes) : bytes := rev (incr_little_endian (rev ctr)).

Fixpoint ctr_stream (key ctr : bytes) (n : nat) : list bytes :=
  match n with
  | 0 => []
  | S n' => block_encrypt key ctr :: ctr_stream key (ctr_incr ctr) n'
  end.

Definition nblocks (data : bytes) : nat := (length data + 15) / 16.

(** [e = cipher.encryptor(); e.update(d) + e.finalize()]; for CBC
    [finalize] raises [ValueError] when [d] is not a whole number of
    blocks. *)
Definition encryptor_run (c : cipher) (data : bytes) : outcome bytes :=
  match c_mode c with
  | CBC iv =>
      if length data mod 16 =? 0
      then Ok (concat (cbc_encrypt_blocks (c_key c) iv (chunks 16 data)))
      else Raise ValueError
  | CFB iv => Ok (concat (cfb_encrypt_blocks (c_key c) iv (chunks 16 data)))
  | OFB iv => Ok (xor_bytes data (concat (ofb_stream (c_key c) iv (nblocks data))))
  | CTR nonce => Ok (xor_bytes data (concat (ctr_stream (c_key c) nonce (nblocks data))))
  end.

(** [d = cipher.decryptor(); d.update(c) + d.finalize()]. *)
Definition decryptor_run (c : cipher) (data : bytes) : outcome bytes :=
  match c_mode c with
  | CBC iv =>
      if length data mod 16 =? 0
      then Ok (concat (cbc_decrypt_blocks (c_key c) iv (chunks 16 data)))
      else Raise ValueError
  | CFB iv => Ok (concat (cfb_decrypt_blocks (c_key c) iv (chunks 16 data)))
  | OFB iv => Ok (xor_bytes data (concat (ofb_stream (c_key c) iv (nblocks data))))
  | CTR nonce => Ok (xor_bytes data (concat (ctr_stream (c_key c) nonce (nblocks data))))
  end.

End Modes.
End Hazmat.
Export Hazmat.

(* ===================================================================== *)
(** ** [crypto_base.py]: the streaming wrappers                          *)
(* ===================================================================== *)

Module CryptoBase.

(** [CryptoBase.encrypt_file] (lines 71-109) for a subclass whose
    [encrypt_data] is [enc]. The progress callback is left out
    ([callback=None]). Any exception ends the loop and gives [False];
    what was written until then stays in the output file. *)
Definition encrypt_file (enc : bytes → bytes → kwargs → M bytes)
    (input_file output_file : string) (key : bytes) (chunk_size : nat)
    (kw : kwargs) : M bool :=
  try_except
    (let* total_size := getsize input_file in
     exec open_rb input_file in
     exec open_wb output_file in
     let* data := contents input_file in
     exec for_each (chunks chunk_size data) (fun chunk =>
            let* encrypted_chunk := enc chunk key kw in
            write output_file encrypted_chunk) in
     ret true)
    (fun _ => ret false).

(** [CryptoBase.decrypt_file] (lines 111-149). *)
Definition decrypt_file (dec : bytes → bytes → kwargs → M bytes)
    (input_file output_file : string) (key : bytes) (chunk_size : nat)
    (kw : kwargs) : M bool :=
  try_except
    (let* total_size := getsize input_file in
     exec open_rb input_file in
     exec open_wb output_file in
     let* data := contents input_file in
     exec for_each (chunks chunk_size data) (fun chunk =>
            let* decrypted_chunk := dec chunk key kw in
            write output_file decrypted_chunk) in
     ret true)
    (fun _ => ret false).

(** The methods every cipher object offers. *)
Record t : Type := MkCryptoBase {
  name : string;
  encrypt_data : bytes → bytes → kwargs → M bytes;
  decrypt_data : bytes → bytes → kwargs → M bytes;
  generate_key : kwargs → M dict;
  encrypt_file_m : string → string → bytes → nat → kwargs → M bool;
  decrypt_file_m : string → string → bytes → nat → kwargs → M bool;
}.

Definition default_chunk_size : nat := 4096.

End CryptoBase.

(* ===================================================================== *)
(** ** [aes.py]                                                          *)
(* ===================================================================== *)

Module AESCipher.
Section AES.
Context {BC : BlockCipher} {CD : Codec}.

Record t : Type := MkAES {
  name : string;
  key_size : nat;
  mode : string;
  block_size : nat;
}.

(** [AESCipher.__init__] (lines 20-40). *)
Definition init (key_size : nat) (mode : string) : outcome t :=
  let self := MkAES ("AES-" +:+ pretty key_size +:+ "-" +:+ mode)
                    key_size mode 128 in
  if negb (bool_decide (key_size ∈ [128; 192; 256])) then Raise ValueError
  else if negb (bool_decide (mode ∈ ["CBC"; "CFB"; "OFB"; "CTR"]))
       then Raise ValueError
       else Ok self.

(** [generate_key] (lines 42-63). *)
Definition generate_key (self : t) (kw : kwargs) : M dict :=
  let* key := urandom (key_size self / 8) in
  let* iv := urandom 16 in
  ret [ ("key", VBytes key);
        ("iv", VBytes iv);
        ("key_b64", VStr (b64encode key));
        ("iv_b64", VStr (b64encode iv));
        ("algorithm", VStr (name self));
        ("key_size", VInt (Z.of_nat (key_size self)));
        ("mode", VStr (mode self)) ].

(** [_get_cipher] (lines 65-102): [None] when no branch matches. *)
Definition _get_cipher (self : t) (key iv : bytes) : outcome (option cipher) :=
  if negb (length key * 8 =? key_size self) then Raise ValueError
  else if String.eqb (mode self) "CBC" then
    match Cipher key (CBC iv) with Ok c => Ok (Some c) | Raise e => Raise e end
  else if String.eqb (mode self) "CFB" then
    match Cipher key (CFB iv) with Ok c => Ok (Some c) | Raise e => Raise e end
  else if String.eqb (mode self) "OFB" then
    match Cipher key (OFB iv) with Ok c => Ok (Some c) | Raise e => Raise e end
  else if String.eqb (mode self) "CTR" then
    match Cipher key (CTR iv) with Ok c => Ok (Some c) | Raise e => Raise e end
  else Ok None.

(** [encrypt_data] (lines 104-135). The handler logs and re-raises, so
    the exception is the one of the body. Calling [.encryptor()] on
    [None] is an [AttributeError]. *)
Definition encrypt_data (self : t) (data key : bytes) (kw : kwargs) : outcome bytes :=
  if negb (truthy (kw_iv kw)) then Raise ValueError
  else
    let iv := default [] (kw_iv kw) in
    match _get_cipher self key iv with
    | Raise e => Raise e
    | Ok None => Raise OtherError
    | Ok (Some cipher) =>
        if String.eqb (mode self) "CBC" then
          let padded_data := pkcs7_pad data in
          encryptor_run cipher padded_data
        else encryptor_run cipher data
    end.

(** [decrypt_data] (lines 137-168). *)
Definition decrypt_data (self : t) (data key : bytes) (kw : kwargs) : outcome bytes :=
  if negb (truthy (kw_iv kw)) then Raise ValueError
  else
    let iv := default [] (kw_iv kw) in
    match _get_cipher self key iv with
    | Raise e => Raise e
    | Ok None => Raise OtherError
    | Ok (Some cipher) =>
        if String.eqb (mode self) "CBC" then
          match decryptor_run cipher data with
          | Raise e => Raise e
          | Ok decrypted_padded_data => pkcs7_unpad decrypted_padded_data
          end
        else decryptor_run cipher data
    end.

Definition encrypt_file (self : t) :=
  CryptoBase.encrypt_file (fun d k kw => lift (encrypt_data self d k kw)).

Definition decrypt_file (self : t) :=
  CryptoBase.decrypt_file (fun d k kw => lift (decrypt_data self d k kw)).

Definition as_base (self : t) : CryptoBase.t :=
  CryptoBase.MkCryptoBase (name self)
    (fun d k kw => lift (encrypt_data self d k kw))
    (fun d k kw => lift (decrypt_data self d k kw))
    (generate_key self)
    (encrypt_file self) (decrypt_file self).

End AES.
End AESCipher.

(* ===================================================================== *)
(** ** [chacha20.py]                                                     *)
(* ===================================================================== *)

Module ChaCha20Cipher.
Section ChaCha20.
Context {AE : AEAD} {CD : Codec}.

Record t : Type := MkChaCha20 { name : string; key_size : nat }.

(** [ChaCha20Cipher.__init__] (lines 24-27). *)
Definition init : t := MkChaCha20 "ChaCha20-Poly1305" 256.

(** The library constructor [ChaCha20Poly1305(key)]: [ValueError] unless
    the key has 32 bytes. *)
Definition ChaCha20Poly1305 (key : bytes) : outcome bytes :=
  if length key =? 32 then Ok key else Raise ValueError.

(** [encrypt_data] (lines 29-61): every exception of the body becomes a
    [RuntimeError]. *)
Definition encrypt_data (self : t) (data key : bytes) (kw : kwargs) : M bytes :=
  try_except
    (let* cipher := lift (ChaCha20Poly1305 key) in
     let* nonce := urandom 12 in
     let associated_data := kw_associated_data kw in
     let ciphertext := aead_encrypt cipher nonce data associated_data in
     let encrypted_data := nonce ++ ciphertext in
     ret encrypted_data)
    (fun _ => raise RuntimeError).

(** [decrypt_data] (lines 63-96): [InvalidTag] becomes [ValueError],
    every other exception becomes [RuntimeError]. *)
Definition decrypt_data (self : t) (data key : bytes) (kw : kwargs) : outcome bytes :=
  let body :=
    match ChaCha20Poly1305 key with
    | Raise e => Raise e
    | Ok cipher =>
        let nonce := take 12 data in
        let ciphertext := drop 12 data in
        let associated_data := kw_associated_data kw in
        aead_decrypt cipher nonce ciphertext associated_data
    end in
  match body with
  | Ok plaintext => Ok plaintext
  | Raise InvalidTag => Raise ValueError
  | Raise _ => Raise RuntimeError
  end.

(** [generate_key] (lines 98-117). *)
Definition generate_key (self : t) (kw : kwargs) : M dict :=
  let* key := urandom 32 in
  ret [ ("algorithm", VStr (name self));
        ("key", VBytes key);
        ("key_b64", VStr (b64encode key));
        ("key_format", VStr "base64");
        ("meta", VDict [("key_size", VInt (Z.of_nat (key_size self)))]) ].

Definition as_base (self : t) : CryptoBase.t :=
  let enc := encrypt_data self in
  let dec := fun d k kw => lift (decrypt_data self d k kw) in
  CryptoBase.MkCryptoBase (name self) enc dec (generate_key self)
    (CryptoBase.encrypt_file enc) (CryptoBase.decrypt_file dec).

End ChaCha20.
End ChaCha20Cipher.

(* ===================================================================== *)
(** ** [rsa.py]                                                          *)
(* ===================================================================== *)

Module RSACipher.
Section RSA.
Context {BC : BlockCipher} {CD : Codec} {R : RSA}.

Record t : Type := MkRSA { name : string; key_size : nat }.

(** [RSACipher.__init__] (lines 20-34). *)
Definition init (key_size : nat) : outcome t :=
  if key_size <? 1024 then Raise ValueError
  else Ok (MkRSA ("RSA-" +:+ pretty key_size) key_size).

(** [passphrase.encode('utf-8')] when a passphrase is given. *)
Definition passphrase_bytes (passphrase : option string) : option bytes :=
  if truthy_str passphrase then blit <$> passphrase else None.

(** [generate_key] (lines 36-88). The generator is taken to consume
    [key_size // 8] random bytes. *)
Definition generate_key (self : t) (kw : kwargs) : M dict :=
  let passphrase := kw_passphrase kw in
  let* seed := urandom (key_size self / 8) in
  let private_key := rsa_generate (key_size self) seed in
  let public_key := rsa_public_key private_key in
  let private_pem := rsa_private_pem private_key (passphrase_bytes passphrase) in
  let public_pem := rsa_public_pem public_key in
  ret [ ("private_key", VObj (RSAPrivateKey private_key));
        ("public_key", VObj (RSAPublicKey public_key));
        ("private_pem", VBytes private_pem);
        ("public_pem", VBytes public_pem);
        ("algorithm", VStr (name self));
        ("key_size", VInt (Z.of_nat (key_size self))) ].

(** [load_key] (lines 90-149). The handlers log and re-raise. *)
Definition load_key (self : t) (public_pem private_pem : option bytes)
    (passphrase : option string) : outcome dict :=
  let key_dict :=
    [ ("algorithm", VStr (name self));
      ("key_size", VInt (Z.of_nat (key_size self))) ] in
  if truthy private_pem then
    let private_pem := default [] private_pem in
    match load_pem_private_key private_pem (passphrase_bytes passphrase) with
    | Raise e => Raise e
    | Ok private_key =>
        let key_dict := dict_set key_dict "private_key" (VObj (RSAPrivateKey private_key)) in
        let key_dict := dict_set key_dict "private_pem" (VBytes private_pem) in
        let public_key := rsa_public_key private_key in
        let public_pem := rsa_public_pem public_key in
        let key_dict := dict_set key_dict "public_key" (VObj (RSAPublicKey public_key)) in
        let key_dict := dict_set key_dict "public_pem" (VBytes public_pem) in
        Ok key_dict
    end
  else if truthy public_pem then
    let public_pem := default [] public_pem in
    match load_pem_public_key public_pem with
    | Raise e => Raise e
    | Ok public_key =>
        let key_dict := dict_set key_dict "public_key" (VObj (RSAPublicKey public_key)) in
        let key_dict := dict_set key_dict "public_pem" (VBytes public_pem) in
        Ok key_dict
    end
  else Ok key_dict.

(** The public key the keyword arguments designate: the key object when
    given, else the key loaded from the PEM text. *)
Definition resolve_public (kw : kwargs) : outcome bytes :=
  match kw_public_key kw with
  | Some k => Ok k
  | None => load_pem_public_key (default [] (kw_public_pem kw))
  end.

Definition resolve_private (kw : kwargs) : outcome bytes :=
  match kw_private_key kw with
  | Some k => Ok k
  | None =>
      load_pem_private_key (default [] (kw_private_pem kw))
                           (passphrase_bytes (kw_passphrase kw))
  end.

Definition missing_public (kw : kwargs) : bool :=
  negb (bool_decide (is_Some (kw_public_key kw))) && negb (truthy (kw_public_pem kw)).

Definition missing_private (kw : kwargs) : bool :=
  negb (bool_decide (is_Some (kw_private_key kw))) && negb (truthy (kw_private_pem kw)).

(** [max_data_length = self.key_size // 8 - 2 * 32 - 2]. *)
Definition max_data_length (self : t) : Z :=
  (Z.of_nat (key_size self) / 8 - 2 * 32 - 2)%Z.

(** [encrypt_data] (lines 151-196); [key] is not used. The handler logs
    and re-raises. *)
Definition encrypt_data (self : t) (data key : bytes) (kw : kwargs) : M bytes :=
  if missing_public kw then raise ValueError
  else
    let* public_key := lift (resolve_public kw) in
    if (max_data_length self <? Z.of_nat (length data))%Z then raise ValueError
    else
      let* seed := urandom 32 in
      lift (oaep_encrypt public_key seed data).

(** [decrypt_data] (lines 198-244). *)
Definition decrypt_data (self : t) (data key : bytes) (kw : kwargs) : outcome bytes :=
  if missing_private kw then Raise ValueError
  else
    match resolve_private kw with
    | Raise e => Raise e
    | Ok private_key => oaep_decrypt private_key data
    end.

(** [d[k]] for a key whose value is a byte string. *)
Definition dict_bytes (d : dict) (k : string) : outcome bytes :=
  match dict_get d k with
  | Some (VBytes x) => Ok x
  | _ => Raise OtherError
  end.

Definition with_iv (iv : bytes) : kwargs :=
  MkKwargs (Some iv) None None None None None None.

Definition remove_if_exists (p : string) : M unit :=
  let* ex := path_exists p in
  if ex then remove p else ret tt.

(** [encrypt_file] (lines 246-332): the envelope scheme. The result of
    [aes.encrypt_file] is not looked at. *)
Definition encrypt_file (self : t) (input_file output_file : string)
    (key : bytes) (chunk_size : nat) (kw : kwargs) : M bool :=
  if missing_public kw then raise ValueError
  else
    try_except
      (let* public_key := lift (resolve_public kw) in
       let* aes := lift (AESCipher.init 256 "CBC") in
       let* aes_key_dict := AESCipher.generate_key aes no_kwargs in
       let temp_file := output_file +:+ ".temp" in
       let* aes_key := lift (dict_bytes aes_key_dict "key") in
       let* aes_iv := lift (dict_bytes aes_key_dict "iv") in
       let* _ := AESCipher.encrypt_file aes input_file temp_file aes_key
                   chunk_size (with_iv aes_iv) in
       let key_data := aes_key ++ aes_iv in
       let* seed := urandom 32 in
       let* encrypted_key := lift (oaep_encrypt public_key seed key_data) in
       exec open_wb output_file in
       let* prefix := lift (to_bytes4_big (length encrypted_key)) in
       exec write output_file prefix in
       exec write output_file encrypted_key in
       exec open_rb temp_file in
       let* temp := contents temp_file in
       exec for_each (chunks chunk_size temp) (fun chunk =>
              write output_file chunk) in
       exec remove_if_exists temp_file in
       ret true)
      (fun _ =>
         exec remove_if_exists (output_file +:+ ".temp") in
         ret false).

(** [decrypt_file] (lines 334-433). The result of [aes.decrypt_file] is
    not looked at. *)
Definition decrypt_file (self : t) (input_file output_file : string)
    (key : bytes) (chunk_size : nat) (kw : kwargs) : M bool :=
  if missing_private kw then raise ValueError
  else
    try_except
      (let* private_key := lift (resolve_private kw) in
       exec open_rb input_file in
       let* infile := contents input_file in
       let key_length_bytes := take 4 infile in
       if negb (length key_length_bytes =? 4) then raise ValueError
       else
         let key_length := from_bytes_big key_length_bytes in
         let encrypted_key := take key_length (drop 4 infile) in
         if negb (length encrypted_key =? key_length) then raise ValueError
         else
           let* decrypted_key_data := lift (oaep_decrypt private_key encrypted_key) in
           let aes_key := take (length decrypted_key_data - 16) decrypted_key_data in
           let aes_iv := drop (length decrypted_key_data - 16) decrypted_key_data in
           let* aes := lift (AESCipher.init (length aes_key * 8) "CBC") in
           let temp_file := input_file +:+ ".temp" in
           exec open_wb temp_file in
           exec for_each (chunks chunk_size (drop (4 + key_length) infile))
                  (fun chunk => write temp_file chunk) in
           let* _ := AESCipher.decrypt_file aes temp_file output_file aes_key
                       chunk_size (with_iv aes_iv) in
           exec remove_if_exists temp_file in
           ret true)
      (fun _ =>
         exec remove_if_exists (input_file +:+ ".temp") in
         ret false).

Definition as_base (self : t) : CryptoBase.t :=
  CryptoBase.MkCryptoBase (name self)
    (encrypt_data self)
    (fun d k kw => lift (decrypt_data self d k kw))
    (generate_key self)
    (encrypt_file self) (decrypt_file self).

End RSA.
End RSACipher.

(* ===================================================================== *)
(** ** [crypto_factory.py]                                               *)
(* ===================================================================== *)

Module CryptoFactory.
Section Factory.
Context {BC : BlockCipher} {AE : AEAD} {CD : Codec} {R : RSA}.

(** A registered constructor: [lambda: ...]. *)
Definition factory_func : Type := unit → outcome CryptoBase.t.

Record t : Type := MkFactory { algorithms : gmap string factory_func }.

(** [register_algorithm] (lines 46-55). *)
Definition register_algorithm (self : t) (name : string) (f : factory_func) : t :=
  MkFactory (<[name := f]> (algorithms self)).

Definition aes_factory (key_size : nat) (mode : string) : factory_func :=
  fun _ => match AESCipher.init key_size mode with
           | Ok c => Ok (AESCipher.as_base c)
           | Raise e => Raise e
           end.

Definition rsa_factory (key_size : nat) : factory_func :=
  fun _ => match RSACipher.init key_size with
           | Ok c => Ok (RSACipher.as_base c)
           | Raise e => Raise e
           end.

Definition chacha20_factory : factory_func :=
  fun _ => Ok (ChaCha20Cipher.as_base ChaCha20Cipher.init).

(** [_register_algorithms] (lines 23-44). *)
Definition _register_algorithms (self : t) : t :=
  let self := register_algorithm self "AES-128-CBC" (aes_factory 128 "CBC") in
  let self := register_algorithm self "AES-192-CBC" (aes_factory 192 "CBC") in
  let self := register_algorithm self "AES-256-CBC" (aes_factory 256 "CBC") in
  let self := register_algorithm self "AES-128-CFB" (aes_factory 128 "CFB") in
  let self := register_algorithm self "AES-192-CFB" (aes_factory 192 "CFB") in
  let self := register_algorithm self "AES-256-CFB" (aes_factory 256 "CFB") in
  let self := register_algorithm self "AES-128-CTR" (aes_factory 128 "CTR") in
  let self := register_algorithm self "AES-192-CTR" (aes_factory 192 "CTR") in
  let self := register_algorithm self "AES-256-CTR" (aes_factory 256 "CTR") in
  let self := register_algorithm self "RSA-1024" (rsa_factory 1024) in
  let self := register_algorithm self "RSA-2048" (rsa_factory 2048) in
  let self := register_algorithm self "RSA-4096" (rsa_factory 4096) in
  let self := register_algorithm self "ChaCha20-Poly1305" chacha20_factory in
  self.

(** [CryptoFactory.__init__] (lines 18-21). *)
Definition init : t := _register_algorithms (MkFactory ∅).

(** [create_algorithm] (lines 57-73): [ValueError] for a name that is
    not registered. *)
Definition create_algorithm (self : t) (name : string) : outcome CryptoBase.t :=
  match algorithms self !! name with
  | None => Raise ValueError
  | Some f => f tt
  end.

(** [get_crypto_by_name] (lines 107-121): [None] instead of the
    [ValueError]. *)
Definition get_crypto_by_name (self : t) (name : string) : outcome (option CryptoBase.t) :=
  match create_algorithm self name with
  | Ok c => Ok (Some c)
  | Raise ValueError => Ok None
  | Raise e => Raise e
  end.

(** [get_all_algorithms] (lines 75-82): the registered names, in the
    order in which the map enumerates them. *)
Definition get_all_algorithms (self : t) : list string :=
  (map_to_list (algorithms self)).*1.

(** [categories[k].append(name)]. *)
Fixpoint category_append (categories : list (string * list string))
    (k name : string) : list (string * list string) :=
  match categories with
  | [] => []
  | (k', names) :: rest =>
      if String.eqb k' k then (k', names ++ [name]) :: rest
      else (k', names) :: category_append rest k name
  end.

(** [get_algorithm_by_category] (lines 84-105). *)
Definition get_algorithm_by_category (self : t) : list (string * list string) :=
  let categories := [ ("对称加密", []); ("非对称加密", []); ("其他", []) ] in
  foldl (fun categories algo_name =>
           if String.prefix "AES" algo_name
           then category_append categories "对称加密" algo_name
           else if String.prefix "RSA" algo_name
                then category_append categories "非对称加密" algo_name
                else category_append categories "其他" algo_name)
        categories (get_all_algorithms self).

(** The module-level instance [crypto_factory]. *)
Definition crypto_factory : t := init.

End Factory.
End CryptoFactory.

(* ===================================================================== *)
(** ** [key_manager.py]                                                  *)
(* ===================================================================== *)

Module KeyManager.
Section KeyManager.
Context {CD : Codec} {KW : KeyWrap}.

Record t : Type := MkKeyManager { storage_dir : string }.

(** [os.path.join(a, b)] on POSIX. *)
Definition path_join (a b : string) : string :=
  if String.prefix "/" b then b
  else if String.eqb a EmptyString || String.prefix "/" (String.rev a) then a +:+ b
  else a +:+ "/" +:+ b.

(** [s.replace(old, new)] for one-character [old] and [new]. *)
Fixpoint replace_char (old new : ascii) (s : string) : string :=
  match s with
  | EmptyString => EmptyString
  | String c rest =>
      String (if Ascii.eqb c old then new else c) (replace_char old new rest)
  end.

Definition backslash : ascii := Ascii.ascii_of_nat 92.

(** Line 78: spaces, slashes and backslashes become underscores. *)
Definition sanitize (key_name : string) : string :=
  replace_char backslash "_"%char
    (replace_char "/"%char "_"%char
      (replace_char " "%char "_"%char key_name)).

(** [key.replace("_b64", empty)]: every occurrence of [_b64] is removed. *)
Fixpoint remove_b64 (s : string) : string :=
  match s with
  | String "_" (String "b" (String "6" (String "4" rest))) => remove_b64 rest
  | String c rest => String c (remove_b64 rest)
  | EmptyString => EmptyString
  end.

(** [s.endswith(suffix)]. *)
Definition endswith (s suffix : string) : bool :=
  String.prefix (String.rev suffix) (String.rev s).

Definition key_path (self : t) (key_name : string) : string :=
  path_join (storage_dir self) (key_name +:+ ".key").

Definition kdf_iterations : nat := 100 * 1000.

(** [_derive_key_from_password] (lines 40-62). *)
Definition _derive_key_from_password (password : string) (salt : option bytes)
    : M (bytes * bytes) :=
  let* salt := match salt with
               | None => urandom 16
               | Some s => ret s
               end in
  let key := urlsafe_b64encode (pbkdf2_hmac_sha256 (blit password) salt kdf_iterations 32) in
  ret (key, salt).

(** The loop of lines 90-95: values [json] can write are kept, byte
    strings are base64-encoded, objects are skipped. *)
Fixpoint save_fields (save_data items : dict) : dict :=
  match items with
  | [] => save_data
  | (key, value) :: rest =>
      match value with
      | VObj _ => save_fields save_data rest
      | VBytes x => save_fields (dict_set save_data key (VStr (b64encode x))) rest
      | _ => save_fields (dict_set save_data key value) rest
      end
  end.

(** [save_key] (lines 64-118). *)
Definition save_key (self : t) (key_data : dict) (key_name : string)
    (password : option string) : M string :=
  let key_name := sanitize key_name in
  let key_file := key_path self key_name in
  let* created := datetime_now_isoformat in
  let save_data :=
    [ ("name", VStr key_name);
      ("algorithm", default (VStr "unknown") (dict_get key_data "algorithm"));
      ("created_at", default (VStr created) (dict_get key_data "created_at")) ] in
  let save_data := save_fields save_data key_data in
  if truthy_str password then
    let* derived :=
      _derive_key_from_password (default EmptyString password) None in
    let derived_key := derived.1 in
    let salt := derived.2 in
    let* text := lift (json_dumps save_data None) in
    let json_data := blit text in
    let* iv := urandom 16 in
    let* encrypted_data := lift (fernet_encrypt derived_key iv json_data) in
    exec open_wb key_file in
    exec write key_file (blit "ENCRYPTED:") in
    exec write key_file salt in
    exec write key_file encrypted_data in
    ret key_file
  else
    exec open_wb key_file in
    let* text := lift (json_dumps save_data (Some 2)) in
    exec write key_file (blit text) in
    ret key_file.

(** The loop of lines 168-180. *)
Fixpoint load_fields (result_data items : dict) : dict :=
  match items with
  | [] => result_data
  | (key, value) :: rest =>
      if endswith key "_b64"
         || bool_decide (key ∈ ["key"; "iv"; "private_pem"; "public_pem"])
      then
        let result_data := dict_set result_data key value in
        match value with
        | VStr text =>
            match b64decode text with
            | Ok raw => load_fields (dict_set result_data (remove_b64 key) (VBytes raw)) rest
            | Raise _ => load_fields (dict_set result_data key value) rest
            end
        | _ => load_fields result_data rest
        end
      else load_fields (dict_set result_data key value) rest
  end.

(** Lines 143-165: the record in the file, or [None] for the two early
    [return None]. *)
Definition read_record (file_data : bytes) (password : option string)
    : M (option dict) :=
  if startswith file_data (blit "ENCRYPTED:") then
    if negb (truthy_str password) then ret None
    else
      let salt := take 16 (drop 10 file_data) in
      let encrypted_data := drop 26 file_data in
      let* derived :=
        _derive_key_from_password (default EmptyString password) (Some salt) in
      let derived_key := derived.1 in
      try_except
        (let* decrypted_data := lift (fernet_decrypt derived_key encrypted_data) in
         let* text := lift (utf8_decode decrypted_data) in
         let* key_data := lift (json_loads text) in
         ret (Some key_data))
        (fun _ => ret None)
  else
    let* text := lift (utf8_decode file_data) in
    let* key_data := lift (json_loads text) in
    ret (Some key_data).

(** [load_key] (lines 120-187): [None] on every failure. *)
Definition load_key (self : t) (key_name : string) (password : option string)
    : M (option dict) :=
  let key_file := key_path self key_name in
  let* ex := path_exists key_file in
  if negb ex then ret None
  else
    try_except
      (exec open_rb key_file in
       let* file_data := contents key_file in
       let* record := read_record file_data password in
       match record with
       | None => ret None
       | Some key_data => ret (Some (load_fields [] key_data))
       end)
      (fun _ => ret None).

(** [delete_key] (lines 231-253). *)
Definition delete_key (self : t) (key_name : string) : M bool :=
  let key_file := key_path self key_name in
  let* ex := path_exists key_file in
  if negb ex then ret false
  else
    try_except
      (exec remove key_file in ret true)
      (fun _ => ret false).

(** An entry of the dictionary [list_keys] returns. *)
Record key_info : Type := MkKeyInfo {
  info_name : string;
  info_file : string;
  info_is_encrypted : bool;
  info_algorithm : pyval;
}.

(** Lines 204-210: whether the file starts with the marker; [False]
    when it cannot be read. *)
Definition read_is_encrypted (key_file : string) : M bool :=
  try_except
    (exec open_rb key_file in
     let* data := contents key_file in
     let header := take 10 data in
     ret (bytes_eqb header (blit "ENCRYPTED:")))
    (fun _ => ret false).

(** Lines 213-220: the [algorithm] entry of an unprotected record;
    ["unknown"] when there is none or the file is not a record. *)
Definition read_algorithm (key_file : string) : M pyval :=
  try_except
    (exec open_rb key_file in
     let* data := contents key_file in
     let* text := lift (utf8_decode data) in
     let* key_data := lift (json_loads text) in
     ret (default (VStr "unknown") (dict_get key_data "algorithm")))
    (fun _ => ret (VStr "unknown")).

(** [list_keys] (lines 189-229). The storage directory exists, since
    [__init__] creates it. *)
Definition list_keys (self : t) : M (gmap string key_info) :=
  let* file_names := listdir (storage_dir self) in
  fold_each file_names ∅ (fun file_name result =>
    if endswith file_name ".key" then
      let key_name := drop_last 4 file_name in
      let key_file := path_join (storage_dir self) file_name in
      let* is_encrypted := read_is_encrypted key_file in
      let* algorithm :=
        if negb is_encrypted then read_algorithm key_file
        else ret (VStr "unknown") in
      ret (<[key_name :=
               MkKeyInfo key_name key_file is_encrypted
                 (if negb is_encrypted then algorithm else VStr "encrypted")]>
             result)
    else ret result).

End KeyManager.
End KeyManager.

(* ===================================================================== *)
(** ** [hash.py]                                                         *)
(* ===================================================================== *)

Module HashFunction.

(** [hash_func] is any callable that makes a hash object; it may raise. *)
Record t : Type := MkHashFunction {
  name : string;
  hash_func : unit → outcome hash_obj;
  description : string;
}.

(** [hash_data] (lines 29-45). The handler logs and re-raises. *)
Definition hash_data (self : t) (data : bytes) : outcome string :=
  match hash_func self tt with
  | Raise e => Raise e
  | Ok hash_obj => Ok (hexdigest (hash_update hash_obj data))
  end.

(** [hash_file] (lines 47-81), without a progress callback. *)
Definition hash_file (self : t) (file_path : string) (chunk_size : nat) : M string :=
  let* hash_obj := lift (hash_func self tt) in
  let* total_size := getsize file_path in
  exec open_rb file_path in
  let* data := contents file_path in
  let* hash_obj :=
    fold_each (chunks chunk_size data) hash_obj (fun chunk hash_obj =>
      ret (hash_update hash_obj chunk)) in
  ret (hexdigest hash_obj).

End HashFunction.

Module HashAlgorithms.
Section HashAlgorithms.
Context {HL : Hashlib}.

Record t : Type := MkHashAlgorithms { algorithms : gmap string HashFunction.t }.

(** [register_algorithm] (lines 161-171). *)
Definition register_algorithm (self : t) (name : string)
    (hash_func : unit → outcome hash_obj) (description : string) : t :=
  MkHashAlgorithms
    (<[name := HashFunction.MkHashFunction name hash_func description]>
       (algorithms self)).

(** [_register_algorithms] (lines 91-159). *)
Definition _register_algorithms (self : t) : t :=
  let self := register_algorithm self "MD5" (hash_constructor hashlib_md5)
    "消息摘要算法5，输出128位哈希值，不推荐用于安全用途" in
  let self := register_algorithm self "SHA1" (hash_constructor hashlib_sha1)
    "安全哈希算法1，输出160位哈希值，不推荐用于安全用途" in
  let self := register_algorithm self "SHA256" (hash_constructor hashlib_sha256)
    "安全哈希算法2，输出256位哈希值，SHA-2家族成员" in
  let self := register_algorithm self "SHA384" (hash_constructor hashlib_sha384)
    "安全哈希算法2，输出384位哈希值，SHA-2家族成员" in
  let self := register_algorithm self "SHA512" (hash_constructor hashlib_sha512)
    "安全哈希算法2，输出512位哈希值，SHA-2家族成员" in
  let self :=
    if hashlib_has_sha3 then
      let self := register_algorithm self "SHA3-256" (hash_constructor hashlib_sha3_256)
        "安全哈希算法3，输出256位哈希值，SHA-3家族成员" in
      let self := register_algorithm self "SHA3-384" (hash_constructor hashlib_sha3_384)
        "安全哈希算法3，输出384位哈希值，SHA-3家族成员" in
      register_algorithm self "SHA3-512" (hash_constructor hashlib_sha3_512)
        "安全哈希算法3，输出512位哈希值，SHA-3家族成员"
    else self in
  let self :=
    if hashlib_has_blake2 then
      let self := register_algorithm self "BLAKE2b" (hash_constructor hashlib_blake2b)
        "BLAKE2b哈希函数，默认输出512位哈希值，高性能加密哈希函数" in
      register_algorithm self "BLAKE2s" (hash_constructor hashlib_blake2s)
        "BLAKE2s哈希函数，默认输出256位哈希值，为32位平台优化的BLAKE2版本"
    else self in
  self.

(** [HashAlgorithms.__init__] (lines 86-89). *)
Definition init : t := _register_algorithms (MkHashAlgorithms ∅).

(** [get_algorithm] (lines 173-189). *)
Definition get_algorithm (self : t) (name : string) : outcome HashFunction.t :=
  match algorithms self !! name with
  | None => Raise ValueError
  | Some h => Ok h
  end.

(** [get_all_algorithms] (lines 191-198): a copy of the map. *)
Definition get_all_algorithms (self : t) : gmap string HashFunction.t :=
  algorithms self.

(** [verify_file_hash] (lines 200-224), without a progress callback. *)
Definition verify_file_hash (self : t) (file_path expected_hash : string)
    (algorithm_name : string) (chunk_size : nat) : M bool :=
  try_except
    (let* algorithm := lift (get_algorithm self algorithm_name) in
     let* actual_hash := HashFunction.hash_file algorithm file_path chunk_size in
     ret (String.eqb (lower actual_hash) (lower expected_hash)))
    (fun _ => ret false).

(** The module-level instance [hash_algorithms]. *)
Definition hash_algorithms : t := init.

End HashAlgorithms.
End HashAlgorithms.

(* ===================================================================== *)
(** ** [file_utils.py]                                                   *)
(* ===================================================================== *)

Module FileUtils.

(** [get_file_size] (lines 15-31). *)
Definition get_file_size (file_path : string) : M nat :=
  try_except
    (let* ex := path_exists file_path in
     let* isf := isfile file_path in
     if ex && isf then getsize file_path else ret 0)
    (fun _ => ret 0).

(** [f.fileno()] on a file object that its [with] block has closed:
    [ValueError] (I/O operation on closed file). *)
Definition fileno_closed : M nat := raise ValueError.

(** [os.fsync(fd)]. *)
Definition fsync (fd : nat) : M unit := ret tt.

(** [secure_delete] (lines 69-110). Line 102 calls [f.fileno()] after
    the [with] block of lines 90-99 has closed [f]. *)
Definition secure_delete (file_path : string) (passes : nat) : M bool :=
  let* isf := isfile file_path in
  if negb isf then ret false
  else
    try_except
      (let* file_size := getsize file_path in
       exec for_each (seq 0 passes) (fun i =>
              exec open_wb file_path in
              exec (if i =? 0 then write file_path (replicate file_size x00)
                    else if i =? 1 then write file_path (replicate file_size xff)
                    else let* r := urandom file_size in write file_path r) in
              let* fd := fileno_closed in
              fsync fd) in
       exec remove file_path in
       ret true)
      (fun _ => ret false).

End FileUtils.

(* ===================================================================== *)
(** ** [cli/__init__.py]                                                 *)
(* ===================================================================== *)

(** What the functions print and log is left out. *)
Module Cli.
Section Cli.
Context {BC : BlockCipher} {AE : AEAD} {CD : Codec} {R : RSA} {KW : KeyWrap}.

(** The module-level instance [key_manager] of key_manager.py. *)
Variable key_manager : KeyManager.t.

(** The namespace [argparse] returns; an option that was not given is
    [None]. *)
Record args : Type := MkArgs {
  command : option string;
  key_command : option string;
  file : string;
  output : option string;
  key : option string;
  algorithm : string;
  delete : bool;
  name : string;
  password : option string;
}.

(** Lines 133-136. *)
Definition encrypt_output (a : args) : string :=
  if truthy_str (output a) then default EmptyString (output a)
  else file a +:+ ".enc".

(** Lines 224-232. *)
Definition decrypt_output (a : args) : string :=
  if truthy_str (output a) then default EmptyString (output a)
  else if KeyManager.endswith (file a) ".enc" then drop_last 4 (file a)
  else file a +:+ ".dec".

(** The ciphers take byte strings for [key] and [iv]. A value of
    another type, which only a record edited by hand can hold, makes the
    cipher raise [TypeError] somewhere inside; here it is raised at the
    call. *)
Definition bytes_arg (v : pyval) : outcome bytes :=
  match v with
  | VBytes x => Ok x
  | _ => Raise OtherError
  end.

(** [kwargs = {}; kwargs['iv'] = iv]. *)
Definition iv_kwargs (iv : option pyval) : outcome kwargs :=
  match iv with
  | None => Ok no_kwargs
  | Some v =>
      match bytes_arg v with
      | Ok x => Ok (RSACipher.with_iv x)
      | Raise e => Raise e
      end
  end.

(** Lines 187-194 and 275-282. *)
Definition remove_original (a : args) (input_file : string) : M unit :=
  if delete a then try_except (remove input_file) (fun _ => ret tt)
  else ret tt.

(** [encrypt_file] (lines 114-202). [create_algorithm] is called outside
    the [try]; a cipher object is always true, so line 141 never
    returns. *)
Definition encrypt_file (a : args) : M bool :=
  let input_file := file a in
  let* ex := path_exists input_file in
  if negb ex then ret false
  else
    let output_file := encrypt_output a in
    let* crypto :=
      lift (CryptoFactory.create_algorithm CryptoFactory.crypto_factory
              (algorithm a)) in
    try_except
      (let* found :=
         if truthy_str (key a) then
           let* key_data :=
             KeyManager.load_key key_manager (default EmptyString (key a)) None in
           match key_data with
           | None | Some [] => ret None
           | Some key_data =>
               match dict_get key_data "key" with
               | Some key => ret (Some (key, dict_get key_data "iv"))
               | None => ret None
               end
           end
         else
           let* key_data := CryptoBase.generate_key crypto no_kwargs in
           let* key := lift (dict_item key_data "key") in
           let iv := dict_get key_data "iv" in
           let key_name := "temp_" +:+ basename input_file in
           let* _ := KeyManager.save_key key_manager key_data key_name None in
           ret (Some (key, iv)) in
       match found with
       | None => ret false
       | Some (key, iv) =>
           let* kwargs :=
             lift (if truthy_val iv then iv_kwargs iv else Ok no_kwargs) in
           let* key := lift (bytes_arg key) in
           let* success :=
             CryptoBase.encrypt_file_m crypto input_file output_file key
               CryptoBase.default_chunk_size kwargs in
           exec (if success then remove_original a input_file else ret tt) in
           ret success
       end)
      (fun _ => ret false).

(** Lines 246-247: the cipher the record names. A dictionary cannot be
    looked up in [algorithms] ([TypeError]); any other value that is not
    a registered name is not found. *)
Definition algorithm_of (key_data : dict) : outcome CryptoBase.t :=
  match default (VStr "AES-256-CBC") (dict_get key_data "algorithm") with
  | VStr algorithm =>
      CryptoFactory.create_algorithm CryptoFactory.crypto_factory algorithm
  | VDict _ => Raise OtherError
  | _ => Raise ValueError
  end.

(** [decrypt_file] (lines 205-290). *)
Definition decrypt_file (a : args) : M bool :=
  let input_file := file a in
  let* ex := path_exists input_file in
  if negb ex then ret false
  else
    let output_file := decrypt_output a in
    if negb (truthy_str (key a)) then ret false
    else
      let* key_data :=
        KeyManager.load_key key_manager (default EmptyString (key a)) None in
      match key_data with
      | None | Some [] => ret false
      | Some key_data =>
          let* crypto := lift (algorithm_of key_data) in
          try_except
            (match dict_get key_data "key" with
             | None => ret false
             | Some key =>
                 let* kwargs := lift (iv_kwargs (dict_get key_data "iv")) in
                 let* key := lift (bytes_arg key) in
                 let* success :=
                   CryptoBase.decrypt_file_m crypto input_file output_file key
                     CryptoBase.default_chunk_size kwargs in
                 exec (if success then remove_original a input_file
                       else ret tt) in
                 ret success
             end)
            (fun _ => ret false)
      end.

(** [generate_key] (lines 293-334). *)
Definition generate_key (a : args) : M bool :=
  try_except
    (let* crypto :=
       lift (CryptoFactory.create_algorithm CryptoFactory.crypto_factory
               (algorithm a)) in
     let* key_data := CryptoBase.generate_key crypto no_kwargs in
     let* key_file :=
       KeyManager.save_key key_manager key_data (name a) (password a) in
     ret true)
    (fun _ => ret false).

(** [list_keys] (lines 337-364): the table is printed. *)
Definition list_keys : M unit :=
  try_except
    (let* keys := KeyManager.list_keys key_manager in ret tt)
    (fun _ => ret tt).

(** [delete_key] (lines 367-404). *)
Definition delete_key (a : args) : M bool :=
  try_except
    (let* keys := KeyManager.list_keys key_manager in
     if negb (bool_decide (is_Some (keys !! name a))) then ret false
     else KeyManager.delete_key key_manager (name a))
    (fun _ => ret false).

(** [main] (lines 15-111) from line 69 on, with the exit status as its
    result. [parsed] says that [main] built the parsers itself
    ([args=None]); otherwise [key_parser] is unbound at line 88. *)
Definition main (a : args) (parsed : bool) : M nat :=
  let command := default EmptyString (command a) in
  let key_command := default EmptyString (key_command a) in
  try_except
    (if String.eqb command EmptyString then ret 0
     else if String.eqb command "encrypt" then
       let* success := encrypt_file a in
       ret (if success then 0 else 1)
     else if String.eqb command "decrypt" then
       let* success := decrypt_file a in
       ret (if success then 0 else 1)
     else if String.eqb command "key" then
       if String.eqb key_command EmptyString then
         if parsed then ret 0 else raise OtherError
       else if String.eqb key_command "generate" then
         let* success := generate_key a in
         ret (if success then 0 else 1)
       else if String.eqb key_command "list" then
         exec list_keys in ret 0
       else if String.eqb key_command "delete" then
         let* success := delete_key a in
         ret (if success then 0 else 1)
       else ret 0
     else ret 0)
    (fun _ => ret 1).

End Cli.
End Cli.

(* ===================================================================== *)
(** ** Reference instances of the library interfaces                     *)
(* ===================================================================== *)

(** Small executable instances, used to run the model on concrete inputs
    and to show that the contracts assumed of the libraries can be met. *)
Module Toy.

Definition checksum (l : bytes) : byte := foldr byte_xor x00 l.

(** A block cipher: exclusive or with the first 16 key bytes. *)
Definition block : BlockCipher := {|
  block_encrypt key x := xor_bytes x (take 16 key);
  block_decrypt key x := xor_bytes x (take 16 key);
|}.

(** An AEAD: a one-byte pad, and a 16-byte tag carrying the checksum of
    key, nonce, ciphertext and associated data. *)
Definition tag (key nonce ct : bytes) (ad : option bytes) : bytes :=
  checksum (key ++ nonce ++ ct ++ default [] ad) :: replicate 15 x00.

Definition aead : AEAD := {|
  aead_encrypt key nonce data ad :=
    let ct := map (byte_xor (checksum key)) data in
    ct ++ tag key nonce ct ad;
  aead_decrypt key nonce data ad :=
    let ct := take (length data - 16) data in
    if (16 <=? length data)
       && bytes_eqb (drop (length data - 16) data) (tag key nonce ct ad)
    then Ok (map (byte_xor (checksum key)) ct)
    else Raise InvalidTag;
|}.

(** RSA: a key is a string as long as its modulus; a message is laid
    out as zero bytes, a one byte, and the message. *)
Fixpoint strip_envelope (c : bytes) : outcome bytes :=
  match c with
  | x00 :: rest => strip_envelope rest
  | x01 :: rest => Ok rest
  | _ => Raise ValueError
  end.

Definition load_pem (pem : bytes) : outcome bytes :=
  match pem with
  | x2d :: k => Ok k
  | _ => Raise ValueError
  end.

Definition rsa : RSA := {|
  rsa_generate bits seed := replicate (bits / 8) x01;
  rsa_public_key priv := priv;
  rsa_modulus_bytes pub := length pub;
  rsa_private_pem priv pw := x2d :: priv;
  rsa_public_pem pub := x2d :: pub;
  load_pem_private_key pem pw := load_pem pem;
  load_pem_public_key pem := load_pem pem;
  oaep_encrypt pub seed data :=
    if length data + 66 <=? length pub
    then Ok (replicate (length pub - 1 - length data) x00 ++ x01 :: data)
    else Raise ValueError;
  oaep_decrypt priv c :=
    if length c =? length priv then strip_envelope c else Raise ValueError;
|}.

(** Natural numbers in unary. *)
Fixpoint unary (n : nat) : string :=
  match n with
  | 0 => "0"
  | S n' => String "1" (unary n')
  end.

Definition write_str (s : string) : string := unary (String.length s) +:+ s.

(** A prefix-free text format for the values [json] can write. *)
Fixpoint write_entries (wr : pyval → option string) (d : dict) : option string :=
  match d with
  | [] => Some "}"
  | (k, v) :: rest =>
      match wr v, write_entries wr rest with
      | Some sv, Some sr => Some ("," +:+ write_str k +:+ sv +:+ sr)
      | _, _ => None
      end
  end.

Fixpoint write_val (v : pyval) : option string :=
  match v with
  | VNone => Some "n"
  | VBool true => Some "t"
  | VBool false => Some "f"
  | VInt z => Some ((if (z <? 0)%Z then "-" else "+") +:+ unary (Z.abs_nat z))
  | VStr s => Some ("s" +:+ write_str s)
  | VDict d =>
      match write_entries write_val d with
      | Some body => Some ("{" +:+ body)
      | None => None
      end
  | VBytes _ | VObj _ => None
  end.

(** Nesting depth of a value. *)
Fixpoint depth (v : pyval) : nat :=
  match v with
  | VDict d => S (foldr (fun kv acc => depth kv.2 `max` acc) 0 d)
  | _ => 0
  end.

Fixpoint read_unary (s : string) : option (nat * string) :=
  match s with
  | String "0" rest => Some (0, rest)
  | String "1" rest =>
      match read_unary rest with
      | Some (n, rest') => Some (S n, rest')
      | None => None
      end
  | _ => None
  end.

Fixpoint take_str (n : nat) (s : string) : option (string * string) :=
  match n, s with
  | 0, _ => Some (EmptyString, s)
  | S n', String c rest =>
      match take_str n' rest with
      | Some (a, r) => Some (String c a, r)
      | None => None
      end
  | S _, EmptyString => None
  end.

Definition read_str (s : string) : option (string * string) :=
  match read_unary s with
  | Some (n, rest) => take_str n rest
  | None => None
  end.

(** One entry list, given the reader [rd] of a value. *)
Fixpoint read_entries (rd : string → option (pyval * string))
    (count : nat) (s : string) : option (dict * string) :=
  match count with
  | 0 => None
  | S count' =>
      match s with
      | String "}" rest => Some ([], rest)
      | String "," rest =>
          match read_str rest with
          | Some (k, r1) =>
              match rd r1 with
              | Some (v, r2) =>
                  match read_entries rd count' r2 with
                  | Some (d, r3) => Some ((k, v) :: d, r3)
                  | None => None
                  end
              | None => None
              end
          | None => None
          end
      | _ => None
      end
  end.

Fixpoint read_val (fuel : nat) (s : string) : option (pyval * string) :=
  match fuel with
  | 0 => None
  | S fuel' =>
      match s with
      | String "n" rest => Some (VNone, rest)
      | String "t" rest => Some (VBool true, rest)
      | String "f" rest => Some (VBool false, rest)
      | String "+" rest =>
          match read_unary rest with
          | Some (n, r) => Some (VInt (Z.of_nat n), r)
          | None => None
          end
      | String "-" rest =>
          match read_unary rest with
          | Some (n, r) => Some (VInt (- Z.of_nat n), r)
          | None => None
          end
      | String "s" rest =>
          match read_str rest with
          | Some (x, r) => Some (VStr x, r)
          | None => None
          end
      | String "{" rest =>
          match read_entries (read_val fuel') (String.length s) rest with
          | Some (d, r) => Some (VDict d, r)
          | None => None
          end
      | _ => None
      end
  end.

Definition codec : Codec := {|
  b64encode x := String.string_of_list_byte x;
  b64decode s := Ok (String.list_byte_of_string s);
  urlsafe_b64encode x := x;
  utf8_decode x := Ok (String.string_of_list_byte x);
  json_dumps d indent :=
    match write_val (VDict d) with
    | Some s => Ok s
    | None => Raise OtherError
    end;
  json_loads s :=
    match read_val (S (String.length s)) s with
    | Some (VDict d, EmptyString) => Ok d
    | _ => Raise ValueError
    end;
|}.

(** Key wrapping: a derivation that pads or cuts password and salt to
    the requested length, and tokens that carry the key in clear. *)
Definition keywrap : KeyWrap := {|
  pbkdf2_hmac_sha256 pw salt iters n := take n (pw ++ salt ++ replicate n x00);
  fernet_encrypt key iv msg :=
    if length key =? 32 then Ok (key ++ msg) else Raise ValueError;
  fernet_decrypt key tok :=
    if (length key =? 32) && bytes_eqb (take 32 tok) key
    then Ok (drop 32 tok)
    else Raise InvalidToken;
|}.

(** A hexadecimal digit, in lower case. *)
Definition hex_digit (n : nat) : ascii :=
  match n with
  | 0 => "0" | 1 => "1" | 2 => "2" | 3 => "3" | 4 => "4" | 5 => "5"
  | 6 => "6" | 7 => "7" | 8 => "8" | 9 => "9" | 10 => "a" | 11 => "b"
  | 12 => "c" | 13 => "d" | 14 => "e" | _ => "f"
  end%char.

Definition hex_byte (x : byte) : string :=
  String (hex_digit (nat_of_byte x / 16))
    (String (hex_digit (nat_of_byte x mod 16)) EmptyString).

(** A two-byte digest: the checksum of the data mixed with [salt], and
    its length modulo 256. *)
Definition digest (salt : byte) (data : bytes) : string :=
  hex_byte (byte_xor salt (checksum data))
  +:+ hex_byte (byte_of_nat (length data mod 256)).

Definition hashlib : Hashlib := {|
  hashlib_md5 := digest x01;
  hashlib_sha1 := digest x02;
  hashlib_sha256 := digest xab;
  hashlib_sha384 := digest x04;
  hashlib_sha512 := digest x05;
  hashlib_sha3_256 := digest x06;
  hashlib_sha3_384 := digest x07;
  hashlib_sha3_512 := digest x08;
  hashlib_blake2b := digest x09;
  hashlib_blake2s := digest x0a;
  hashlib_has_sha3 := true;
  hashlib_has_blake2 := true;
|}.

(** A world with no files whose random bytes count up from zero. *)
Definition world0 : world :=
  MkWorld ∅ (fun i => byte_of_nat (i mod 256)) "2024-01-01T00:00:00".

End Toy.

(* ===================================================================== *)
(** * Vocabulary of the statements                                       *)
(* ===================================================================== *)

(** The names [_register_algorithms] registers. *)
Definition registered_names : list string :=
  [ "AES-128-CBC"; "AES-192-CBC"; "AES-256-CBC";
    "AES-128-CFB"; "AES-192-CFB"; "AES-256-CFB";
    "AES-128-CTR"; "AES-192-CTR"; "AES-256-CTR";
    "RSA-1024"; "RSA-2048"; "RSA-4096";
    "ChaCha20-Poly1305" ].

(** Blocks as [chunks 16] yields them: full blocks, then possibly one
    short block. *)
Inductive wf_blocks : list bytes → Prop :=
  | wf_blocks_nil : wf_blocks []
  | wf_blocks_last b : 0 < length b ≤ 16 → wf_blocks [b]
  | wf_blocks_cons b rest :
      length b = 16 → wf_blocks rest → wf_blocks (b :: rest).

Definition cipher_ok (c : cipher) : Prop :=
  aes_key_ok (c_key c) ∧ length (mode_iv (c_mode c)) = 16.

Definition is_cbc (m : mode) : bool :=
  match m with CBC _ => true | _ => false end.

(** How a generated key dictionary is handed to [encrypt_data] and
    [decrypt_data]: the [key] entry as the key argument, and the [iv],
    key-object and PEM entries as keyword arguments of the same names. *)
Definition key_of (kd : dict) : bytes :=
  match dict_get kd "key" with Some (VBytes k) => k | _ => [] end.

Definition bytes_entry (kd : dict) (k : string) : option bytes :=
  match dict_get kd k with Some (VBytes x) => Some x | _ => None end.

Definition kwargs_of (kd : dict) : kwargs := {|
  kw_iv := bytes_entry kd "iv";
  kw_associated_data := None;
  kw_public_key :=
    match dict_get kd "public_key" with
    | Some (VObj (RSAPublicKey k)) => Some k
    | _ => None
    end;
  kw_public_pem := bytes_entry kd "public_pem";
  kw_private_key :=
    match dict_get kd "private_key" with
    | Some (VObj (RSAPrivateKey k)) => Some k
    | _ => None
    end;
  kw_private_pem := bytes_entry kd "private_pem";
  kw_passphrase := None;
|}.

Section Created.
Context {BC : BlockCipher} {AE : AEAD} {CD : Codec} {R : RSA}.

(** What [create_algorithm] can return. *)
Inductive created : string → CryptoBase.t → Prop :=
  | created_aes ks m self :
      ks ∈ [128; 192; 256] → m ∈ ["CBC"; "CFB"; "CTR"] →
      AESCipher.init ks m = Ok self →
      created ("AES-" +:+ pretty ks +:+ "-" +:+ m) (AESCipher.as_base self)
  | created_rsa bits self :
      bits ∈ [1024; 2048; 4096] →
      RSACipher.init bits = Ok self →
      created ("RSA-" +:+ pretty bits) (RSACipher.as_base self)
  | created_chacha :
      created "ChaCha20-Poly1305" (ChaCha20Cipher.as_base ChaCha20Cipher.init).

End Created.

(** The world [w] with its files replaced by [m]. *)
Definition wfs (m : gmap string bytes) (w : world) : world :=
  MkWorld m (rng w) (now w).

(** What the chunk loop leaves in the output file: the transformed
    chunks up to the first one that raises, and that exception. *)
Fixpoint run_chunks (f : bytes → outcome bytes) (cs : list bytes)
    (acc : bytes) : outcome unit * bytes :=
  match cs with
  | [] => (Ok tt, acc)
  | c :: rest =>
      match f c with
      | Ok x => run_chunks f rest (acc ++ x)
      | Raise e => (Raise e, acc)
      end
  end.

(** One call of [encrypt_data] in CBC mode: pad, then chain from [iv]. *)
Definition cbc_chunk {BC : BlockCipher} (key iv chunk : bytes) : bytes :=
  concat (cbc_encrypt_blocks key iv (chunks 16 (pkcs7_pad chunk))).

(** The AES cipher of the envelope scheme (rsa.py 282). *)
Definition aes256 : AESCipher.t :=
  AESCipher.MkAES "AES-256-CBC" 256 "CBC" 128.

Section StoredRecords.
Context {CD : Codec} {KW : KeyWrap}.

Import KeyManager.

(** The record [save_key] serialises (lines 82-95). *)
Definition save_record (key_data : dict) (key_name created : string) : dict :=
  save_fields
    [ ("name", VStr key_name);
      ("algorithm", default (VStr "unknown") (dict_get key_data "algorithm"));
      ("created_at", default (VStr created) (dict_get key_data "created_at")) ]
    key_data.

(** The key the password and the salt derive (lines 54-61). *)
Definition derived_key (password : string) (salt : bytes) : bytes :=
  urlsafe_b64encode (pbkdf2_hmac_sha256 (blit password) salt kdf_iterations 32).

(** What a stored file holds after [save_key] with and without a
    password. *)
Definition stored (key_data : dict) (key_name created : string)
    (password : option string) (content : bytes) : Prop :=
  if truthy_str password then
    ∃ salt iv text tok,
      length salt = 16
      ∧ json_dumps (save_record key_data key_name created) None = Ok text
      ∧ fernet_encrypt (derived_key (default EmptyString password) salt) iv
          (blit text) = Ok tok
      ∧ content = blit "ENCRYPTED:" ++ salt ++ tok
  else
    ∃ text,
      json_dumps (save_record key_data key_name created) (Some 2) = Ok text
      ∧ content = blit text.

(** The test of line 170 of [load_key]. *)
Definition is_b64_field (key : string) : bool :=
  endswith key "_b64"
  || bool_decide (key ∈ ["key"; "iv"; "private_pem"; "public_pem"]).

(** The dictionaries [generate_key] returns (aes.py 52-60, rsa.py
    78-85). *)
Definition aes_key_dict (name mode : string) (key_size : nat) (key iv : bytes) : dict :=
  [ ("key", VBytes key); ("iv", VBytes iv);
    ("key_b64", VStr (b64encode key)); ("iv_b64", VStr (b64encode iv));
    ("algorithm", VStr name); ("key_size", VInt (Z.of_nat key_size));
    ("mode", VStr mode) ].

Definition rsa_key_dict (name : string) (key_size : nat)
    (private_key public_key private_pem public_pem : bytes) : dict :=
  [ ("private_key", VObj (RSAPrivateKey private_key));
    ("public_key", VObj (RSAPublicKey public_key));
    ("private_pem", VBytes private_pem); ("public_pem", VBytes public_pem);
    ("algorithm", VStr name); ("key_size", VInt (Z.of_nat key_size)) ].

End StoredRecords.

Section ListedRecords.
Context {CD : Codec} {KW : KeyWrap}.

Import KeyManager.

(** The names [os.listdir] finds in [d]. *)
Definition dir_entries (d : string) (w : world) : list string :=
  remove_dups (omap (entry_of d) (map_to_list (fs w)).*1).

(** Whether the file starts with the marker of a protected record, and
    the [algorithm] entry of an unprotected one, as [list_keys] reads
    them (lines 204-220). *)
Definition is_encrypted_file (w : world) (key_file : string) : bool :=
  match fs w !! key_file with
  | Some data => bytes_eqb (take 10 data) (blit "ENCRYPTED:")
  | None => false
  end.

Definition algorithm_in_file (w : world) (key_file : string) : pyval :=
  match fs w !! key_file with
  | Some data =>
      match utf8_decode data with
      | Ok text =>
          match json_loads text with
          | Ok key_data => default (VStr "unknown") (dict_get key_data "algorithm")
          | Raise _ => VStr "unknown"
          end
      | Raise _ => VStr "unknown"
      end
  | None => VStr "unknown"
  end.

(** The entry [list_keys] makes for the record named [key_name]. *)
Definition listed_info (self : KeyManager.t) (w : world) (key_name : string)
    : key_info :=
  let key_file := key_path self key_name in
  MkKeyInfo key_name key_file (is_encrypted_file w key_file)
    (if is_encrypted_file w key_file then VStr "encrypted"
     else algorithm_in_file w key_file).

End ListedRecords.

(* ===================================================================== *)
(** * Concrete inputs on the reference instances                         *)
(* ===================================================================== *)

Abbreviation toy_factory :=
  (CryptoFactory.crypto_factory
     (BC := Toy.block) (AE := Toy.aead) (CD := Toy.codec) (R := Toy.rsa)).

Module Example.

Definition key32 : bytes := replicate 32 x2a.
Definition iv16 : bytes := replicate 16 x07.

(** A world whose only file, [plain.bin], holds [data]. *)
Definition world_with (data : bytes) : world :=
  wfs {[ "plain.bin" := data ]} Toy.world0.

End Example.

Module EnvelopeExample.

Definition rsa2048 : RSACipher.t := RSACipher.MkRSA "RSA-2048" 2048.
Definition priv : bytes := rsa_generate (RSA := Toy.rsa) 2048 [].
Definition kw : kwargs :=
  MkKwargs None None (Some (rsa_public_key (RSA := Toy.rsa) priv)) None
           (Some priv) None None.

End EnvelopeExample.

Module TamperExample.

Definition ciphertext : bytes :=
  match (ChaCha20Cipher.encrypt_data (AE := Toy.aead) ChaCha20Cipher.init
           [x01; x02; x03] Example.key32 no_kwargs Toy.world0).1 with
  | Ok c => c
  | Raise _ => []
  end.

End TamperExample.

Module KeyExample.

Definition km : KeyManager.t := KeyManager.MkKeyManager "keys".

(** An AES-256-CBC key dictionary, as [generate_key] makes it. *)
Definition aes_key : dict :=
  match (AESCipher.generate_key (CD := Toy.codec) aes256 no_kwargs
           Toy.world0).1 with
  | Ok d => d
  | Raise _ => []
  end.

Definition save (key_name : string) (password : option string) :=
  KeyManager.save_key (CD := Toy.codec) (KW := Toy.keywrap) km aes_key
    key_name password Toy.world0.

End KeyExample.

(** A protected record saved on the reference instances. *)
Definition saved_k1 : outcome string * world :=
  KeyManager.save_key (CD := Toy.codec) (KW := Toy.keywrap) KeyExample.km
    (aes_key_dict (CD := Toy.codec) "AES-256-CBC" "CBC" 256
       Example.key32 Example.iv16)
    "k1" (Some "secret") Toy.world0.

Module FileExample.

Definition aes256_ctr : AESCipher.t :=
  AESCipher.MkAES "AES-256-CTR" 256 "CTR" 128.

End FileExample.

Module CliExample.

(** [encrypt FILE -a ALGORITHM [-k KEY] [-d]]. *)
Definition encrypt_args (file algorithm : string) (key : option string)
    (delete : bool) : Cli.args :=
  Cli.MkArgs (Some "encrypt") None file None key algorithm delete
    EmptyString None.

(** [decrypt FILE -k KEY]. *)
Definition decrypt_args (file : string) (key : option string) : Cli.args :=
  Cli.MkArgs (Some "decrypt") None file None key EmptyString false
    EmptyString None.

(** [key generate NAME -a ALGORITHM [-p PASSWORD]]. *)
Definition generate_args (name algorithm : string) (password : option string)
    : Cli.args :=
  Cli.MkArgs (Some "key") (Some "generate") EmptyString None None algorithm
    false name password.

(** The world after [key generate] on the reference instances. *)
Definition generated (g : Cli.args) (w : world) : world :=
  (Cli.generate_key (BC := Toy.block) (AE := Toy.aead) (CD := Toy.codec)
     (R := Toy.rsa) (KW := Toy.keywrap) KeyExample.km g w).2.

End CliExample.

(* ===================================================================== *)
(** * Properties                                                         *)
(* ===================================================================== *)

(* ===================================================================== *)
(** ** The cipher registry                                               *)
(* ===================================================================== *)

Section RegistryFacts.
Context {BC : BlockCipher} {AE : AEAD} {CD : Codec} {R : RSA}.

Import CryptoFactory.

Lemma registry_domain :
  dom (algorithms crypto_factory) = list_to_set registered_names.
Proof.
  unfold crypto_factory, init, _register_algorithms, register_algorithm.
  cbn [algorithms registered_names list_to_set].
  rewrite !dom_insert_L, dom_empty_L. set_solver.
Qed.

Lemma create_algorithm_unregistered (name : string) :
  name ∉ registered_names →
  create_algorithm crypto_factory name = Raise ValueError.
Proof.
  intros Hn. unfold create_algorithm.
  destruct (algorithms crypto_factory !! name) as [f|] eqn:E; [|done].
  exfalso. apply Hn.
  assert (name ∈ dom (algorithms crypto_factory)) as Hd
    by (apply elem_of_dom; eauto).
  rewrite registry_domain in Hd. by apply elem_of_list_to_set in Hd.
Qed.

(** C10. For every key size [s] in 128, 192, 256 the registry's
    [create_algorithm] raises [ValueError] (unsupported algorithm) for the
    name AES-s-OFB, although [AESCipher(key_size=s, mode='OFB')] itself
    constructs; the registered names are exactly the nine AES
    CBC/CFB/CTR variants, RSA-1024/2048/4096 and ChaCha20-Poly1305. *)
Theorem registry_has_no_ofb :
  (∀ s : nat, s ∈ [128; 192; 256] →
     create_algorithm crypto_factory ("AES-" +:+ pretty s +:+ "-OFB")
       = Raise ValueError
     ∧ is_ok (AESCipher.init s "OFB") = true)
  ∧ (∀ name, is_Some (algorithms crypto_factory !! name)
             ↔ name ∈ registered_names).
Proof.
  split.
  - intros s Hs.
    rewrite !elem_of_cons, elem_of_nil in Hs.
    destruct Hs as [-> | [-> | [-> | []]]].
    all: split; [apply create_algorithm_unregistered; vm_compute | vm_compute; reflexivity].
    all: set_unfold; intros H; repeat destruct H as [H|H]; try discriminate H; done.
  - intros name. rewrite <- elem_of_dom, registry_domain.
    apply elem_of_list_to_set.
Qed.

End RegistryFacts.

Lemma registry_has_no_ofb_witness :
  192 ∈ [128; 192; 256]
  ∧ CryptoFactory.create_algorithm
      (CryptoFactory.crypto_factory
         (BC := Toy.block) (AE := Toy.aead) (CD := Toy.codec) (R := Toy.rsa))
      "AES-192-OFB" = Raise ValueError.
Proof.
  assert (192 ∈ [128; 192; 256]) as H by (apply list_elem_of_In; simpl; lia).
  split; [exact H|].
  exact (proj1 (proj1 (registry_has_no_ofb (BC := Toy.block) (AE := Toy.aead)
                         (CD := Toy.codec) (R := Toy.rsa)) 192 H)).
Defined.

(* ===================================================================== *)
(** ** Bytes, chunks and padding                                         *)
(* ===================================================================== *)

Section ByteFacts.

Lemma xorb_cancel_r (x y : bool) : xorb (xorb x y) y = x.
Proof. by destruct x, y. Qed.

Lemma byte_xor_involutive (x y : byte) : byte_xor (byte_xor x y) y = x.
Proof.
  unfold byte_xor.
  rewrite <- (Byte.of_bits_to_bits x) at 2.
  destruct (Byte.to_bits x) as (x0&x1&x2&x3&x4&x5&x6&x7).
  destruct (Byte.to_bits y) as (y0&y1&y2&y3&y4&y5&y6&y7).
  rewrite Byte.to_bits_of_bits.
  by rewrite !xorb_cancel_r.
Qed.

Lemma byte_xor_comm (x y : byte) : byte_xor x y = byte_xor y x.
Proof.
  unfold byte_xor.
  destruct (Byte.to_bits x) as (x0&x1&x2&x3&x4&x5&x6&x7).
  destruct (Byte.to_bits y) as (y0&y1&y2&y3&y4&y5&y6&y7).
  by rewrite (xorb_comm x0), (xorb_comm x1), (xorb_comm x2), (xorb_comm x3),
    (xorb_comm x4), (xorb_comm x5), (xorb_comm x6), (xorb_comm x7).
Qed.

Lemma xor_bytes_length (x y : bytes) :
  length (xor_bytes x y) = length x `min` length y.
Proof. apply length_zip_with. Qed.

Lemma xor_bytes_involutive (x y : bytes) :
  length x ≤ length y → xor_bytes (xor_bytes x y) y = x.
Proof.
  unfold xor_bytes. revert y.
  induction x as [|a x IH]; intros [|c y] Hl; simpl in *; try done; [lia|].
  rewrite byte_xor_involutive, IH; [done|lia].
Qed.

Lemma nat_of_byte_of_nat (n : nat) :
  n < 256 → nat_of_byte (byte_of_nat n) = n.
Proof.
  intros Hn. unfold nat_of_byte, byte_of_nat.
  destruct (Byte.of_nat n) as [x|] eqn:E.
  - by apply Byte.to_of_nat.
  - apply Byte.of_nat_None_iff in E. lia.
Qed.

Lemma byte_eqb_eq (x y : byte) : byte_eqb x y = true ↔ x = y.
Proof. split; [apply Byte.byte_dec_bl | apply Byte.byte_dec_lb]. Qed.

Lemma byte_eqb_refl (x : byte) : byte_eqb x x = true.
Proof. by apply byte_eqb_eq. Qed.

Lemma bytes_eqb_eq (x y : bytes) : bytes_eqb x y = true ↔ x = y.
Proof.
  revert y. induction x as [|a x IH]; intros [|c y]; simpl; try done.
  rewrite andb_true_iff, byte_eqb_eq, IH. split; [by intros [-> ->]|].
  by intros [= -> ->].
Qed.

Lemma bytes_eqb_refl (x : bytes) : bytes_eqb x x = true.
Proof. by apply bytes_eqb_eq. Qed.

Lemma startswith_app (p rest : bytes) : startswith (p ++ rest) p = true.
Proof.
  unfold startswith. rewrite take_app_length. apply bytes_eqb_refl.
Qed.

(** *** The chunk loop *)

Lemma chunks_fuel_enough (fuel n : nat) (data : bytes) :
  length data ≤ fuel → chunks_fuel fuel n data = chunks n data.
Proof.
  unfold chunks. remember (length data) as m eqn:Hm.
  revert fuel data Hm.
  induction m as [m IH] using lt_wf_ind; intros fuel data -> Hf.
  destruct data as [|a data]; [by destruct fuel, n|].
  destruct fuel as [|fuel]; [simpl in Hf; lia|].
  simpl length. cbn [chunks_fuel].
  destruct n as [|n]; [done|].
  cbn [take]. f_equal.
  set (rest := drop (S n) (a :: data)).
  assert (length rest < length (a :: data)) as Hlt
    by (unfold rest; rewrite length_drop; simpl; lia).
  simpl in Hlt, Hf.
  rewrite (IH (length rest) Hlt fuel rest eq_refl) by lia.
  rewrite (IH (length rest) Hlt (length data) rest eq_refl) by lia.
  done.
Qed.

Lemma chunks_nil (n : nat) : chunks n [] = [].
Proof. done. Qed.

Lemma chunks_zero (data : bytes) : chunks 0 data = [].
Proof. by destruct data. Qed.

(** The loop's unfolding: a first chunk of [n] bytes (fewer at the end of
    the file), then the rest. *)
Lemma chunks_step (n : nat) (data : bytes) :
  0 < n → data ≠ [] →
  chunks n data = take n data :: chunks n (drop n data).
Proof.
  intros Hn Hd. destruct data as [|a data]; [done|].
  destruct n as [|n]; [lia|].
  unfold chunks at 1. simpl length. cbn [chunks_fuel take]. f_equal.
  apply chunks_fuel_enough. rewrite length_drop. simpl. lia.
Qed.

Lemma chunks_app (n : nat) (c rest : bytes) :
  0 < n → length c = n → chunks n (c ++ rest) = c :: chunks n rest.
Proof.
  intros Hn Hc. rewrite chunks_step; [|done|].
  - rewrite <- Hc at 1 3. by rewrite take_app_length, drop_app_length.
  - destruct c; simpl in *; [lia|done].
Qed.

Lemma chunks_short (n : nat) (data : bytes) :
  data ≠ [] → length data ≤ n → chunks n data = [data].
Proof.
  intros Hd Hl.
  assert (0 < n) by (destruct data; simpl in *; [done|lia]).
  rewrite chunks_step by done.
  rewrite take_ge, drop_ge by done. by rewrite chunks_nil.
Qed.

Lemma chunks_concat (n : nat) (data : bytes) :
  0 < n → concat (chunks n data) = data.
Proof.
  intros Hn. remember (length data) as m eqn:Hm. revert data Hm.
  induction m as [m IH] using lt_wf_ind; intros data ->.
  destruct data as [|a data]; [done|].
  rewrite chunks_step by done. cbn [concat].
  rewrite (IH (length (drop n (a :: data)))); [apply take_drop| |done].
  rewrite length_drop. simpl. lia.
Qed.

Lemma chunks_concat_blocks (n : nat) (blocks : list bytes) :
  0 < n → Forall (fun x => length x = n) blocks →
  chunks n (concat blocks) = blocks.
Proof.
  intros Hn. induction 1 as [|x blocks Hx _ IH]; [done|].
  cbn [concat]. by rewrite chunks_app, IH.
Qed.

Lemma chunks_lengths (n : nat) (data : bytes) :
  0 < n → length data mod n = 0 →
  Forall (fun x => length x = n) (chunks n data).
Proof.
  intros Hn. remember (length data) as m eqn:Hm. revert data Hm.
  induction m as [m IH] using lt_wf_ind; intros data -> Hmod.
  destruct data as [|a data]; [constructor|].
  assert (n ≤ length (a :: data)) as Hle.
  { destruct (decide (n ≤ length (a :: data))) as [|Hgt]; [done|].
    rewrite Nat.mod_small in Hmod by lia. simpl in Hmod. lia. }
  rewrite chunks_step by done. constructor.
  - rewrite length_take. lia.
  - apply (IH (length (drop n (a :: data)))); [|done|].
    + rewrite length_drop. simpl. lia.
    + rewrite length_drop.
      replace (length (a :: data))
        with (length (a :: data) - n + 1 * n) in Hmod at 1 by lia.
      by rewrite Nat.Div0.mod_add in Hmod.
Qed.

End ByteFacts.

Section Padding.

Lemma pkcs7_pad_amount (data : bytes) :
  1 ≤ 16 - length data mod 16 ≤ 16.
Proof. pose proof (Nat.mod_upper_bound (length data) 16). lia. Qed.

Lemma pkcs7_pad_length (data : bytes) :
  length (pkcs7_pad data) = length data + (16 - length data mod 16).
Proof. unfold pkcs7_pad. by rewrite length_app, length_replicate. Qed.

(** Padding always adds between 1 and 16 bytes and ends on a block
    boundary. *)
Lemma pkcs7_pad_aligned (data : bytes) :
  length (pkcs7_pad data) mod 16 = 0.
Proof.
  rewrite pkcs7_pad_length.
  pose proof (Nat.mod_upper_bound (length data) 16).
  rewrite (Nat.div_mod_eq (length data) 16) at 1.
  replace (16 * (length data / 16) + length data mod 16
           + (16 - length data mod 16))
    with (0 + (length data / 16 + 1) * 16) by lia.
  by rewrite Nat.Div0.mod_add.
Qed.

Lemma pkcs7_unpad_pad (data : bytes) :
  pkcs7_unpad (pkcs7_pad data) = Ok data.
Proof.
  pose proof (pkcs7_pad_amount data) as Hn.
  pose proof (pkcs7_pad_aligned data) as Hal.
  pose proof (pkcs7_pad_length data) as Hlen.
  unfold pkcs7_unpad. rewrite Hal. cbn [Nat.eqb negb].
  unfold pkcs7_pad in *.
  remember (16 - length data mod 16) as n eqn:En. clear En.
  assert (last (data ++ replicate n (byte_of_nat n)) = Some (byte_of_nat n)) as ->.
  { destruct n as [|k]; [lia|].
    rewrite replicate_S_end, app_assoc. apply last_snoc. }
  rewrite nat_of_byte_of_nat by lia.
  rewrite Hlen.
  replace (length data + n - n) with (length data) by lia.
  rewrite drop_app_length, take_app_length.
  assert (forallb (byte_eqb (byte_of_nat n)) (replicate n (byte_of_nat n)) = true) as ->.
  { apply forallb_forall. intros x Hx%list_elem_of_In.
    apply elem_of_replicate in Hx as [-> _]. apply byte_eqb_refl. }
  assert ((1 <=? n) = true) as -> by (apply Nat.leb_le; lia).
  assert ((n <=? 16) = true) as -> by (apply Nat.leb_le; lia).
  done.
Qed.

(** A string that does not end in a valid padding is refused. *)
Lemma pkcs7_unpad_bad_last (data : bytes) (x : byte) :
  last data = Some x → ¬ (1 ≤ nat_of_byte x ≤ 16) →
  pkcs7_unpad data = Raise ValueError.
Proof.
  intros Hl Hx. unfold pkcs7_unpad. rewrite Hl.
  destruct (negb _); [done|].
  destruct (1 <=? nat_of_byte x) eqn:E1; [|done].
  destruct (nat_of_byte x <=? 16) eqn:E2; [|done].
  apply Nat.leb_le in E1, E2. lia.
Qed.

Lemma length_concat_uniform (n : nat) (blocks : list bytes) :
  Forall (fun x => length x = n) blocks →
  length (concat blocks) = n * length blocks.
Proof.
  induction 1 as [|x blocks Hx _ IH]; simpl; [lia|].
  rewrite length_app, IH, Hx. lia.
Qed.

End Padding.

(* ===================================================================== *)
(** ** The cipher modes invert                                           *)
(* ===================================================================== *)

Section ModeFacts.
Context {BC : BlockCipher} (BL : BlockCipherLaws BC).

Lemma chunks_wf (data : bytes) : wf_blocks (chunks 16 data).
Proof.
  remember (length data) as m eqn:Hm. revert data Hm.
  induction m as [m IH] using lt_wf_ind; intros data ->.
  destruct data as [|a data]; [constructor|].
  destruct (decide (length (a :: data) ≤ 16)) as [Hs|Hl].
  - rewrite chunks_short by done. constructor. simpl in *. lia.
  - rewrite chunks_step by (done || lia). apply wf_blocks_cons.
    + rewrite length_take. lia.
    + apply (IH (length (drop 16 (a :: data)))); [|done].
      rewrite length_drop. simpl. lia.
Qed.

Lemma chunks_concat_wf (blocks : list bytes) :
  wf_blocks blocks → chunks 16 (concat blocks) = blocks.
Proof.
  induction 1 as [|b Hb|b rest Hb _ IH]; [done| |].
  - cbn [concat]. rewrite app_nil_r. apply chunks_short; [|lia].
    destruct b; simpl in *; [lia|done].
  - cbn [concat]. rewrite chunks_app by (done || lia). by rewrite IH.
Qed.

(** *** CBC *)

Lemma cbc_encrypt_blocks_lengths (key prev : bytes) (blocks : list bytes) :
  aes_key_ok key → length prev = 16 →
  Forall (fun x => length x = 16) blocks →
  Forall (fun x => length x = 16) (cbc_encrypt_blocks key prev blocks).
Proof.
  intros Hk Hp Hb. revert prev Hp.
  induction Hb as [|p blocks Hx _ IH]; intros prev Hp; [constructor|].
  cbn [cbc_encrypt_blocks].
  assert (length (block_encrypt key (xor_bytes p prev)) = 16) as Hc.
  { apply block_encrypt_length; [done|]. rewrite xor_bytes_length. lia. }
  constructor; [done|]. by apply IH.
Qed.

Lemma cbc_blocks_roundtrip (key prev : bytes) (blocks : list bytes) :
  aes_key_ok key → length prev = 16 →
  Forall (fun x => length x = 16) blocks →
  cbc_decrypt_blocks key prev (cbc_encrypt_blocks key prev blocks) = blocks.
Proof.
  intros Hk Hp Hb. revert prev Hp.
  induction Hb as [|p blocks Hx _ IH]; intros prev Hp; [done|].
  cbn [cbc_encrypt_blocks cbc_decrypt_blocks].
  assert (length (xor_bytes p prev) = 16) as Hxl
    by (rewrite xor_bytes_length; lia).
  rewrite block_decrypt_encrypt by done.
  rewrite xor_bytes_involutive by lia.
  f_equal. apply IH. by apply block_encrypt_length.
Qed.

(** Encrypting more blocks only appends: the blocks already produced do
    not change. *)
Lemma cbc_encrypt_blocks_app (key prev : bytes) (xs ys : list bytes) :
  ∃ prev', cbc_encrypt_blocks key prev (xs ++ ys)
           = cbc_encrypt_blocks key prev xs ++ cbc_encrypt_blocks key prev' ys.
Proof.
  revert prev. induction xs as [|x xs IH]; intros prev; [by exists prev|].
  cbn [app cbc_encrypt_blocks].
  destruct (IH (block_encrypt key (xor_bytes x prev))) as [prev' ->].
  by exists prev'.
Qed.

(** *** CFB *)

Lemma cfb_blocks_roundtrip (key prev : bytes) (blocks : list bytes) :
  aes_key_ok key → length prev = 16 → wf_blocks blocks →
  cfb_decrypt_blocks key prev (cfb_encrypt_blocks key prev blocks) = blocks
  ∧ wf_blocks (cfb_encrypt_blocks key prev blocks)
  ∧ length (concat (cfb_encrypt_blocks key prev blocks)) = length (concat blocks).
Proof.
  intros Hk Hp Hb. revert prev Hp.
  induction Hb as [|b Hb|b rest Hb _ IH]; intros prev Hp.
  - split; [done|]. split; [constructor|done].
  - cbn [cfb_encrypt_blocks cfb_decrypt_blocks concat].
    pose proof (block_encrypt_length key prev Hk Hp) as He.
    rewrite xor_bytes_involutive by lia. split; [done|].
    split; [constructor; rewrite xor_bytes_length; lia|].
    rewrite !app_nil_r, xor_bytes_length. lia.
  - cbn [cfb_encrypt_blocks cfb_decrypt_blocks concat].
    pose proof (block_encrypt_length key prev Hk Hp) as He.
    rewrite xor_bytes_involutive by lia.
    assert (length (xor_bytes b (block_encrypt key prev)) = 16) as Hc
      by (rewrite xor_bytes_length; lia).
    destruct (IH _ Hc) as (-> & Hwf & Hlen). split; [done|].
    split; [by apply wf_blocks_cons|].
    rewrite !length_app, Hlen, Hc. lia.
Qed.

(** *** OFB and CTR: exclusive or with a key stream *)

Lemma ofb_stream_lengths (key prev : bytes) (n : nat) :
  aes_key_ok key → length prev = 16 →
  Forall (fun x => length x = 16) (ofb_stream key prev n).
Proof.
  intros Hk. revert prev. induction n as [|n IH]; intros prev Hp; [constructor|].
  cbn [ofb_stream]. pose proof (block_encrypt_length key prev Hk Hp).
  constructor; [done|]. by apply IH.
Qed.

Lemma incr_little_endian_length (l : bytes) :
  length (incr_little_endian l) = length l.
Proof.
  induction l as [|x l IH]; [done|]. simpl.
  destruct (byte_eqb x xff); simpl; by rewrite ?IH.
Qed.

Lemma ctr_incr_length (ctr : bytes) : length (ctr_incr ctr) = length ctr.
Proof.
  unfold ctr_incr. by rewrite length_rev, incr_little_endian_length, length_rev.
Qed.

Lemma ctr_stream_lengths (key ctr : bytes) (n : nat) :
  aes_key_ok key → length ctr = 16 →
  Forall (fun x => length x = 16) (ctr_stream key ctr n).
Proof.
  intros Hk. revert ctr. induction n as [|n IH]; intros ctr Hc; [constructor|].
  cbn [ctr_stream]. pose proof (block_encrypt_length key ctr Hk Hc).
  constructor; [done|]. apply IH. by rewrite ctr_incr_length.
Qed.

Lemma nblocks_enough (data : bytes) : length data ≤ 16 * nblocks data.
Proof.
  unfold nblocks.
  pose proof (Nat.div_mod_eq (length data + 15) 16).
  pose proof (Nat.mod_upper_bound (length data + 15) 16). lia.
Qed.

Lemma stream_xor_roundtrip (data : bytes) (stream : list bytes) :
  Forall (fun x => length x = 16) stream → length stream = nblocks data →
  xor_bytes (xor_bytes data (concat stream)) (concat stream) = data.
Proof.
  intros Hs Hn. apply xor_bytes_involutive.
  rewrite (length_concat_uniform 16) by done. rewrite Hn. apply nblocks_enough.
Qed.

Lemma stream_xor_length (data : bytes) (stream : list bytes) :
  Forall (fun x => length x = 16) stream → length stream = nblocks data →
  length (xor_bytes data (concat stream)) = length data.
Proof.
  intros Hs Hn. rewrite xor_bytes_length, (length_concat_uniform 16) by done.
  rewrite Hn. pose proof (nblocks_enough data). lia.
Qed.

Lemma ofb_stream_count (key prev : bytes) (n : nat) :
  length (ofb_stream key prev n) = n.
Proof. revert prev. induction n; intros; simpl; by rewrite ?IHn. Qed.

Lemma ctr_stream_count (key ctr : bytes) (n : nat) :
  length (ctr_stream key ctr n) = n.
Proof. revert ctr. induction n; intros; simpl; by rewrite ?IHn. Qed.

End ModeFacts.

Section CipherFacts.
Context {BC : BlockCipher} (BL : BlockCipherLaws BC).

(** What [decryptor] undoes of [encryptor], mode by mode. CBC takes whole
    blocks only. *)
Lemma cipher_roundtrip (c : cipher) (data : bytes) :
  cipher_ok c →
  (is_cbc (c_mode c) = true → length data mod 16 = 0) →
  ∃ ct, encryptor_run c data = Ok ct
        ∧ decryptor_run c ct = Ok data
        ∧ length ct = length data.
Proof.
  intros [Hk Hiv] Hal. destruct c as [key m]. cbn [c_key c_mode] in *.
  unfold encryptor_run, decryptor_run. cbn [c_key c_mode].
  destruct m as [iv|iv|iv|nonce]; cbn [mode_iv is_cbc] in *.
  - (* CBC *)
    specialize (Hal eq_refl). rewrite Hal. cbn [Nat.eqb].
    eexists. split; [done|].
    pose proof (chunks_lengths 16 data ltac:(lia) Hal) as Hb.
    pose proof (cbc_encrypt_blocks_lengths BL key iv _ Hk Hiv Hb) as Hc.
    rewrite (length_concat_uniform 16) by done.
    assert (16 * length (cbc_encrypt_blocks key iv (chunks 16 data)) mod 16 = 0)
      as -> by (rewrite Nat.mul_comm; apply Nat.Div0.mod_mul).
    cbn [Nat.eqb].
    rewrite chunks_concat_blocks by (done || lia).
    rewrite cbc_blocks_roundtrip by done.
    rewrite chunks_concat by lia. split; [done|].
    rewrite <- (chunks_concat 16 data) at 2 by lia.
    rewrite (length_concat_uniform 16 (chunks 16 data)) by done.
    f_equal. clear. revert iv.
    induction (chunks 16 data) as [|x l IH]; intros iv; simpl; by rewrite ?IH.
  - (* CFB *)
    eexists. split; [done|].
    destruct (cfb_blocks_roundtrip BL key iv _ Hk Hiv (chunks_wf data))
      as (Hrt & Hwf & Hlen).
    rewrite chunks_concat_wf, Hrt by done.
    rewrite chunks_concat by lia. split; [done|].
    by rewrite Hlen, chunks_concat by lia.
  - (* OFB *)
    pose proof (ofb_stream_lengths BL key iv (nblocks data) Hk Hiv) as Hs.
    pose proof (ofb_stream_count key iv (nblocks data)) as Hn.
    eexists. split; [done|].
    assert (length (xor_bytes data (concat (ofb_stream key iv (nblocks data))))
            = length data) as Hl by (by apply stream_xor_length).
    assert (nblocks (xor_bytes data (concat (ofb_stream key iv (nblocks data))))
            = nblocks data) as -> by exact (f_equal (fun n => (n + 15) / 16) Hl).
    by rewrite stream_xor_roundtrip.
  - (* CTR *)
    pose proof (ctr_stream_lengths BL key nonce (nblocks data) Hk Hiv) as Hs.
    pose proof (ctr_stream_count key nonce (nblocks data)) as Hn.
    eexists. split; [done|].
    assert (length (xor_bytes data (concat (ctr_stream key nonce (nblocks data))))
            = length data) as Hl by (by apply stream_xor_length).
    assert (nblocks (xor_bytes data (concat (ctr_stream key nonce (nblocks data))))
            = nblocks data) as -> by exact (f_equal (fun n => (n + 15) / 16) Hl).
    by rewrite stream_xor_roundtrip.
Qed.

End CipherFacts.

(* ===================================================================== *)
(** ** [AESCipher]: data round trip                                      *)
(* ===================================================================== *)

Section AESFacts.
Context {BC : BlockCipher} {CD : Codec} (BL : BlockCipherLaws BC).

Import AESCipher.

Lemma aes_init_inv (ks : nat) (m : string) (self : AESCipher.t) :
  init ks m = Ok self →
  ks ∈ [128; 192; 256] ∧ m ∈ ["CBC"; "CFB"; "OFB"; "CTR"]
  ∧ self = MkAES ("AES-" +:+ pretty ks +:+ "-" +:+ m) ks m 128.
Proof.
  unfold init. intros H.
  destruct (bool_decide (ks ∈ [128; 192; 256])) eqn:E1; [|done].
  destruct (bool_decide (m ∈ ["CBC"; "CFB"; "OFB"; "CTR"])) eqn:E2; [|done].
  apply bool_decide_eq_true in E1, E2. cbn [negb] in H. by injection H as <-.
Qed.

Lemma aes_get_cipher_ok (ks : nat) (m : string) (self : AESCipher.t)
    (key iv : bytes) :
  init ks m = Ok self → length key * 8 = ks → length iv = 16 →
  ∃ c, _get_cipher self key iv = Ok (Some c)
       ∧ cipher_ok c
       ∧ is_cbc (c_mode c) = String.eqb m "CBC".
Proof.
  intros (Hks & Hm & ->)%aes_init_inv Hkey Hiv.
  unfold _get_cipher. cbn [key_size mode].
  rewrite (proj2 (Nat.eqb_eq _ _) Hkey). cbn [negb].
  assert (aes_key_ok key) as Hok.
  { unfold aes_key_ok. rewrite !elem_of_cons, elem_of_nil in Hks. lia. }
  assert (∀ md, length (mode_iv md) = 16 → Cipher key md = Ok (MkCipher key md))
    as HC.
  { intros md Hl. unfold Cipher. rewrite Hl. cbn [Nat.eqb negb].
    destruct Hok as [-> | [-> | ->]]; done. }
  rewrite !elem_of_cons, elem_of_nil in Hm.
  destruct Hm as [-> | [-> | [-> | [-> | []]]]]; cbn [String.eqb Ascii.eqb Bool.eqb andb];
    rewrite HC by done; eexists; (split; [done|]); done.
Qed.

(** [decrypt_data] undoes [encrypt_data] for every AES cipher the
    constructor accepts, every key of the declared size, every 16-byte
    IV and every plaintext, empty or not block-aligned included. *)
Lemma aes_data_roundtrip (ks : nat) (m : string) (self : AESCipher.t)
    (key iv data : bytes) (kw : kwargs) :
  init ks m = Ok self → length key * 8 = ks → length iv = 16 →
  kw_iv kw = Some iv →
  ∃ c, encrypt_data self data key kw = Ok c
       ∧ decrypt_data self c key kw = Ok data.
Proof.
  intros Hinit Hkey Hiv Hkw.
  destruct (aes_get_cipher_ok ks m self key iv Hinit Hkey Hiv)
    as (c & Hc & Hok & Hcbc).
  apply aes_init_inv in Hinit as (_ & _ & ->).
  unfold encrypt_data, decrypt_data. rewrite Hkw. cbn [default from_option id mode].
  assert (truthy (Some iv) = true) as -> by (destruct iv; [done|done]).
  cbn [negb]. rewrite Hc.
  destruct (String.eqb m "CBC") eqn:Em.
  - destruct (cipher_roundtrip BL c (pkcs7_pad data) Hok)
      as (ct & -> & Hdec & _); [intros _; apply pkcs7_pad_aligned|].
    exists ct. split; [done|]. rewrite Hdec. apply pkcs7_unpad_pad.
  - destruct (cipher_roundtrip BL c data Hok) as (ct & -> & Hdec & _);
      [rewrite Hcbc; done|].
    by exists ct.
Qed.

End AESFacts.

(* ===================================================================== *)
(** ** The reference instances meet the contracts                        *)
(* ===================================================================== *)

Section ToyFacts.

Lemma toy_block_laws : BlockCipherLaws Toy.block.
Proof.
  split; intros key x Hk Hx; cbn [block_encrypt block_decrypt Toy.block].
  - rewrite xor_bytes_length, length_take. destruct Hk as [?|[?|?]]; lia.
  - apply xor_bytes_involutive. rewrite length_take.
    destruct Hk as [?|[?|?]]; lia.
Qed.

Lemma map_byte_xor_twice (k : byte) (l : bytes) :
  map (byte_xor k) (map (byte_xor k) l) = l.
Proof.
  induction l as [|x l IH]; [done|]. cbn [map]. rewrite IH. f_equal.
  by rewrite (byte_xor_comm k (byte_xor k x)), (byte_xor_comm k x),
    byte_xor_involutive.
Qed.

Lemma toy_aead_laws : AEADLaws Toy.aead.
Proof.
  split. intros key nonce data ad _ _.
  cbn [aead_encrypt aead_decrypt Toy.aead]. cbv zeta.
  set (ct := map (byte_xor (Toy.checksum key)) data).
  assert (length (Toy.tag key nonce ct ad) = 16) as Ht by done.
  rewrite length_app, Ht.
  replace (length ct + 16 - 16) with (length ct) by lia.
  rewrite take_app_length, drop_app_length, bytes_eqb_refl.
  assert ((16 <=? length ct + 16) = true) as -> by (apply Nat.leb_le; lia).
  cbn [andb]. unfold ct. by rewrite map_byte_xor_twice.
Qed.

Lemma toy_strip_envelope (n : nat) (data : bytes) :
  Toy.strip_envelope (replicate n x00 ++ x01 :: data) = Ok data.
Proof. induction n as [|n IH]; [done|]. by cbn. Qed.

Lemma toy_rsa_laws : RSALaws Toy.rsa.
Proof.
  split; cbn.
  - intros bits seed. apply length_replicate.
  - intros pub seed data Hl.
    rewrite (proj2 (Nat.leb_le _ _) Hl). eexists. split; [done|].
    rewrite length_app, length_replicate. simpl. lia.
  - intros pub seed data Hl. by rewrite (proj2 (Nat.leb_gt _ _) Hl).
  - intros priv seed data c.
    destruct (length data + 66 <=? length priv) eqn:E; [|done].
    apply Nat.leb_le in E. intros [= <-].
    rewrite length_app, length_replicate. simpl.
    replace (length priv - 1 - length data + S (length data))
      with (length priv) by lia.
    rewrite Nat.eqb_refl. apply toy_strip_envelope.
  - done.
  - done.
  - done.
  - done.
Qed.

End ToyFacts.

(* ===================================================================== *)
(** ** Round trip of [encrypt_data] and [decrypt_data]                   *)
(* ===================================================================== *)

Section ChaChaFacts.
Context {AE : AEAD} {CD : Codec} (AL : AEADLaws AE).

Import ChaCha20Cipher.

Lemma urandom_length (n : nat) (w : world) :
  ∃ x w', urandom n w = (Ok x, w') ∧ length x = n ∧ fs w' = fs w.
Proof.
  eexists _, _. split; [done|]. split; [|done].
  by rewrite length_map, length_seq.
Qed.

(** The ciphertext is the nonce followed by the AEAD output. *)
Lemma chacha_encrypt_shape (self : ChaCha20Cipher.t) (data key : bytes)
    (kw : kwargs) (w : world) :
  length key = 32 →
  ∃ nonce w', urandom 12 w = (Ok nonce, w') ∧ length nonce = 12
    ∧ encrypt_data self data key kw w
      = (Ok (nonce ++ aead_encrypt key nonce data (kw_associated_data kw)), w').
Proof.
  intros Hk. destruct (urandom_length 12 w) as (nonce & w' & Hu & Hn & _).
  exists nonce, w'. split; [done|]. split; [done|].
  unfold encrypt_data, try_except, bind, lift, ChaCha20Poly1305, ret.
  rewrite Hk. cbn [Nat.eqb]. by rewrite Hu.
Qed.

Lemma chacha_data_roundtrip (self : ChaCha20Cipher.t) (data key : bytes)
    (kw : kwargs) (w : world) :
  length key = 32 →
  ∃ c w', encrypt_data self data key kw w = (Ok c, w')
          ∧ decrypt_data self c key kw = Ok data.
Proof.
  intros Hk.
  destruct (chacha_encrypt_shape self data key kw w Hk)
    as (nonce & w' & _ & Hn & ->).
  eexists _, _. split; [done|].
  unfold decrypt_data, ChaCha20Poly1305. rewrite Hk. cbn [Nat.eqb].
  rewrite <- Hn at 1 2. rewrite take_app_length, drop_app_length.
  by rewrite aead_decrypt_encrypt.
Qed.

End ChaChaFacts.

Section RSAFacts.
Context {BC : BlockCipher} {CD : Codec} {R : RSA} (RL : RSALaws R).

Import RSACipher.

Lemma rsa_max_data_length (self : RSACipher.t) (data : bytes) :
  (max_data_length self <? Z.of_nat (length data))%Z
  = negb (length data + 66 <=? key_size self / 8).
Proof.
  unfold max_data_length.
  replace (Z.of_nat (key_size self) / 8)%Z with (Z.of_nat (key_size self / 8))
    by (by rewrite Nat2Z.inj_div).
  destruct (length data + 66 <=? key_size self / 8) eqn:E; cbn [negb].
  - apply Nat.leb_le in E. apply Z.ltb_ge. lia.
  - apply Nat.leb_gt in E. apply Z.ltb_lt. lia.
Qed.

(** Within the OAEP bound [decrypt_data] undoes [encrypt_data]. *)
Lemma rsa_data_roundtrip (self : RSACipher.t) (priv data key : bytes)
    (kw : kwargs) (w : world) :
  kw_public_key kw = Some (rsa_public_key priv) →
  kw_private_key kw = Some priv →
  rsa_modulus_bytes (rsa_public_key priv) = key_size self / 8 →
  length data + 66 ≤ key_size self / 8 →
  ∃ c w', encrypt_data self data key kw w = (Ok c, w')
          ∧ decrypt_data self c key kw = Ok data.
Proof.
  intros Hpub Hpriv Hmod Hlen.
  unfold encrypt_data, decrypt_data, missing_public, missing_private,
    resolve_public, resolve_private.
  rewrite Hpub, Hpriv. cbn [bool_decide negb andb].
  rewrite !bool_decide_eq_true_2 by eauto. cbn [negb andb].
  unfold bind, lift. rewrite rsa_max_data_length.
  rewrite (proj2 (Nat.leb_le _ _) Hlen). cbn [negb].
  destruct (urandom_length 32 w) as (seed & w' & -> & _ & _).
  destruct (oaep_encrypt_ok (rsa_public_key priv) seed data) as (c & Hc & _);
    [lia|].
  rewrite Hc. exists c, w'. split; [done|].
  by apply oaep_decrypt_encrypt with seed.
Qed.

(** Beyond the bound [encrypt_data] raises [ValueError] (lines
    179-182). *)
Lemma rsa_data_too_long (self : RSACipher.t) (pub data key : bytes)
    (kw : kwargs) (w : world) :
  kw_public_key kw = Some pub →
  key_size self / 8 < length data + 66 →
  encrypt_data self data key kw w = (Raise ValueError, w).
Proof.
  intros Hpub Hlen.
  unfold encrypt_data, missing_public, resolve_public.
  rewrite Hpub. rewrite !bool_decide_eq_true_2 by eauto. cbn [negb andb].
  unfold bind, lift. rewrite rsa_max_data_length.
  by rewrite (proj2 (Nat.leb_gt _ _) Hlen).
Qed.

End RSAFacts.

Section RegistryRoundTrip.
Context {BC : BlockCipher} {AE : AEAD} {CD : Codec} {R : RSA}.
Context (BL : BlockCipherLaws BC) (AL : AEADLaws AE) (RL : RSALaws R).

Import CryptoFactory.

Lemma create_algorithm_inv (name : string) (cipher : CryptoBase.t) :
  create_algorithm crypto_factory name = Ok cipher → created name cipher.
Proof.
  unfold create_algorithm.
  destruct (algorithms crypto_factory !! name) as [f|] eqn:E; [|done].
  unfold crypto_factory, init, _register_algorithms, register_algorithm in E.
  cbn [algorithms] in E.
  repeat (apply lookup_insert_Some in E as [[<- <-]|[_ E]]);
    [.. | by rewrite lookup_empty in E].
  all: intros H.
  1: { injection H as <-. apply created_chacha. }
  1-3: (unfold rsa_factory in H;
          match type of H with
          | match RSACipher.init ?b with _ => _ end = _ =>
              destruct (RSACipher.init b) as [self|] eqn:Ei; [|done];
              injection H as <-;
              apply (created_rsa b self); [set_solver|done]
          end).
  all: unfold aes_factory in H;
       match type of H with
       | match AESCipher.init ?k ?m with _ => _ end = _ =>
           destruct (AESCipher.init k m) as [self|] eqn:Ei; [|done];
           injection H as <-;
           apply (created_aes k m self); [set_solver|set_solver|done]
       end.
Qed.

(** C1 (amended). For every algorithm the registry creates and a key
    freshly produced by its [generate_key], [decrypt_data] returns the
    plaintext [encrypt_data] was given, for every byte string (empty and
    not block-aligned included) when the cipher is an AES variant or
    ChaCha20-Poly1305, and for every byte string of at most
    [bits/8 - 66] bytes when it is RSA-bits; for a longer one RSA's
    [encrypt_data] raises [ValueError]. *)
Theorem data_roundtrip_registered (name : string) (cipher : CryptoBase.t)
    (kd : dict) (data : bytes) (w w1 : world) :
  create_algorithm crypto_factory name = Ok cipher →
  CryptoBase.generate_key cipher no_kwargs w = (Ok kd, w1) →
  ((∀ bits, name = "RSA-" +:+ pretty bits → length data + 66 ≤ bits / 8) →
   ∃ c w2,
     CryptoBase.encrypt_data cipher data (key_of kd) (kwargs_of kd) w1 = (Ok c, w2)
     ∧ CryptoBase.decrypt_data cipher c (key_of kd) (kwargs_of kd) w2 = (Ok data, w2))
  ∧ (∀ bits, name = "RSA-" +:+ pretty bits → bits / 8 < length data + 66 →
     CryptoBase.encrypt_data cipher data (key_of kd) (kwargs_of kd) w1
     = (Raise ValueError, w1)).
Proof.
  intros Hc%create_algorithm_inv Hg.
  destruct Hc as [ks m self Hks Hm Hi|bits self Hb Hi|].
  - (* AES *)
    split; [intros _|intros bits [=]].
    cbn [CryptoBase.generate_key CryptoBase.encrypt_data
         CryptoBase.decrypt_data AESCipher.as_base] in *.
    pose proof Hi as (_ & _ & ->)%aes_init_inv.
    unfold AESCipher.generate_key, bind, ret in Hg.
    destruct (urandom_length (AESCipher.key_size
      (AESCipher.MkAES ("AES-" +:+ pretty ks +:+ "-" +:+ m) ks m 128) / 8) w)
      as (key & wa & Hu1 & Hkl & _).
    rewrite Hu1 in Hg.
    destruct (urandom_length 16 wa) as (iv & wb & Hu2 & Hil & _).
    rewrite Hu2 in Hg. injection Hg as <- <-.
    cbn [AESCipher.key_size] in Hkl.
    assert (length key * 8 = ks) as Hk8.
    { rewrite Hkl. rewrite !elem_of_cons, elem_of_nil in Hks.
      destruct Hks as [-> | [-> | [-> | []]]]; done. }
    assert (m ∈ ["CBC"; "CFB"; "OFB"; "CTR"]) as Hm' by set_solver.
    edestruct (aes_data_roundtrip BL ks m _ key iv data
                 (kwargs_of [("key", VBytes key); ("iv", VBytes iv);
                   ("key_b64", VStr (b64encode key));
                   ("iv_b64", VStr (b64encode iv));
                   ("algorithm", VStr ("AES-" +:+ pretty ks +:+ "-" +:+ m));
                   ("key_size", VInt (Z.of_nat ks)); ("mode", VStr m)])
                 Hi Hk8 Hil eq_refl) as (c & Hen & Hde).
    exists c, wb. unfold lift, key_of. cbn [dict_get String.eqb Ascii.eqb Bool.eqb].
    cbn [dict_get String.eqb Ascii.eqb Bool.eqb] in Hen, Hde.
    by rewrite Hen, Hde.
  - (* RSA *)
    cbn [CryptoBase.generate_key CryptoBase.encrypt_data
         CryptoBase.decrypt_data RSACipher.as_base] in *.
    assert (self = RSACipher.MkRSA ("RSA-" +:+ pretty bits) bits) as ->.
    { unfold RSACipher.init in Hi. destruct (bits <? 1024); [done|].
      by injection Hi as <-. }
    unfold RSACipher.generate_key, bind, ret in Hg.
    cbn [RSACipher.key_size RSACipher.name] in Hg.
    destruct (urandom_length (bits / 8) w) as (seed & wa & Hu & _ & _).
    rewrite Hu in Hg. injection Hg as <- <-.
    set (priv := rsa_generate bits seed).
    match goal with |- context [kwargs_of ?d] => set (kd := d) end.
    assert (kw_public_key (kwargs_of kd) = Some (rsa_public_key priv)) as Hpub
      by reflexivity.
    assert (kw_private_key (kwargs_of kd) = Some priv) as Hpriv by reflexivity.
    split.
    + intros Hlen. specialize (Hlen bits eq_refl).
      destruct (rsa_data_roundtrip RL
                  (RSACipher.MkRSA ("RSA-" +:+ pretty bits) bits) priv data
                  (key_of kd) (kwargs_of kd) wa Hpub Hpriv
                  (rsa_generate_modulus bits seed) Hlen)
        as (c & w2 & Hen & Hde).
      exists c, w2. rewrite Hen. unfold lift. by rewrite Hde.
    + intros bits' Hn Hlen.
      assert (bits' = bits) as ->.
      { cbn in Hn. injection Hn as Hn.
        change (pretty bits = pretty bits') in Hn.
        symmetry. by apply (inj pretty). }
      by eapply rsa_data_too_long.
  - (* ChaCha20-Poly1305 *)
    split; [intros _|intros bits [=]].
    cbn [CryptoBase.generate_key CryptoBase.encrypt_data
         CryptoBase.decrypt_data ChaCha20Cipher.as_base] in *.
    unfold ChaCha20Cipher.generate_key, bind, ret in Hg.
    destruct (urandom_length 32 w) as (key & wa & Hu & Hkl & _).
    rewrite Hu in Hg. injection Hg as <- <-.
    edestruct (chacha_data_roundtrip AL ChaCha20Cipher.init data key)
      as (c & w2 & Hen & Hde); [exact Hkl|].
    exists c, w2. unfold lift, key_of.
    cbn [dict_get String.eqb Ascii.eqb Bool.eqb ChaCha20Cipher.name
         ChaCha20Cipher.init].
    rewrite Hen. by rewrite Hde.
Qed.

End RegistryRoundTrip.

Lemma data_roundtrip_registered_witness :
  ∃ cipher kd w1,
    CryptoFactory.create_algorithm toy_factory "RSA-1024" = Ok cipher
    ∧ CryptoBase.generate_key cipher no_kwargs Toy.world0 = (Ok kd, w1)
    ∧ (∀ bits, "RSA-1024" = "RSA-" +:+ pretty bits → 3 + 66 ≤ bits / 8)
    ∧ ∃ c w2,
        CryptoBase.encrypt_data cipher [x01; x02; x03] (key_of kd) (kwargs_of kd) w1
        = (Ok c, w2)
        ∧ CryptoBase.decrypt_data cipher c (key_of kd) (kwargs_of kd) w2
          = (Ok [x01; x02; x03], w2).
Proof.
  assert (∀ bits, "RSA-1024" = "RSA-" +:+ pretty bits → 3 + 66 ≤ bits / 8) as Hb.
  { intros bits Hn. cbn in Hn. injection Hn as Hn.
    change (pretty 1024 = pretty bits) in Hn.
    apply (inj pretty) in Hn. subst bits. vm_compute. lia. }
  eexists _, _, _.
  split; [reflexivity|]. split; [reflexivity|]. split; [exact Hb|].
  exact (proj1 (data_roundtrip_registered
                  toy_block_laws toy_aead_laws toy_rsa_laws
                  "RSA-1024" _ _ [x01; x02; x03] Toy.world0 _
                  eq_refl eq_refl) Hb).
Defined.

(** C1 as stated fails for RSA: RSA-1024 takes at most 62 bytes, and
    [encrypt_data] raises [ValueError] for 63 (lines 179-182), before
    any library call. *)
Lemma data_roundtrip_rsa_counterexample :
  ∃ cipher kd w1,
    CryptoFactory.create_algorithm toy_factory "RSA-1024" = Ok cipher
    ∧ CryptoBase.generate_key cipher no_kwargs Toy.world0 = (Ok kd, w1)
    ∧ CryptoBase.encrypt_data cipher (replicate 63 x00) (key_of kd) (kwargs_of kd) w1
      = (Raise ValueError, w1).
Proof.
  eexists _, _, _. split; [reflexivity|]. split; [reflexivity|].
  vm_compute. reflexivity.
Qed.

(* ===================================================================== *)
(** ** Files: the streaming wrappers                                     *)
(* ===================================================================== *)

Section FileFacts.

Lemma wfs_fs (m : gmap string bytes) (w : world) : fs (wfs m w) = m.
Proof. done. Qed.

Lemma wfs_wfs (m m' : gmap string bytes) (w : world) :
  wfs m (wfs m' w) = wfs m w.
Proof. done. Qed.

Lemma wfs_same (w : world) : wfs (fs w) w = w.
Proof. by destruct w. Qed.

Lemma open_wb_run (p : string) (w : world) :
  open_wb p w = (Ok tt, wfs (<[p := []]> (fs w)) w).
Proof. done. Qed.

Lemma write_run (p : string) (d acc : bytes) (w : world) :
  fs w !! p = Some acc →
  write p d w = (Ok tt, wfs (<[p := acc ++ d]> (fs w)) w).
Proof. intros H. unfold write, set_fs. by rewrite H. Qed.

Lemma contents_run (p : string) (d : bytes) (w : world) :
  fs w !! p = Some d → contents p w = (Ok d, w).
Proof. intros H. unfold contents. by rewrite H. Qed.

Lemma open_rb_run (p : string) (d : bytes) (w : world) :
  fs w !! p = Some d → open_rb p w = (Ok tt, w).
Proof. intros H. unfold open_rb. by rewrite H. Qed.

Lemma getsize_run (p : string) (d : bytes) (w : world) :
  fs w !! p = Some d → getsize p w = (Ok (length d), w).
Proof. intros H. unfold getsize. by rewrite H. Qed.

Lemma remove_if_exists_run (p : string) (w : world) :
  RSACipher.remove_if_exists p w = (Ok tt, wfs (delete p (fs w)) w).
Proof.
  unfold RSACipher.remove_if_exists, bind, path_exists, remove, ret.
  destruct (fs w !! p) as [d|] eqn:E.
  - rewrite bool_decide_eq_true_2 by eauto. cbv beta iota. by rewrite E.
  - rewrite bool_decide_eq_false_2 by (by intros [? ?]).
    cbv beta iota. rewrite delete_id by done. by rewrite wfs_same.
Qed.

(** The loop writes what [run_chunks] computes. *)
Lemma for_each_write_run (f : bytes → outcome bytes) (p : string)
    (cs : list bytes) (acc : bytes) (w : world) :
  fs w !! p = Some acc →
  for_each cs (fun chunk => let* x := lift (f chunk) in write p x) w
  = ((run_chunks f cs acc).1, wfs (<[p := (run_chunks f cs acc).2]> (fs w)) w).
Proof.
  revert acc w. induction cs as [|c cs IH]; intros acc w Hp.
  - cbn. by rewrite insert_id, wfs_same.
  - cbn [for_each run_chunks]. unfold bind at 1. unfold bind at 1. unfold lift at 1.
    destruct (f c) as [x|e].
    + rewrite (write_run p x acc w Hp).
      rewrite (IH (acc ++ x)) by (by rewrite wfs_fs, lookup_insert_eq).
      by rewrite wfs_fs, insert_insert_eq, wfs_wfs.
    + cbn. by rewrite insert_id, wfs_same.
Qed.

(** [CryptoBase.encrypt_file] and [decrypt_file] are the same loop. For
    a transformation that does not touch the world, reading [data] from
    [input_file] leaves the output of [run_chunks] in [output_file], and
    the result says whether every chunk went through. *)
Lemma base_file_run (f : bytes → bytes → kwargs → outcome bytes)
    (input_file output_file : string) (key : bytes) (n : nat) (kw : kwargs)
    (data : bytes) (w : world) :
  fs w !! input_file = Some data → input_file ≠ output_file →
  let r := run_chunks (fun c => f c key kw) (chunks n data) [] in
  CryptoBase.encrypt_file (fun d k kw => lift (f d k kw))
    input_file output_file key n kw w
  = (Ok (is_ok r.1), wfs (<[output_file := r.2]> (fs w)) w).
Proof.
  intros Hin Hne r. unfold CryptoBase.encrypt_file, try_except.
  unfold bind at 1. rewrite (getsize_run _ _ _ Hin).
  unfold bind at 1. rewrite (open_rb_run _ _ _ Hin).
  unfold bind at 1. rewrite open_wb_run.
  unfold bind at 1.
  rewrite (contents_run input_file data)
    by (by rewrite wfs_fs, lookup_insert_ne).
  unfold bind at 1.
  rewrite (for_each_write_run (fun c => f c key kw) output_file _ [])
    by (by rewrite wfs_fs, lookup_insert_eq).
  rewrite wfs_fs, insert_insert_eq, wfs_wfs. fold r.
  destruct r.1; done.
Qed.

Lemma base_decrypt_file_eq : @CryptoBase.decrypt_file = @CryptoBase.encrypt_file.
Proof. done. Qed.

Lemma run_chunks_all_ok (f : bytes → outcome bytes) (g : bytes → bytes)
    (cs : list bytes) (acc : bytes) :
  Forall (fun c => f c = Ok (g c)) cs →
  run_chunks f cs acc = (Ok tt, acc ++ concat (map g cs)).
Proof.
  intros H. revert acc. induction H as [|c cs Hc _ IH]; intros acc.
  - cbn. by rewrite app_nil_r.
  - cbn [run_chunks map concat]. rewrite Hc, IH. by rewrite app_assoc.
Qed.

Lemma chunks_nonempty (n : nat) (data : bytes) :
  Forall (fun c => c ≠ []) (chunks n data).
Proof.
  destruct n as [|n]; [rewrite chunks_zero; constructor|].
  remember (length data) as m eqn:Hm. revert data Hm.
  induction m as [m IH] using lt_wf_ind; intros data ->.
  destruct data as [|a data]; [constructor|].
  rewrite chunks_step by (done || lia). constructor; [done|].
  apply (IH (length (drop (S n) (a :: data)))); [|done].
  rewrite length_drop. simpl. lia.
Qed.

End FileFacts.

(* ===================================================================== *)
(** ** Streaming AES-CBC pads every chunk                                *)
(* ===================================================================== *)

Section CBCFiles.
Context {BC : BlockCipher} {CD : Codec} (BL : BlockCipherLaws BC).

Import AESCipher.

Lemma aes_cbc_encrypt_data (ks : nat) (self : AESCipher.t)
    (key iv data : bytes) (kw : kwargs) :
  init ks "CBC" = Ok self → length key * 8 = ks → length iv = 16 →
  kw_iv kw = Some iv →
  encrypt_data self data key kw = Ok (cbc_chunk key iv data).
Proof.
  intros Hinit Hkey Hiv Hkw.
  pose proof Hinit as (Hks & _ & ->)%aes_init_inv.
  unfold encrypt_data. rewrite Hkw. cbn [default from_option id mode].
  assert (truthy (Some iv) = true) as -> by (by destruct iv).
  unfold _get_cipher. cbn [key_size mode negb].
  rewrite (proj2 (Nat.eqb_eq _ _) Hkey). cbn [negb String.eqb Ascii.eqb Bool.eqb andb].
  unfold Cipher. cbn [mode_iv]. rewrite Hiv.
  assert ((length key =? 16) || (length key =? 24) || (length key =? 32) = true)
    as ->.
  { rewrite !elem_of_cons, elem_of_nil in Hks.
    destruct Hks as [E|[E|[E|[]]]]; subst ks.
    - by replace (length key) with 16 by lia.
    - by replace (length key) with 24 by lia.
    - by replace (length key) with 32 by lia. }
  cbn [negb Nat.eqb]. unfold encryptor_run. cbn [c_mode c_key].
  by rewrite pkcs7_pad_aligned.
Qed.

Lemma aes_key_ok_of_size (ks : nat) (self : AESCipher.t) (key : bytes) :
  init ks "CBC" = Ok self → length key * 8 = ks → aes_key_ok key.
Proof.
  intros (Hks & _ & _)%aes_init_inv Hkey. unfold aes_key_ok.
  rewrite !elem_of_cons, elem_of_nil in Hks. lia.
Qed.

Lemma cbc_chunk_length (key iv chunk : bytes) :
  aes_key_ok key → length iv = 16 →
  length (cbc_chunk key iv chunk) = length chunk + (16 - length chunk mod 16).
Proof.
  intros Hk Hiv. unfold cbc_chunk.
  pose proof (chunks_lengths 16 (pkcs7_pad chunk) ltac:(lia)
                (pkcs7_pad_aligned chunk)) as Hb.
  rewrite (length_concat_uniform 16)
    by (by apply cbc_encrypt_blocks_lengths).
  assert (length (cbc_encrypt_blocks key iv (chunks 16 (pkcs7_pad chunk)))
          = length (chunks 16 (pkcs7_pad chunk))) as ->.
  { generalize (chunks 16 (pkcs7_pad chunk)). intros l. clear. revert iv.
    induction l as [|x l IH]; intros iv; [done|].
    cbn [cbc_encrypt_blocks length]. by rewrite IH. }
  rewrite <- (length_concat_uniform 16) by done.
  by rewrite chunks_concat, pkcs7_pad_length by lia.
Qed.

(** Every chunk grows by at least one byte. *)
Lemma padded_chunks_length (key iv : bytes) (cs : list bytes) :
  aes_key_ok key → length iv = 16 →
  length (concat cs) + length cs ≤ length (concat (map (cbc_chunk key iv) cs)).
Proof.
  intros Hk Hiv. induction cs as [|c cs IH]; [done|].
  cbn [map concat length]. rewrite !length_app, cbc_chunk_length by done.
  pose proof (Nat.mod_upper_bound (length c) 16). lia.
Qed.

(** What [encrypt_file] writes under CBC: each chunk is padded and
    encrypted from the same IV. *)
Lemma aes_cbc_encrypt_file_run (ks : nat) (self : AESCipher.t)
    (key iv data : bytes) (kw : kwargs) (input_file output_file : string)
    (n : nat) (w : world) :
  init ks "CBC" = Ok self → length key * 8 = ks → length iv = 16 →
  kw_iv kw = Some iv →
  fs w !! input_file = Some data → input_file ≠ output_file →
  encrypt_file self input_file output_file key n kw w
  = (Ok true,
     wfs (<[output_file := concat (map (cbc_chunk key iv) (chunks n data))]> (fs w)) w).
Proof.
  intros Hinit Hkey Hiv Hkw Hin Hne. unfold encrypt_file.
  rewrite (base_file_run (encrypt_data self) _ _ key n kw data w Hin Hne).
  cbv zeta.
  rewrite (run_chunks_all_ok _ (cbc_chunk key iv)); [done|].
  apply Forall_forall. intros c _. by eapply aes_cbc_encrypt_data.
Qed.

Lemma aes_cbc_file_longer_at (n : nat) (key iv data : bytes) :
  aes_key_ok key → length iv = 16 → 0 < n → n mod 16 = 0 → n < length data →
  length (cbc_chunk key iv data)
  < length (concat (map (cbc_chunk key iv) (chunks n data))).
Proof.
  intros Hk Hiv Hn Hn16 Hlen.
  rewrite cbc_chunk_length by done.
  assert (data ≠ []) as Hd by (intros ->; simpl in Hlen; lia).
  rewrite (chunks_step n data) by done.
  cbn [map concat]. rewrite length_app, cbc_chunk_length by done.
  rewrite length_take.
  replace (n `min` length data) with n by lia.
  pose proof (padded_chunks_length key iv (chunks n (drop n data)) Hk Hiv) as Hp.
  rewrite chunks_concat in Hp by lia. rewrite length_drop in Hp.
  assert (0 < length (chunks n (drop n data))) as Hc.
  { rewrite chunks_step; [simpl; lia|lia|].
    intros E. apply (f_equal length) in E. rewrite length_drop in E.
    simpl in E. lia. }
  rewrite Hn16.
  pose proof (Nat.mod_upper_bound (length data) 16). lia.
Qed.

(** C3. The code at a file of more than 4096 bytes: [encrypt_file] under
    AES-CBC succeeds, the ciphertext file is the concatenation of the
    separately padded chunks, each chained from the IV again, and it is
    strictly longer than the single-shot CBC encryption of the whole
    plaintext, which [encrypt_data] computes. *)
Theorem aes_cbc_file_not_single_shot (ks : nat) (self : AESCipher.t)
    (key iv data : bytes) (kw : kwargs) (input_file output_file : string)
    (w : world) :
  init ks "CBC" = Ok self → length key * 8 = ks → length iv = 16 →
  kw_iv kw = Some iv →
  fs w !! input_file = Some data → input_file ≠ output_file →
  CryptoBase.default_chunk_size < length data →
  ∃ w' out,
    encrypt_file self input_file output_file key
      CryptoBase.default_chunk_size kw w = (Ok true, w')
    ∧ fs w' !! output_file = Some out
    ∧ out = concat (map (cbc_chunk key iv)
                        (chunks CryptoBase.default_chunk_size data))
    ∧ encrypt_data self data key kw = Ok (cbc_chunk key iv data)
    ∧ length (cbc_chunk key iv data) < length out.
Proof.
  intros Hinit Hkey Hiv Hkw Hin Hne Hlen.
  pose proof (aes_key_ok_of_size ks self key Hinit Hkey) as Hk.
  eexists _, _. split; [by eapply aes_cbc_encrypt_file_run|].
  split; [by rewrite wfs_fs, lookup_insert_eq|]. split; [done|].
  split; [by eapply aes_cbc_encrypt_data|].
  apply aes_cbc_file_longer_at; try done.
  unfold CryptoBase.default_chunk_size. lia.
Qed.

End CBCFiles.

Lemma aes_cbc_file_not_single_shot_witness :
  ∃ w' out,
    AESCipher.encrypt_file (BC := Toy.block) aes256
      "plain.bin" "plain.bin.enc" Example.key32
      CryptoBase.default_chunk_size (RSACipher.with_iv Example.iv16)
      (Example.world_with (replicate 4097 x00)) = (Ok true, w')
    ∧ fs w' !! "plain.bin.enc" = Some out
    ∧ out = concat (map (cbc_chunk (BC := Toy.block) Example.key32 Example.iv16)
                        (chunks CryptoBase.default_chunk_size (replicate 4097 x00)))
    ∧ AESCipher.encrypt_data (BC := Toy.block) aes256
        (replicate 4097 x00) Example.key32 (RSACipher.with_iv Example.iv16)
      = Ok (cbc_chunk (BC := Toy.block) Example.key32 Example.iv16
              (replicate 4097 x00))
    ∧ length (cbc_chunk (BC := Toy.block) Example.key32 Example.iv16
                (replicate 4097 x00)) < length out.
Proof.
  apply (aes_cbc_file_not_single_shot toy_block_laws 256).
  - reflexivity.
  - reflexivity.
  - reflexivity.
  - reflexivity.
  - apply lookup_singleton_eq.
  - discriminate.
  - rewrite length_replicate. unfold CryptoBase.default_chunk_size. lia.
Defined.

(* ===================================================================== *)
(** ** The RSA envelope                                                  *)
(* ===================================================================== *)

Section EnvelopeFacts.
Context {BC : BlockCipher} {CD : Codec} {R : RSA}.
Context (BL : BlockCipherLaws BC) (RL : RSALaws R).

Import RSACipher.

Lemma for_each_copy_run (p : string) (cs : list bytes) (acc : bytes) (w : world) :
  fs w !! p = Some acc →
  for_each cs (fun chunk => write p chunk) w
  = (Ok tt, wfs (<[p := acc ++ concat cs]> (fs w)) w).
Proof.
  revert acc w. induction cs as [|c cs IH]; intros acc w Hp.
  - cbn. by rewrite app_nil_r, insert_id, wfs_same.
  - cbn [for_each concat]. unfold bind at 1.
    rewrite (write_run p c acc w Hp).
    rewrite (IH (acc ++ c)) by (by rewrite wfs_fs, lookup_insert_eq).
    by rewrite wfs_fs, insert_insert_eq, wfs_wfs, app_assoc.
Qed.

Lemma chunks_concat_stream (n : nat) (g : bytes → bytes) (data : bytes) :
  concat (chunks n (concat (map g (chunks n data))))
  = concat (map g (chunks n data)).
Proof.
  destruct n as [|n]; [by rewrite !chunks_zero|]. apply chunks_concat. lia.
Qed.

Lemma to_N_byte_of_N (n : N) : (n < 256)%N → Byte.to_N (byte_of_N n) = n.
Proof.
  intros Hn. unfold byte_of_N. destruct (Byte.of_N n) as [x|] eqn:E.
  - by apply Byte.to_of_N.
  - apply Byte.of_N_None_iff in E. lia.
Qed.

(** The 4-byte big-endian prefix reads back as the length it encodes. *)
Lemma to_bytes4_big_ok (n : nat) :
  (N.of_nat n < 2 ^ 32)%N →
  ∃ p, to_bytes4_big n = Ok p ∧ length p = 4 ∧ from_bytes_big p = n.
Proof.
  intros Hn. unfold to_bytes4_big. cbv zeta.
  rewrite (proj2 (N.ltb_lt _ _) Hn).
  eexists. split; [done|]. split; [done|].
  unfold from_bytes_big. cbn [foldl].
  change (2 ^ 32)%N with 4294967296%N in Hn.
  change (2 ^ 24)%N with 16777216%N.
  change (2 ^ 16)%N with 65536%N.
  change (2 ^ 8)%N with 256%N.
  rewrite !to_N_byte_of_N.
  - zify. Z.to_euclidean_division_equations. lia.
  - apply N.mod_lt. lia.
  - apply N.mod_lt. lia.
  - apply N.mod_lt. lia.
  - zify. Z.to_euclidean_division_equations. lia.
Qed.

Lemma string_app_ne (s t : string) : t ≠ EmptyString → s ≠ s +:+ t.
Proof.
  intros Ht. induction s as [|a s IH]; cbn.
  - intros E. by apply Ht.
  - intros [= E]. by apply IH.
Qed.

Lemma temp_ne (p : string) : p ≠ p +:+ ".temp".
Proof. by apply string_app_ne. Qed.

Lemma aes256_init : AESCipher.init 256 "CBC" = Ok aes256.
Proof. reflexivity. Qed.

(** [encrypt_file]: the container is the 4-byte length, the wrapped
    session key and IV, and the AES-256-CBC stream; the temporary file
    is gone. *)
Lemma rsa_encrypt_file_run (self : RSACipher.t) (input_file output_file : string)
    (k : bytes) (n : nat) (kw : kwargs) (pub data : bytes) (w : world) :
  kw_public_key kw = Some pub →
  48 + 66 ≤ rsa_modulus_bytes pub →
  (N.of_nat (rsa_modulus_bytes pub) < 2 ^ 32)%N →
  fs w !! input_file = Some data →
  input_file ≠ output_file +:+ ".temp" →
  ∃ key iv seed wrapped prefix w',
    length key = 32 ∧ length iv = 16
    ∧ oaep_encrypt pub seed (key ++ iv) = Ok wrapped
    ∧ to_bytes4_big (length wrapped) = Ok prefix
    ∧ encrypt_file self input_file output_file k n kw w = (Ok true, w')
    ∧ fs w' = delete (output_file +:+ ".temp")
                (<[output_file :=
                     prefix ++ wrapped
                     ++ concat (map (cbc_chunk key iv) (chunks n data))]>
                   (<[output_file +:+ ".temp" :=
                        concat (map (cbc_chunk key iv) (chunks n data))]> (fs w))).
Proof.
  intros Hpub Hmod Hmod32 Hin Hne.
  destruct (urandom_length 32 w) as (key & w1 & Hu1 & Hkl & Hf1).
  destruct (urandom_length 16 w1) as (iv & w2 & Hu2 & Hil & Hf2).
  set (stream := concat (map (cbc_chunk key iv) (chunks n data))).
  set (temp := output_file +:+ ".temp") in *.
  set (w3 := wfs (<[temp := stream]> (fs w2)) w2).
  destruct (urandom_length 32 w3) as (seed & w4 & Hu3 & _ & Hf4).
  destruct (oaep_encrypt_ok pub seed (key ++ iv)) as (wrapped & Hw & Hwl).
  { rewrite length_app. lia. }
  destruct (to_bytes4_big_ok (length wrapped)) as (prefix & Hp & Hpl & _).
  { by rewrite Hwl. }
  exists key, iv, seed, wrapped, prefix. eexists.
  split; [done|]. split; [done|]. split; [done|]. split; [done|].
  unfold encrypt_file, missing_public, resolve_public. rewrite Hpub.
  rewrite bool_decide_eq_true_2 by eauto. cbn [negb andb].
  unfold try_except.
  unfold bind at 1. unfold lift at 1.
  unfold bind at 1. unfold lift at 1. rewrite aes256_init.
  unfold bind at 1. unfold AESCipher.generate_key.
  unfold bind at 1. cbn [AESCipher.key_size aes256].
  change (256 / 8) with 32. rewrite Hu1.
  unfold bind at 1. rewrite Hu2. unfold ret at 1.
  unfold bind at 1. unfold lift at 1. unfold dict_bytes at 1.
  cbn [dict_get String.eqb Ascii.eqb Bool.eqb].
  unfold bind at 1. unfold lift at 1. unfold dict_bytes at 1.
  cbn [dict_get String.eqb Ascii.eqb Bool.eqb].
  unfold bind at 1.
  rewrite (aes_cbc_encrypt_file_run 256 aes256 key iv data (with_iv iv)
             input_file temp n w2 aes256_init);
    [|by rewrite Hkl|done|done|by rewrite Hf2, Hf1|done].
  fold stream. fold w3.
  unfold bind at 1. rewrite Hu3.
  unfold bind at 1. unfold lift at 1. rewrite Hw.
  unfold bind at 1. rewrite open_wb_run.
  unfold bind at 1. unfold lift at 1. rewrite Hp.
  unfold bind at 1.
  rewrite (write_run output_file prefix []) by (by rewrite wfs_fs, lookup_insert_eq).
  unfold bind at 1.
  rewrite (write_run output_file wrapped ([] ++ prefix))
    by (by rewrite wfs_fs, lookup_insert_eq).
  assert (output_file ≠ temp) as Hot by apply temp_ne.
  unfold bind at 1.
  rewrite (open_rb_run temp stream).
  2:{ rewrite !wfs_fs, !lookup_insert_ne by done. rewrite Hf4.
      unfold w3. by rewrite wfs_fs, lookup_insert_eq. }
  unfold bind at 1.
  rewrite (contents_run temp stream).
  2:{ rewrite !wfs_fs, !lookup_insert_ne by done. rewrite Hf4.
      unfold w3. by rewrite wfs_fs, lookup_insert_eq. }
  unfold bind at 1.
  rewrite (for_each_copy_run output_file _ (([] ++ prefix) ++ wrapped))
    by (by rewrite wfs_fs, lookup_insert_eq).
  unfold bind at 1. rewrite remove_if_exists_run. unfold ret.
  split; [reflexivity|].
  rewrite !wfs_wfs, !wfs_fs, !insert_insert_eq. rewrite Hf4. unfold w3.
  rewrite wfs_fs, Hf2, Hf1.
  assert (concat (chunks n stream) = stream) as ->
    by apply chunks_concat_stream.
  by rewrite app_nil_l, <- app_assoc.
Qed.

Lemma base_file_always_returns (f : bytes → bytes → kwargs → M bytes)
    (input_file output_file : string) (key : bytes) (n : nat) (kw : kwargs)
    (w : world) :
  ∃ b w', CryptoBase.encrypt_file f input_file output_file key n kw w = (Ok b, w').
Proof.
  unfold CryptoBase.encrypt_file, try_except.
  match goal with |- context [match ?m w with _ => _ end] => destruct (m w) as [[?|?] ?] end;
    by eexists _, _.
Qed.

(** [decrypt_file]: the length prefix is read, the wrapped key is
    unwrapped and split into 32 and 16 bytes, the rest goes through
    AES-256-CBC [decrypt_file], whose result is dropped. *)
Lemma rsa_decrypt_file_run (self : RSACipher.t) (input_file output_file : string)
    (k : bytes) (n : nat) (kw : kwargs)
    (priv prefix wrapped stream key iv : bytes) (w : world) :
  kw_private_key kw = Some priv →
  fs w !! input_file = Some (prefix ++ wrapped ++ stream) →
  to_bytes4_big (length wrapped) = Ok prefix →
  oaep_decrypt priv wrapped = Ok (key ++ iv) →
  length key = 32 → length iv = 16 → 0 < n →
  ∃ b wa,
    AESCipher.decrypt_file aes256 (input_file +:+ ".temp") output_file key n
      (with_iv iv) (wfs (<[input_file +:+ ".temp" := stream]> (fs w)) w)
    = (Ok b, wa)
    ∧ decrypt_file self input_file output_file k n kw w
      = (Ok true, wfs (delete (input_file +:+ ".temp") (fs wa)) wa).
Proof.
  intros Hpriv Hin Hp Hdec Hkl Hil Hn.
  assert (∃ b wa,
    AESCipher.decrypt_file aes256 (input_file +:+ ".temp") output_file key n
      (with_iv iv) (wfs (<[input_file +:+ ".temp" := stream]> (fs w)) w)
    = (Ok b, wa)) as (b & wa & Hrun)
    by exact (base_file_always_returns _ _ _ _ _ _ _).
  exists b, wa. split; [exact Hrun|].
  assert (length prefix = 4 ∧ from_bytes_big prefix = length wrapped)
    as [Hpl Hpv].
  { unfold to_bytes4_big in Hp. cbv zeta in Hp.
    destruct (N.of_nat (length wrapped) <? 2 ^ 32)%N eqn:E; [|done].
    apply N.ltb_lt in E.
    destruct (to_bytes4_big_ok _ E) as (p & Hp' & ? & ?).
    unfold to_bytes4_big in Hp'. cbv zeta in Hp'.
    rewrite (proj2 (N.ltb_lt _ _) E) in Hp'. rewrite Hp in Hp'.
    by injection Hp' as <-. }
  unfold decrypt_file, missing_private, resolve_private. rewrite Hpriv.
  rewrite bool_decide_eq_true_2 by eauto. cbn [negb andb].
  unfold try_except.
  unfold bind at 1. unfold lift at 1.
  unfold bind at 1. rewrite (open_rb_run _ _ _ Hin).
  unfold bind at 1. rewrite (contents_run _ _ _ Hin).
  assert (take 4 (prefix ++ wrapped ++ stream) = prefix) as Ht4
    by (by rewrite <- Hpl, take_app_length).
  assert (drop 4 (prefix ++ wrapped ++ stream) = wrapped ++ stream) as Hd4
    by (by rewrite <- Hpl, drop_app_length).
  assert (drop (4 + length wrapped) (prefix ++ wrapped ++ stream) = stream) as Hds.
  { rewrite <- Hpl, <- length_app, app_assoc. apply drop_app_length. }
  rewrite !Ht4, !Hd4, !Hpv, Hds, take_app_length, Hpl, !Nat.eqb_refl.
  cbn [negb].
  unfold bind at 1. unfold lift at 1. rewrite Hdec.
  assert (take (length (key ++ iv) - 16) (key ++ iv) = key) as ->.
  { rewrite length_app, Hil.
    replace (length key + 16 - 16) with (length key) by lia.
    apply take_app_length. }
  assert (drop (length (key ++ iv) - 16) (key ++ iv) = iv) as ->.
  { rewrite length_app, Hil.
    replace (length key + 16 - 16) with (length key) by lia.
    apply drop_app_length. }
  rewrite Hkl. change (32 * 8) with 256.
  unfold bind at 1. unfold lift at 1. rewrite aes256_init.
  unfold bind at 1. rewrite open_wb_run.
  unfold bind at 1.
  rewrite (for_each_copy_run (input_file +:+ ".temp") _ [])
    by (by rewrite wfs_fs, lookup_insert_eq).
  rewrite wfs_fs, insert_insert_eq, wfs_wfs, app_nil_l.
  rewrite chunks_concat by done.
  unfold bind at 1. rewrite Hrun.
  unfold bind at 1. rewrite remove_if_exists_run. done.
Qed.

(** What [encrypt_file] leaves in the container and how [decrypt_file]
    reads it back, for every chunk size. *)
Lemma rsa_envelope_run (self : RSACipher.t)
    (input_file container : string) (k : bytes) (n : nat) (kw : kwargs)
    (priv data : bytes) (w : world) :
  kw_public_key kw = Some (rsa_public_key priv) →
  kw_private_key kw = Some priv →
  48 + 66 ≤ rsa_modulus_bytes (rsa_public_key priv) →
  (N.of_nat (rsa_modulus_bytes (rsa_public_key priv)) < 2 ^ 32)%N →
  fs w !! input_file = Some data →
  input_file ≠ container +:+ ".temp" →
  0 < n →
  ∃ key iv seed wrapped prefix stream w1,
    encrypt_file self input_file container k n kw w = (Ok true, w1)
    ∧ fs w1 !! container = Some (prefix ++ wrapped ++ stream)
    ∧ length prefix = 4 ∧ from_bytes_big prefix = length wrapped
    ∧ oaep_encrypt (rsa_public_key priv) seed (key ++ iv) = Ok wrapped
    ∧ length key = 32 ∧ length iv = 16
    ∧ AESCipher.encrypt_file aes256 input_file (container +:+ ".temp") key n
        (with_iv iv) w
      = (Ok true, wfs (<[container +:+ ".temp" := stream]> (fs w)) w)
    ∧ ∀ output_file, ∃ b wa,
        AESCipher.decrypt_file aes256 (container +:+ ".temp") output_file key n
          (with_iv iv) (wfs (<[container +:+ ".temp" := stream]> (fs w1)) w1)
        = (Ok b, wa)
        ∧ decrypt_file self container output_file k n kw w1
          = (Ok true, wfs (delete (container +:+ ".temp") (fs wa)) wa).
Proof.
  intros Hpub Hpriv Hmod Hmod32 Hin Hne Hn.
  destruct (rsa_encrypt_file_run self input_file container k n kw
              (rsa_public_key priv) data w Hpub Hmod Hmod32 Hin Hne)
    as (key & iv & seed & wrapped & prefix & w1 & Hkl & Hil & Hw & Hp & Hrun & Hfs).
  exists key, iv, seed, wrapped, prefix,
    (concat (map (cbc_chunk key iv) (chunks n data))), w1.
  assert (fs w1 !! container
          = Some (prefix ++ wrapped ++ concat (map (cbc_chunk key iv) (chunks n data))))
    as Hc.
  { rewrite Hfs, lookup_delete_ne by (symmetry; apply temp_ne).
    apply lookup_insert_eq. }
  assert (length prefix = 4 ∧ from_bytes_big prefix = length wrapped) as [Hpl Hpv].
  { unfold to_bytes4_big in Hp. cbv zeta in Hp.
    destruct (N.of_nat (length wrapped) <? 2 ^ 32)%N eqn:E; [|done].
    apply N.ltb_lt in E.
    destruct (to_bytes4_big_ok _ E) as (p & Hp' & ? & ?).
    unfold to_bytes4_big in Hp'. cbv zeta in Hp'.
    rewrite (proj2 (N.ltb_lt _ _) E) in Hp'. rewrite Hp in Hp'.
    by injection Hp' as <-. }
  split; [done|]. split; [done|]. split; [done|]. split; [done|].
  split; [done|]. split; [done|]. split; [done|].
  split.
  - apply (aes_cbc_encrypt_file_run 256 aes256 key iv data (with_iv iv));
      [apply aes256_init|by rewrite Hkl|done|done|done|done].
  - intros output_file.
    apply (rsa_decrypt_file_run self container output_file k n kw priv prefix
             wrapped _ key iv w1); try done.
    by apply oaep_decrypt_encrypt with seed.
Qed.

(** C7. With a public key whose modulus has room for 48 bytes under
    OAEP, [encrypt_file] succeeds and writes the 4-byte big-endian length
    of the wrapped session, the wrapped session (the RSA-OAEP encryption
    of the 32-byte AES key followed by the 16-byte IV) and the stream
    AES-256-CBC [encrypt_file] made of the input; [decrypt_file] on that
    container with the matching private key hands exactly that stream,
    key and IV to AES-256-CBC [decrypt_file]. *)
Theorem rsa_envelope_layout (self : RSACipher.t)
    (input_file container : string) (k : bytes) (n : nat) (kw : kwargs)
    (priv data : bytes) (w : world) :
  kw_public_key kw = Some (rsa_public_key priv) →
  kw_private_key kw = Some priv →
  48 + 66 ≤ rsa_modulus_bytes (rsa_public_key priv) →
  (N.of_nat (rsa_modulus_bytes (rsa_public_key priv)) < 2 ^ 32)%N →
  fs w !! input_file = Some data →
  input_file ≠ container +:+ ".temp" →
  0 < n →
  ∃ key iv seed wrapped prefix stream w1,
    encrypt_file self input_file container k n kw w = (Ok true, w1)
    ∧ fs w1 !! container = Some (prefix ++ wrapped ++ stream)
    ∧ length prefix = 4 ∧ from_bytes_big prefix = length wrapped
    ∧ oaep_encrypt (rsa_public_key priv) seed (key ++ iv) = Ok wrapped
    ∧ length key = 32 ∧ length iv = 16
    ∧ AESCipher.encrypt_file aes256 input_file (container +:+ ".temp") key n
        (with_iv iv) w
      = (Ok true, wfs (<[container +:+ ".temp" := stream]> (fs w)) w)
    ∧ ∀ output_file, ∃ b wa,
        AESCipher.decrypt_file aes256 (container +:+ ".temp") output_file key n
          (with_iv iv) (wfs (<[container +:+ ".temp" := stream]> (fs w1)) w1)
        = (Ok b, wa)
        ∧ decrypt_file self container output_file k n kw w1
          = (Ok true, wfs (delete (container +:+ ".temp") (fs wa)) wa).
Proof.
  intros Hpub Hpriv Hmod Hmod32 Hin Hne Hn.
  destruct (rsa_encrypt_file_run self input_file container k n kw
              (rsa_public_key priv) data w Hpub Hmod Hmod32 Hin Hne)
    as (key & iv & seed & wrapped & prefix & w1 & Hkl & Hil & Hw & Hp & Hrun & Hfs).
  exists key, iv, seed, wrapped, prefix,
    (concat (map (cbc_chunk key iv) (chunks n data))), w1.
  assert (fs w1 !! container
          = Some (prefix ++ wrapped ++ concat (map (cbc_chunk key iv) (chunks n data))))
    as Hc.
  { rewrite Hfs, lookup_delete_ne by (symmetry; apply temp_ne).
    apply lookup_insert_eq. }
  assert (length prefix = 4 ∧ from_bytes_big prefix = length wrapped) as [Hpl Hpv].
  { unfold to_bytes4_big in Hp. cbv zeta in Hp.
    destruct (N.of_nat (length wrapped) <? 2 ^ 32)%N eqn:E; [|done].
    apply N.ltb_lt in E.
    destruct (to_bytes4_big_ok _ E) as (p & Hp' & ? & ?).
    unfold to_bytes4_big in Hp'. cbv zeta in Hp'.
    rewrite (proj2 (N.ltb_lt _ _) E) in Hp'. rewrite Hp in Hp'.
    by injection Hp' as <-. }
  split; [done|]. split; [done|]. split; [done|]. split; [done|].
  split; [done|]. split; [done|]. split; [done|].
  split.
  - apply (aes_cbc_encrypt_file_run 256 aes256 key iv data (with_iv iv));
      [apply aes256_init|by rewrite Hkl|done|done|done|done].
  - intros output_file.
    apply (rsa_decrypt_file_run self container output_file k n kw priv prefix
             wrapped _ key iv w1); try done.
    by apply oaep_decrypt_encrypt with seed.
Qed.

(** *** Round trip through the envelope *)

Lemma chunks_app_blocks (n : nat) (blocks : list bytes) (rest : bytes) :
  0 < n → Forall (fun x => length x = n) blocks →
  chunks n (concat blocks ++ rest) = blocks ++ chunks n rest.
Proof.
  intros Hn. induction 1 as [|x blocks Hx _ IH]; [done|].
  cbn [concat app]. by rewrite <- app_assoc, chunks_app, IH.
Qed.

(** The first [length c] bytes of the encryption of an aligned chunk
    decrypt to the chunk itself: its padding block is cut off. *)
Lemma cbc_decrypt_prefix (key iv c : bytes) :
  aes_key_ok key → length iv = 16 → length c mod 16 = 0 →
  decryptor_run (MkCipher key (CBC iv)) (take (length c) (cbc_chunk key iv c))
  = Ok c.
Proof.
  intros Hk Hiv Hal.
  pose proof (chunks_lengths 16 c ltac:(lia) Hal) as Hb.
  unfold cbc_chunk, pkcs7_pad.
  rewrite <- (chunks_concat 16 c) at 2 by lia.
  rewrite chunks_app_blocks by (done || lia).
  destruct (cbc_encrypt_blocks_app key iv (chunks 16 c)
              (chunks 16 (replicate (16 - length c `mod` 16)
                            (byte_of_nat (16 - length c `mod` 16)))))
    as [prev' ->].
  rewrite concat_app.
  pose proof (cbc_encrypt_blocks_lengths BL key iv _ Hk Hiv Hb) as Hc.
  assert (length (concat (cbc_encrypt_blocks key iv (chunks 16 c))) = length c)
    as Hlc.
  { rewrite (length_concat_uniform 16) by done.
    rewrite <- (chunks_concat 16 c) at 2 by lia.
    rewrite (length_concat_uniform 16 (chunks 16 c)) by done.
    f_equal. clear. generalize (chunks 16 c). intros l. revert iv.
    induction l as [|x l IH]; intros iv; [done|].
    cbn [cbc_encrypt_blocks length]. by rewrite IH. }
  rewrite <- Hlc at 1. rewrite take_app_length.
  unfold decryptor_run. cbn [c_mode c_key]. rewrite Hlc, Hal. cbn [Nat.eqb].
  rewrite chunks_concat_blocks by (done || lia).
  rewrite cbc_blocks_roundtrip by done.
  by rewrite chunks_concat by lia.
Qed.

Lemma aes256_decrypt_prefix (key iv c : bytes) :
  length key = 32 → length iv = 16 → length c mod 16 = 0 →
  AESCipher.decrypt_data aes256 (take (length c) (cbc_chunk key iv c)) key
    (with_iv iv)
  = pkcs7_unpad c.
Proof.
  intros Hk Hiv Hal.
  unfold AESCipher.decrypt_data. cbn [kw_iv with_iv default from_option id].
  assert (truthy (Some iv) = true) as -> by (by destruct iv).
  cbn [negb]. unfold AESCipher._get_cipher.
  cbn [AESCipher.key_size AESCipher.mode aes256].
  rewrite Hk. cbn [Nat.eqb negb String.eqb Ascii.eqb Bool.eqb andb].
  change (32 * 8 =? 256) with true. cbn [negb].
  unfold Cipher. cbn [mode_iv]. rewrite Hk, Hiv. cbn [Nat.eqb negb orb].
  rewrite cbc_decrypt_prefix; [done| |done|done].
  unfold aes_key_ok. lia.
Qed.

Lemma rsa_envelope_roundtrip_fails_at (n : nat) (self : RSACipher.t)
    (input_file container output_file : string) (k : bytes) (kw : kwargs)
    (priv data : bytes) (w : world) :
  0 < n → n mod 16 = 0 →
  kw_public_key kw = Some (rsa_public_key priv) →
  kw_private_key kw = Some priv →
  48 + 66 ≤ rsa_modulus_bytes (rsa_public_key priv) →
  (N.of_nat (rsa_modulus_bytes (rsa_public_key priv)) < 2 ^ 32)%N →
  fs w !! input_file = Some data →
  input_file ≠ container +:+ ".temp" →
  output_file ≠ container +:+ ".temp" →
  n ≤ length data →
  (∀ x, data !! (n - 1) = Some x → ¬ (1 ≤ nat_of_byte x ≤ 16)) →
  ∃ w1 w2,
    encrypt_file self input_file container k n kw w = (Ok true, w1)
    ∧ decrypt_file self container output_file k n kw w1 = (Ok true, w2)
    ∧ fs w2 !! output_file = Some []
    ∧ data ≠ [].
Proof.
  intros Hn Hn16 Hpub Hpriv Hmod Hmod32 Hin Hne Hno Hlen Hbad.
  destruct (rsa_envelope_run self input_file container k n kw priv data w)
    as (key & iv & seed & wrapped & prefix & stream & w1 & Henc & Hc & _ & _
        & _ & Hkl & Hil & Haes & Hdec); try done.
  destruct (Hdec output_file) as (b & wa & Hrun & Hd).
  exists w1, (wfs (delete (container +:+ ".temp") (fs wa)) wa).
  split; [done|]. split; [done|].
  assert (data ≠ []) as Hnil by (intros ->; simpl in Hlen; lia).
  split; [|done].
  (* the stream, and its first chunk *)
  rewrite (aes_cbc_encrypt_file_run 256 aes256 key iv data (with_iv iv)
             input_file _ n w aes256_init) in Haes;
    [|by rewrite Hkl|done|done|done|done].
  assert (stream = concat (map (cbc_chunk key iv) (chunks n data))) as ->.
  { injection Haes as Haes. apply (f_equal (.!! (container +:+ ".temp"))) in Haes.
    rewrite !lookup_insert_eq in Haes. by injection Haes as <-. }
  clear Haes.
  set (c1 := take n data).
  assert (length c1 = n) as Hc1 by (unfold c1; rewrite length_take; lia).
  assert (aes_key_ok key) as Hk by (unfold aes_key_ok; lia).
  rewrite (chunks_step n data) in Hrun by done.
  cbn [map concat] in Hrun. fold c1 in Hrun.
  set (rest := concat (map (cbc_chunk key iv) (chunks n (drop n data)))) in *.
  assert (length (cbc_chunk key iv c1) = n + 16) as Hl1.
  { rewrite cbc_chunk_length by done. rewrite Hc1, Hn16. done. }
  assert (pkcs7_unpad c1 = Raise ValueError) as Hun.
  { destruct (last c1) as [x|] eqn:El.
    - apply (pkcs7_unpad_bad_last c1 x El). apply Hbad.
      rewrite last_lookup, Hc1 in El. unfold c1 in El.
      rewrite lookup_take_lt in El by lia.
      by replace (n - 1) with (pred n) by lia.
    - apply last_None in El. rewrite El in Hc1. simpl in Hc1. lia. }
  assert (AESCipher.decrypt_data aes256 (take n (cbc_chunk key iv c1)) key
            (with_iv iv) = Raise ValueError) as Hdd.
  { rewrite <- Hc1 at 1.
    rewrite (aes256_decrypt_prefix key iv c1); [done|done|done|by rewrite Hc1]. }
  unfold AESCipher.decrypt_file in Hrun. rewrite base_decrypt_file_eq in Hrun.
  rewrite (base_file_run (AESCipher.decrypt_data aes256) _ _ key n (with_iv iv)
             (cbc_chunk key iv c1 ++ rest)) in Hrun.
  2:{ by rewrite wfs_fs, lookup_insert_eq. }
  2:{ done. }
  cbv zeta in Hrun.
  rewrite (chunks_step n (cbc_chunk key iv c1 ++ rest)) in Hrun; [|lia|].
  2:{ intros E. apply (f_equal length) in E. rewrite length_app, Hl1 in E.
      simpl in E. lia. }
  rewrite take_app_le in Hrun by lia.
  cbn [run_chunks] in Hrun.
  rewrite Hdd in Hrun. cbn [fst snd is_ok] in Hrun.
  injection Hrun as _ <-.
  rewrite !wfs_fs, lookup_delete_ne by done.
  apply lookup_insert_eq.
Qed.

(** C2. The code at a file of at least 4096 bytes whose byte at offset
    4095 is not a padding byte (a file of zero bytes, for one):
    [encrypt_file] and then [decrypt_file] under a matching key pair
    both return [True], and the output file is empty. The first 4096
    bytes of the stream are a whole chunk without its padding block,
    which [decrypt_data] refuses. *)
Theorem rsa_envelope_roundtrip_fails (self : RSACipher.t)
    (input_file container output_file : string) (k : bytes) (kw : kwargs)
    (priv data : bytes) (w : world) :
  kw_public_key kw = Some (rsa_public_key priv) →
  kw_private_key kw = Some priv →
  48 + 66 ≤ rsa_modulus_bytes (rsa_public_key priv) →
  (N.of_nat (rsa_modulus_bytes (rsa_public_key priv)) < 2 ^ 32)%N →
  fs w !! input_file = Some data →
  input_file ≠ container +:+ ".temp" →
  output_file ≠ container +:+ ".temp" →
  CryptoBase.default_chunk_size ≤ length data →
  (∀ x, data !! 4095 = Some x → ¬ (1 ≤ nat_of_byte x ≤ 16)) →
  ∃ w1 w2,
    encrypt_file self input_file container k CryptoBase.default_chunk_size kw w
      = (Ok true, w1)
    ∧ decrypt_file self container output_file k CryptoBase.default_chunk_size kw w1
      = (Ok true, w2)
    ∧ fs w2 !! output_file = Some []
    ∧ data ≠ [].
Proof.
  intros Hpub Hpriv Hmod Hmod32 Hin Hne Hno Hlen Hbad.
  apply (rsa_envelope_roundtrip_fails_at CryptoBase.default_chunk_size self
           input_file container output_file k kw priv data w); try done.
  unfold CryptoBase.default_chunk_size. lia.
Qed.

(** Files shorter than one chunk do come back: sizes 0, 1 and 4095 of
    the specification's list. *)
Lemma rsa_envelope_roundtrip_small (self : RSACipher.t)
    (input_file container output_file : string) (k : bytes) (kw : kwargs)
    (priv data : bytes) (w : world) :
  kw_public_key kw = Some (rsa_public_key priv) →
  kw_private_key kw = Some priv →
  48 + 66 ≤ rsa_modulus_bytes (rsa_public_key priv) →
  (N.of_nat (rsa_modulus_bytes (rsa_public_key priv)) < 2 ^ 32)%N →
  fs w !! input_file = Some data →
  input_file ≠ container +:+ ".temp" →
  output_file ≠ container +:+ ".temp" →
  length data < CryptoBase.default_chunk_size →
  ∃ w1 w2,
    encrypt_file self input_file container k CryptoBase.default_chunk_size kw w
      = (Ok true, w1)
    ∧ decrypt_file self container output_file k CryptoBase.default_chunk_size kw w1
      = (Ok true, w2)
    ∧ fs w2 !! output_file = Some data.
Proof.
  unfold CryptoBase.default_chunk_size.
  intros Hpub Hpriv Hmod Hmod32 Hin Hne Hno Hlen.
  destruct (rsa_envelope_run self input_file container k 4096 kw priv data w)
    as (key & iv & seed & wrapped & prefix & stream & w1 & Henc & Hc & _ & _
        & _ & Hkl & Hil & Haes & Hdec); try done; [lia|].
  destruct (Hdec output_file) as (b & wa & Hrun & Hd).
  exists w1, (wfs (delete (container +:+ ".temp") (fs wa)) wa).
  split; [done|]. split; [done|].
  rewrite (aes_cbc_encrypt_file_run 256 aes256 key iv data (with_iv iv)
             input_file _ 4096 w aes256_init) in Haes;
    [|by rewrite Hkl|done|done|done|done].
  assert (stream = concat (map (cbc_chunk key iv) (chunks 4096 data))) as ->.
  { injection Haes as Haes. apply (f_equal (.!! (container +:+ ".temp"))) in Haes.
    rewrite !lookup_insert_eq in Haes. by injection Haes as <-. }
  clear Haes.
  assert (aes_key_ok key) as Hk by (unfold aes_key_ok; lia).
  unfold AESCipher.decrypt_file in Hrun. rewrite base_decrypt_file_eq in Hrun.
  rewrite (base_file_run (AESCipher.decrypt_data aes256) _ _ key 4096 (with_iv iv)
             (concat (map (cbc_chunk key iv) (chunks 4096 data)))) in Hrun.
  2:{ by rewrite wfs_fs, lookup_insert_eq. }
  2:{ done. }
  cbv zeta in Hrun.
  assert (run_chunks (fun c => AESCipher.decrypt_data aes256 c key (with_iv iv))
            (chunks 4096 (concat (map (cbc_chunk key iv) (chunks 4096 data)))) []
          = (Ok tt, data)) as Hrc.
  { destruct data as [|a data]; [done|].
    rewrite (chunks_short 4096 (a :: data)) by (done || lia).
    cbn [map concat]. rewrite app_nil_r.
    assert (length (cbc_chunk key iv (a :: data)) ≤ 4096) as Hl.
    { rewrite cbc_chunk_length by done.
      pose proof (Nat.div_mod_eq (length (a :: data)) 16).
      pose proof (Nat.mod_upper_bound (length (a :: data)) 16).
      assert (length (a :: data) / 16 < 256)
        by (apply Nat.Div0.div_lt_upper_bound; lia).
      lia. }
    rewrite chunks_short; [|intros E; apply (f_equal length) in E;
      rewrite cbc_chunk_length in E by done; simpl in E; lia|done].
    cbn [run_chunks].
    destruct (aes_data_roundtrip BL 256 "CBC" aes256 key iv (a :: data)
                (with_iv iv) aes256_init) as (c & Hce & Hcd);
      [by rewrite Hkl|done|done|].
    rewrite (aes_cbc_encrypt_data 256 aes256 key iv (a :: data) (with_iv iv)
               aes256_init) in Hce; [|by rewrite Hkl|done|done].
    injection Hce as <-. by rewrite Hcd. }
  rewrite Hrc in Hrun. cbn [fst snd is_ok] in Hrun.
  injection Hrun as _ <-.
  rewrite !wfs_fs, lookup_delete_ne by done.
  apply lookup_insert_eq.
Qed.

End EnvelopeFacts.

Lemma rsa_envelope_roundtrip_fails_witness :
  ∃ w1 w2,
    RSACipher.encrypt_file (BC := Toy.block) (CD := Toy.codec) (R := Toy.rsa)
      EnvelopeExample.rsa2048 "plain.bin" "plain.bin.enc" []
      CryptoBase.default_chunk_size EnvelopeExample.kw
      (Example.world_with (replicate 4096 x00)) = (Ok true, w1)
    ∧ RSACipher.decrypt_file (BC := Toy.block) (R := Toy.rsa)
        EnvelopeExample.rsa2048 "plain.bin.enc" "plain.out" []
        CryptoBase.default_chunk_size EnvelopeExample.kw w1 = (Ok true, w2)
    ∧ fs w2 !! "plain.out" = Some []
    ∧ replicate 4096 x00 ≠ [].
Proof.
  apply (rsa_envelope_roundtrip_fails (CD := Toy.codec)
           toy_block_laws toy_rsa_laws EnvelopeExample.rsa2048
           "plain.bin" "plain.bin.enc" "plain.out" [] EnvelopeExample.kw
           EnvelopeExample.priv (replicate 4096 x00)).
  - reflexivity.
  - reflexivity.
  - vm_compute. lia.
  - reflexivity.
  - apply lookup_singleton_eq.
  - discriminate.
  - discriminate.
  - rewrite length_replicate. unfold CryptoBase.default_chunk_size. lia.
  - intros x Hx. apply lookup_replicate in Hx as [-> _]. vm_compute. lia.
Defined.

Lemma rsa_envelope_layout_witness :
  ∃ key iv seed wrapped prefix stream w1,
    RSACipher.encrypt_file (BC := Toy.block) (CD := Toy.codec) (R := Toy.rsa)
      EnvelopeExample.rsa2048 "plain.bin" "plain.bin.enc" []
      CryptoBase.default_chunk_size EnvelopeExample.kw
      (Example.world_with [x01; x02; x03]) = (Ok true, w1)
    ∧ fs w1 !! "plain.bin.enc" = Some (prefix ++ wrapped ++ stream)
    ∧ length prefix = 4 ∧ from_bytes_big prefix = length wrapped
    ∧ oaep_encrypt (RSA := Toy.rsa)
        (rsa_public_key (RSA := Toy.rsa) EnvelopeExample.priv) seed (key ++ iv)
      = Ok wrapped
    ∧ length key = 32 ∧ length iv = 16
    ∧ AESCipher.encrypt_file (BC := Toy.block) aes256 "plain.bin"
        ("plain.bin.enc" +:+ ".temp") key CryptoBase.default_chunk_size
        (RSACipher.with_iv iv) (Example.world_with [x01; x02; x03])
      = (Ok true,
         wfs (<["plain.bin.enc" +:+ ".temp" := stream]>
                (fs (Example.world_with [x01; x02; x03])))
             (Example.world_with [x01; x02; x03]))
    ∧ ∀ output_file, ∃ b wa,
        AESCipher.decrypt_file (BC := Toy.block) aes256
          ("plain.bin.enc" +:+ ".temp") output_file key
          CryptoBase.default_chunk_size (RSACipher.with_iv iv)
          (wfs (<["plain.bin.enc" +:+ ".temp" := stream]> (fs w1)) w1)
        = (Ok b, wa)
        ∧ RSACipher.decrypt_file (BC := Toy.block) (R := Toy.rsa)
            EnvelopeExample.rsa2048 "plain.bin.enc" output_file []
            CryptoBase.default_chunk_size EnvelopeExample.kw w1
          = (Ok true, wfs (delete ("plain.bin.enc" +:+ ".temp") (fs wa)) wa).
Proof.
  apply (rsa_envelope_layout (CD := Toy.codec) toy_rsa_laws
           EnvelopeExample.rsa2048 "plain.bin" "plain.bin.enc" []
           CryptoBase.default_chunk_size EnvelopeExample.kw
           EnvelopeExample.priv [x01; x02; x03]).
  - reflexivity.
  - reflexivity.
  - vm_compute. lia.
  - reflexivity.
  - apply lookup_singleton_eq.
  - discriminate.
  - unfold CryptoBase.default_chunk_size. lia.
Defined.

(* ===================================================================== *)
(** ** ChaCha20-Poly1305: tampering                                      *)
(* ===================================================================== *)

Section TamperFacts.

Lemma byte_xor_bit_mask_ne (x : byte) (k : nat) :
  k < 8 → byte_xor x (bit_mask k) ≠ x.
Proof.
  intros Hk E.
  assert (byte_xor (byte_xor x (bit_mask k)) (byte_xor x (bit_mask k))
          = byte_xor x (byte_xor x (bit_mask k))) as H by (by rewrite E at 1).
  assert (∀ y, byte_xor y y = x00) as Hnil.
  { intros y. unfold byte_xor.
    destruct (Byte.to_bits y) as (y0&y1&y2&y3&y4&y5&y6&y7).
    by rewrite !xorb_nilpotent. }
  rewrite Hnil in H.
  rewrite (byte_xor_comm x (byte_xor x (bit_mask k))) in H.
  rewrite (byte_xor_comm x (bit_mask k)) in H.
  rewrite byte_xor_involutive in H.
  do 8 (destruct k as [|k]; [discriminate H|]). lia.
Qed.

(** Flipping a bit inside the string changes it. *)
Lemma flip_bit_ne (i : nat) (s : bytes) : i < 8 * length s → flip_bit i s ≠ s.
Proof.
  intros Hi. unfold flip_bit.
  assert (i / 8 < length s) as Hlt by (apply Nat.Div0.div_lt_upper_bound; lia).
  destruct (lookup_lt_is_Some_2 s (i / 8) Hlt) as [x Hx]. rewrite Hx.
  intros E. apply (f_equal (.!! (i / 8))) in E.
  rewrite list_lookup_insert_eq, Hx in E by done.
  injection E as E.
  pose proof (Nat.mod_upper_bound i 8 ltac:(lia)) as Hm.
  exact (byte_xor_bit_mask_ne x (i mod 8) Hm E).
Qed.

(** A flip behind a prefix is a flip in the rest. *)
Lemma flip_bit_app (i : nat) (p s : bytes) :
  8 * length p ≤ i →
  flip_bit i (p ++ s) = p ++ flip_bit (i - 8 * length p) s.
Proof.
  intros Hi. unfold flip_bit.
  assert ((i - 8 * length p) / 8 = i / 8 - length p) as ->.
  { replace i with ((i - 8 * length p) + length p * 8) at 2 by lia.
    rewrite Nat.div_add by lia. lia. }
  assert ((i - 8 * length p) mod 8 = i mod 8) as ->.
  { replace i with ((i - 8 * length p) + length p * 8) at 2 by lia.
    by rewrite Nat.Div0.mod_add. }
  assert (length p ≤ i / 8) as Hle by (apply Nat.div_le_lower_bound; lia).
  rewrite lookup_app_r by done.
  destruct (s !! (i / 8 - length p)) as [x|] eqn:E; [|done].
  by rewrite insert_app_r_alt by done.
Qed.

End TamperFacts.

Section ToyAuth.

Lemma flip_bit_length (i : nat) (s : bytes) : length (flip_bit i s) = length s.
Proof.
  unfold flip_bit. destruct (s !! (i / 8)); [|done]. by rewrite length_insert.
Qed.

(** A flip inside a prefix leaves the rest alone. *)
Lemma flip_bit_app_l (i : nat) (p s : bytes) :
  i < 8 * length p → flip_bit i (p ++ s) = flip_bit i p ++ s.
Proof.
  intros Hi. unfold flip_bit.
  assert (i / 8 < length p) as Hlt by (apply Nat.Div0.div_lt_upper_bound; lia).
  rewrite lookup_app_l by done.
  destruct (lookup_lt_is_Some_2 p (i / 8) Hlt) as [x ->].
  by rewrite insert_app_l.
Qed.

Lemma byte_xor_inj_l (a x y : byte) : byte_xor a x = byte_xor a y → x = y.
Proof.
  intros E. rewrite <- (byte_xor_involutive x a), <- (byte_xor_involutive y a).
  by rewrite (byte_xor_comm x a), (byte_xor_comm y a), E.
Qed.

Lemma byte_xor_inj_r (s x y : byte) : byte_xor x s = byte_xor y s → x = y.
Proof.
  intros E. by rewrite <- (byte_xor_involutive x s), E, byte_xor_involutive.
Qed.

(** The checksum notices a change of one byte. *)
Lemma toy_checksum_insert (l : bytes) (k : nat) (x x' : byte) :
  l !! k = Some x → x' ≠ x →
  Toy.checksum (<[k := x']> l) ≠ Toy.checksum l.
Proof.
  revert k. induction l as [|a l IH]; intros k Hk Hne; [done|].
  destruct k as [|k]; cbn in *.
  - injection Hk as ->. intros E. by apply byte_xor_inj_r in E.
  - intros E. apply byte_xor_inj_l in E. by apply (IH k).
Qed.

Lemma toy_checksum_flip (p m s : bytes) (j : nat) :
  j < 8 * length m →
  Toy.checksum (p ++ flip_bit j m ++ s) ≠ Toy.checksum (p ++ m ++ s).
Proof.
  intros Hj. unfold flip_bit.
  assert (j / 8 < length m) as Hlt by (apply Nat.Div0.div_lt_upper_bound; lia).
  destruct (lookup_lt_is_Some_2 m (j / 8) Hlt) as [x Hx]. rewrite Hx.
  pose proof (Nat.mod_upper_bound j 8 ltac:(lia)) as Hm.
  rewrite <- insert_app_l by done. rewrite <- insert_app_r.
  apply (toy_checksum_insert _ _ x).
  - rewrite lookup_app_r by lia.
    replace (length p + j / 8 - length p) with (j / 8) by lia.
    by rewrite lookup_app_l.
  - by apply byte_xor_bit_mask_ne.
Qed.

(** The reference AEAD authenticates. *)
Lemma toy_aead_auth : AEADAuth Toy.aead.
Proof.
  split.
  - intros key nonce c ad p _ _.
    cbn [aead_encrypt aead_decrypt Toy.aead]. cbv zeta.
    destruct (16 <=? length c) eqn:El; [|done]. cbn [andb].
    destruct (bytes_eqb _ _) eqn:Et; [|done].
    apply bytes_eqb_eq in Et. intros [= <-].
    rewrite map_byte_xor_twice, <- Et. by rewrite take_drop.
  - intros key nonce data ad j _ _.
    cbn [aead_encrypt aead_decrypt Toy.aead]. cbv zeta.
    set (ct := map (byte_xor (Toy.checksum key)) data).
    assert (length (Toy.tag key nonce ct ad) = 16) as Ht by done.
    rewrite length_app, Ht. intros Hj.
    rewrite flip_bit_length, length_app, Ht.
    replace (length ct + 16 - 16) with (length ct) by lia.
    assert ((16 <=? length ct + 16) = true) as -> by (apply Nat.leb_le; lia).
    cbn [andb].
    assert (bytes_eqb
              (drop (length ct) (flip_bit j (ct ++ Toy.tag key nonce ct ad)))
              (Toy.tag key nonce
                 (take (length ct) (flip_bit j (ct ++ Toy.tag key nonce ct ad)))
                 ad) = false) as ->; [|done].
    apply not_true_is_false. intros E%bytes_eqb_eq.
    destruct (decide (j < 8 * length ct)) as [Hin|Hout].
    + rewrite flip_bit_app_l in E by done.
      rewrite <- (flip_bit_length j ct) in E at 1 2.
      rewrite take_app_length, drop_app_length in E.
      unfold Toy.tag in E. injection E as E.
      symmetry in E. revert E.
      rewrite (app_assoc key nonce), (app_assoc key nonce).
      by apply toy_checksum_flip.
    + rewrite flip_bit_app in E by lia.
      rewrite take_app_length, drop_app_length in E.
      revert E. apply flip_bit_ne. rewrite Ht. lia.
Qed.

End ToyAuth.

Section ChaChaTamper.
Context {AE : AEAD} {CD : Codec} (AU : AEADAuth AE).

Import ChaCha20Cipher.

(** C4. When [C = encrypt_data(P, K)] and one bit of [C] behind the
    12-byte nonce (in the encrypted data or in the tag) is flipped,
    [decrypt_data] raises the built-in [ValueError]: there is no
    [IntegrityError]. And [decrypt_data] never returns altered
    plaintext: whatever it returns for an input of at least 12 bytes is
    the plaintext whose encryption under the nonce of that input is the
    input itself. *)
Theorem chacha_tamper_detected (self : ChaCha20Cipher.t) (P K C : bytes)
    (kw : kwargs) (w w' : world) (i : nat) :
  encrypt_data self P K kw w = (Ok C, w') →
  96 ≤ i < 8 * length C →
  flip_bit i C ≠ C
  ∧ decrypt_data self (flip_bit i C) K kw = Raise ValueError
  ∧ (∀ C' p, 12 ≤ length C' → decrypt_data self C' K kw = Ok p →
       C' = take 12 C' ++ aead_encrypt K (take 12 C') p (kw_associated_data kw)).
Proof.
  intros Henc Hi.
  assert (length K = 32) as Hk.
  { unfold encrypt_data, try_except, bind, lift, ChaCha20Poly1305 in Henc.
    destruct (length K =? 32) eqn:E; [by apply Nat.eqb_eq|done]. }
  destruct (chacha_encrypt_shape self P K kw w Hk) as (nonce & w1 & _ & Hn & Hs).
  rewrite Hs in Henc. injection Henc as <- <-.
  set (ct := aead_encrypt K nonce P (kw_associated_data kw)) in *.
  rewrite length_app, Hn in Hi.
  split; [apply flip_bit_ne; rewrite length_app; lia|].
  assert (∀ C', decrypt_data self C' K kw
      = match aead_decrypt K (take 12 C') (drop 12 C') (kw_associated_data kw) with
        | Ok p => Ok p
        | Raise InvalidTag => Raise ValueError
        | Raise _ => Raise RuntimeError
        end) as Hdec.
  { intros C'. unfold decrypt_data, ChaCha20Poly1305. rewrite Hk.
    reflexivity. }
  split.
  - rewrite Hdec, flip_bit_app by lia. rewrite Hn.
    change (8 * 12) with 96.
    rewrite <- Hn at 1 3. rewrite take_app_length, drop_app_length.
    unfold ct. rewrite aead_decrypt_flipped; [done|done|done|].
    fold ct. lia.
  - intros C' p Hl. rewrite Hdec.
    destruct (aead_decrypt K (take 12 C') (drop 12 C') (kw_associated_data kw))
      as [q|[]] eqn:Ed; intros H; try discriminate H.
    injection H as ->.
    apply aead_decrypt_sound in Ed; [|done|rewrite length_take; lia].
    by rewrite <- Ed, take_drop.
Qed.

End ChaChaTamper.

Lemma chacha_tamper_detected_witness :
  flip_bit 100 TamperExample.ciphertext ≠ TamperExample.ciphertext
  ∧ ChaCha20Cipher.decrypt_data (AE := Toy.aead) ChaCha20Cipher.init
      (flip_bit 100 TamperExample.ciphertext) Example.key32 no_kwargs
    = Raise ValueError
  ∧ (∀ C' p, 12 ≤ length C' →
       ChaCha20Cipher.decrypt_data (AE := Toy.aead) ChaCha20Cipher.init
         C' Example.key32 no_kwargs = Ok p →
       C' = take 12 C'
            ++ aead_encrypt (AEAD := Toy.aead) Example.key32 (take 12 C') p None).
Proof.
  apply (chacha_tamper_detected toy_aead_auth
           ChaCha20Cipher.init [x01; x02; x03] Example.key32
           TamperExample.ciphertext no_kwargs Toy.world0
           (ChaCha20Cipher.encrypt_data (AE := Toy.aead) ChaCha20Cipher.init
              [x01; x02; x03] Example.key32 no_kwargs Toy.world0).2 100).
  - vm_compute. reflexivity.
  - vm_compute. lia.
Defined.

(** C4 as stated fails: a flipped tag bit makes [decrypt_data] raise
    [ValueError], the built-in exception that [AESCipher.decrypt_data]
    raises when no IV is given; there is no exception class of its own
    for a failed integrity check. *)
Lemma chacha_tamper_counterexample :
  ChaCha20Cipher.decrypt_data (AE := Toy.aead) ChaCha20Cipher.init
    (flip_bit 150 TamperExample.ciphertext) Example.key32 no_kwargs
  = Raise ValueError
  ∧ AESCipher.decrypt_data (BC := Toy.block) aes256
      TamperExample.ciphertext Example.key32 no_kwargs
    = Raise ValueError.
Proof. split; vm_compute; reflexivity. Qed.

(* ===================================================================== *)
(** ** The key manager                                                   *)
(* ===================================================================== *)

Section PathFacts.

Import KeyManager.

Lemma str_length_app (s t : string) :
  String.length (s +:+ t) = String.length s + String.length t.
Proof.
  induction s as [|a s IH]; [done|].
  change (S (String.length (s +:+ t)) = S (String.length s + String.length t)).
  by rewrite IH.
Qed.

Lemma str_app_inv_tail (s1 s2 t : string) :
  String.length s1 = String.length s2 → s1 +:+ t = s2 +:+ t → s1 = s2.
Proof.
  revert s2. induction s1 as [|a s1 IH]; intros [|c s2] Hl E; cbn in *;
    try done.
  injection E as -> E. f_equal. apply IH; [lia|done].
Qed.

Lemma str_app_assoc (a b c : string) : (a +:+ b) +:+ c = a +:+ (b +:+ c).
Proof.
  induction a as [|x a IH]; [done|].
  change (String x ((a +:+ b) +:+ c) = String x (a +:+ (b +:+ c))).
  by rewrite IH.
Qed.

Lemma str_length_zero (s : string) : String.length s = 0 → s = EmptyString.
Proof. by destruct s. Qed.

Lemma replace_char_length (old new : ascii) (s : string) :
  String.length (replace_char old new s) = String.length s.
Proof. induction s as [|a s IH]; [done|]. cbn. by rewrite IH. Qed.

Lemma sanitize_length (s : string) :
  String.length (sanitize s) = String.length s.
Proof. unfold sanitize. by rewrite !replace_char_length. Qed.

(** Two file names of one length lie at different paths. *)
Lemma path_join_ne (a b1 b2 : string) :
  String.length b1 = String.length b2 → b1 ≠ b2 →
  path_join a b1 ≠ path_join a b2.
Proof.
  intros Hl Hne. unfold path_join.
  assert (∀ pre x y, String.length x = String.length y → x = pre +:+ y → x = y)
    as Habs.
  { intros pre x y Hxy E. apply (f_equal String.length) in E as E'.
    rewrite str_length_app in E'.
    assert (pre = EmptyString) as -> by (apply str_length_zero; lia). done. }
  destruct (String.prefix "/" b1), (String.prefix "/" b2); [done|..].
  - destruct (_ || _); intros E; apply Hne.
    + by apply (Habs a).
    + apply (Habs (a +:+ "/")); [done|].
      rewrite E. symmetry. apply str_app_assoc.
  - destruct (_ || _); intros E; apply Hne; symmetry.
    + by apply (Habs a).
    + apply (Habs (a +:+ "/")); [done|].
      rewrite <- E. symmetry. apply str_app_assoc.
  - destruct (_ || _); intros E; apply Hne.
    + by apply (inj (String.app a)) in E.
    + apply (inj (String.app a)) in E. by injection E.
Qed.

(** The sanitised name and the name itself never share a file, unless
    sanitising changes nothing. *)
Lemma key_path_sanitize_ne (km : KeyManager.t) (key_name : string) :
  sanitize key_name ≠ key_name →
  key_path km (sanitize key_name) ≠ key_path km key_name.
Proof.
  intros Hne. unfold key_path. apply path_join_ne.
  - by rewrite !str_length_app, sanitize_length.
  - intros E. apply Hne. apply (str_app_inv_tail _ _ ".key"); [|done].
    apply sanitize_length.
Qed.

End PathFacts.

Section KeyStoreFacts.
Context {CD : Codec} {KW : KeyWrap}.

Import KeyManager.

(** A successful [save_key] writes one file, at the path of the
    sanitised name, and returns that path. *)
Lemma save_key_run (self : KeyManager.t) (key_data : dict) (key_name : string)
    (password : option string) (w w1 : world) (p : string) :
  save_key self key_data key_name password w = (Ok p, w1) →
  p = key_path self (sanitize key_name)
  ∧ ∃ content,
      fs w1 = <[p := content]> (fs w)
      ∧ stored key_data (sanitize key_name) (now w) password content.
Proof.
  unfold save_key, stored. intros H.
  unfold bind at 1 in H. unfold datetime_now_isoformat at 1 in H.
  fold (save_record key_data (sanitize key_name) (now w)) in H.
  destruct (truthy_str password).
  - unfold bind at 1 in H. unfold _derive_key_from_password at 1 in H.
    unfold bind at 1 in H.
    destruct (urandom_length 16 w) as (salt & wa & Hu & Hsl & Hfa).
    rewrite Hu in H. unfold ret at 1 in H. cbn [fst snd] in H.
    fold (derived_key (default EmptyString password) salt) in H.
    unfold bind at 1 in H. unfold lift at 1 in H.
    destruct (json_dumps _ None) as [text|e] eqn:Ej; [|done].
    unfold bind at 1 in H.
    destruct (urandom_length 16 wa) as (iv & wb & Hu2 & _ & Hfb).
    rewrite Hu2 in H.
    unfold bind at 1 in H. unfold lift at 1 in H.
    destruct (fernet_encrypt _ iv (blit text)) as [tok|e] eqn:Ef; [|done].
    unfold bind at 1 in H. rewrite open_wb_run in H.
    unfold bind at 1 in H.
    rewrite (write_run _ _ []) in H by (by rewrite wfs_fs, lookup_insert_eq).
    unfold bind at 1 in H.
    rewrite (write_run _ _ ([] ++ blit "ENCRYPTED:")) in H
      by (by rewrite wfs_fs, lookup_insert_eq).
    unfold bind at 1 in H.
    rewrite (write_run _ _ (([] ++ blit "ENCRYPTED:") ++ salt)) in H
      by (by rewrite wfs_fs, lookup_insert_eq).
    unfold ret in H. injection H as <- <-. split; [done|].
    eexists. split.
    + rewrite !wfs_fs, !insert_insert_eq. by rewrite Hfb, Hfa.
    + exists salt, iv, text, tok. split; [done|]. split; [done|].
      split; [done|]. reflexivity.
  - unfold bind at 1 in H. rewrite open_wb_run in H.
    unfold bind at 1 in H. unfold lift at 1 in H.
    destruct (json_dumps _ (Some 2)) as [text|e] eqn:Ej; [|done].
    unfold bind at 1 in H.
    rewrite (write_run _ _ []) in H by (by rewrite wfs_fs, lookup_insert_eq).
    unfold ret in H. injection H as <- <-. split; [done|].
    eexists. split.
    + by rewrite !wfs_fs, !insert_insert_eq.
    + by exists text.
Qed.

(** [load_key] and [delete_key] on a name with no file. *)
Lemma load_key_missing (self : KeyManager.t) (key_name : string)
    (password : option string) (w : world) :
  fs w !! key_path self key_name = None →
  load_key self key_name password w = (Ok None, w).
Proof.
  intros H. unfold load_key, bind, path_exists.
  rewrite bool_decide_eq_false_2 by (rewrite H; by intros [? ?]). done.
Qed.

(** [delete_key] finds no file (lines 243-245). *)
Lemma delete_key_absent (self : KeyManager.t) (key_name : string) (w : world) :
  fs w !! key_path self key_name = None →
  delete_key self key_name w = (Ok false, w).
Proof.
  intros H. unfold delete_key, bind, path_exists.
  rewrite bool_decide_eq_false_2 by (rewrite H; by intros [? ?]). done.
Qed.

(** C9 (amended). For every key name for which no stored record exists,
    [delete_key] returns [False] (it reports failure), raises nothing
    and leaves the store as it was. *)
Theorem delete_key_missing (self : KeyManager.t) (key_name : string) (w : world) :
  fs w !! key_path self key_name = None →
  delete_key self key_name w = (Ok false, w).
Proof.
  intros H. unfold delete_key, bind, path_exists.
  rewrite bool_decide_eq_false_2 by (rewrite H; by intros [? ?]). done.
Qed.

(** On a stored record [delete_key] returns [True] and removes the
    file. *)
Lemma delete_key_present (self : KeyManager.t) (key_name : string)
    (content : bytes) (w : world) :
  fs w !! key_path self key_name = Some content →
  delete_key self key_name w
  = (Ok true, wfs (delete (key_path self key_name) (fs w)) w).
Proof.
  intros H. unfold delete_key, bind, path_exists.
  rewrite bool_decide_eq_true_2 by (rewrite H; eauto). cbn [negb].
  unfold try_except, bind, remove. by rewrite H.
Qed.

(** C8. The code after a successful [save_key] under a name that
    sanitising changes (a space, a slash or a backslash in it): when no
    file lies at the path of the unchanged name, [load_key] with that
    same name returns [None] and [delete_key] returns [False], whatever
    the password; the record sits at the path of the sanitised name,
    which only [save_key] computes. *)
Theorem unsanitized_name_not_found (self : KeyManager.t) (key_data : dict)
    (key_name : string) (password : option string) (w w1 : world) (p : string) :
  save_key self key_data key_name password w = (Ok p, w1) →
  sanitize key_name ≠ key_name →
  fs w !! key_path self key_name = None →
  load_key self key_name password w1 = (Ok None, w1)
  ∧ delete_key self key_name w1 = (Ok false, w1)
  ∧ is_Some (fs w1 !! key_path self (sanitize key_name)).
Proof.
  intros Hs Hne Hnone.
  destruct (save_key_run _ _ _ _ _ _ _ Hs) as (-> & content & Hfs & _).
  assert (fs w1 !! key_path self key_name = None) as Hn1.
  { rewrite Hfs, lookup_insert_ne; [done|]. by apply key_path_sanitize_ne. }
  split; [by apply load_key_missing|]. split; [by apply delete_key_absent|].
  rewrite Hfs, lookup_insert_eq. eauto.
Qed.

(** [load_key] on a protected record (lines 143-162): without a
    password, or with one under whose derived key Fernet refuses the
    token, the result is [None]. *)
Lemma load_key_protected_none (self : KeyManager.t) (key_name : string)
    (password : option string) (rest : bytes) (w : world) :
  fs w !! key_path self key_name = Some (blit "ENCRYPTED:" ++ rest) →
  (∀ pw, password = Some pw →
     ∃ e, fernet_decrypt (derived_key pw (take 16 rest)) (drop 16 rest)
          = Raise e) →
  load_key self key_name password w = (Ok None, w).
Proof.
  intros Hf Hrej. unfold load_key.
  unfold bind at 1. unfold path_exists at 1.
  rewrite bool_decide_eq_true_2 by (rewrite Hf; eauto). cbn [negb].
  unfold try_except.
  unfold bind at 1. rewrite (open_rb_run _ _ _ Hf).
  unfold bind at 1. rewrite (contents_run _ _ _ Hf).
  unfold bind at 1. unfold read_record.
  rewrite startswith_app.
  destruct (truthy_str password) eqn:Et; cbn [negb]; [|done].
  destruct password as [pw|]; [|done].
  destruct (Hrej pw eq_refl) as [e He].
  unfold bind at 1. unfold _derive_key_from_password at 1.
  unfold bind at 1. unfold ret at 1. unfold ret at 1. cbn [fst snd].
  change (drop 10 (blit "ENCRYPTED:" ++ rest)) with rest.
  change (drop 26 (blit "ENCRYPTED:" ++ rest)) with (drop 16 rest).
  cbn [default from_option id].
  fold (derived_key pw (take 16 rest)).
  unfold try_except, bind at 1, lift at 1. by rewrite He.
Qed.

(** C5 (amended). After [save_key] with a password, [load_key] with the
    name the record is stored under and a password under whose derived
    key Fernet does not authenticate the stored token (or with no
    password) returns [None]: no exception is raised, there is no
    [WrongPasswordError], no key material is returned, and the store is
    unchanged; a name with no record gives the same [None]. *)
Theorem load_wrong_password_none (self : KeyManager.t) (key_data : dict)
    (key_name password : string) (other : option string) (w w1 : world)
    (p : string) :
  save_key self key_data key_name (Some password) w = (Ok p, w1) →
  password ≠ EmptyString →
  sanitize key_name = key_name →
  (∀ pw file_data, other = Some pw → fs w1 !! p = Some file_data →
     ∃ e, fernet_decrypt (derived_key pw (take 16 (drop 10 file_data)))
            (drop 26 file_data) = Raise e) →
  load_key self key_name other w1 = (Ok None, w1)
  ∧ (∀ missing, fs w1 !! key_path self missing = None →
       load_key self missing other w1 = (Ok None, w1)).
Proof.
  intros Hs Hpw Hname Hrej.
  destruct (save_key_run _ _ _ _ _ _ _ Hs) as (-> & content & Hfs & Hst).
  unfold stored in Hst.
  assert (truthy_str (Some password) = true) as Ht by (by destruct password).
  rewrite Ht in Hst. destruct Hst as (salt & iv & text & tok & Hsl & _ & _ & ->).
  rewrite Hname in *.
  assert (fs w1 !! key_path self key_name
          = Some (blit "ENCRYPTED:" ++ salt ++ tok)) as Hf
    by (by rewrite Hfs, lookup_insert_eq).
  split; [|intros missing Hm; by apply load_key_missing].
  apply (load_key_protected_none self key_name other (salt ++ tok) w1 Hf).
  intros pw Ho. exact (Hrej pw _ Ho Hf).
Qed.

End KeyStoreFacts.

Lemma delete_key_missing_witness :
  fs Toy.world0 !! KeyManager.key_path KeyExample.km "k1" = None
  ∧ KeyManager.delete_key KeyExample.km "k1" Toy.world0 = (Ok false, Toy.world0).
Proof.
  assert (fs Toy.world0 !! KeyManager.key_path KeyExample.km "k1" = None) as H
    by apply lookup_empty.
  split; [exact H|]. exact (delete_key_missing KeyExample.km "k1" Toy.world0 H).
Defined.

(** C9 as stated fails: deleting a name with no record reports failure
    ([False], line 245), here next to a stored record of another name. *)
Lemma delete_key_missing_counterexample :
  ∃ p w1,
    KeyExample.save "k1" None = (Ok p, w1)
    ∧ KeyManager.delete_key KeyExample.km "k2" w1 = (Ok false, w1)
    ∧ KeyManager.delete_key KeyExample.km "k2" w1 ≠ (Ok true, w1).
Proof.
  eexists _, _. split; [vm_compute; reflexivity|]. split; [vm_compute; reflexivity|]. vm_compute. discriminate.
Qed.

Lemma unsanitized_name_not_found_witness :
  ∃ p w1,
    KeyExample.save "my key" None = (Ok p, w1)
    ∧ KeyManager.load_key (CD := Toy.codec) (KW := Toy.keywrap)
        KeyExample.km "my key" None w1 = (Ok None, w1)
    ∧ KeyManager.delete_key KeyExample.km "my key" w1 = (Ok false, w1)
    ∧ is_Some (fs w1 !! KeyManager.key_path KeyExample.km
                 (KeyManager.sanitize "my key")).
Proof.
  eexists _, _. split; [vm_compute; reflexivity|].
  eapply (unsanitized_name_not_found (CD := Toy.codec) (KW := Toy.keywrap)
            KeyExample.km KeyExample.aes_key "my key" None Toy.world0).
  - vm_compute. reflexivity.
  - discriminate.
  - apply lookup_empty.
Defined.

(** C6. The code at the name [my key] and the password [secret]:
    [save_key] stores the record as [keys/my_key.key]; [load_key] with the
    same name and password looks for [keys/my key.key] and returns [None]
    instead of the key material. *)
Theorem save_load_spaced_name :
  ∃ w1,
    KeyExample.save "my key" (Some "secret") = (Ok "keys/my_key.key", w1)
    ∧ KeyManager.load_key (CD := Toy.codec) (KW := Toy.keywrap)
        KeyExample.km "my key" (Some "secret") w1 = (Ok None, w1)
    ∧ dict_get KeyExample.aes_key "key" ≠ None.
Proof.
  eexists. split; [vm_compute; reflexivity|].
  split; [vm_compute; reflexivity|]. discriminate.
Qed.

Lemma load_wrong_password_none_witness :
  ∃ p w1,
    KeyExample.save "k1" (Some "secret") = (Ok p, w1)
    ∧ KeyManager.load_key (CD := Toy.codec) (KW := Toy.keywrap)
        KeyExample.km "k1" (Some "Secret") w1 = (Ok None, w1).
Proof.
  eexists _, _. split; [vm_compute; reflexivity|].
  edestruct (load_wrong_password_none (CD := Toy.codec) (KW := Toy.keywrap)
               KeyExample.km KeyExample.aes_key "k1" "secret" (Some "Secret")
               Toy.world0) as [H _]; [| | | |exact H].
  - vm_compute. reflexivity.
  - discriminate.
  - reflexivity.
  - intros pw file_data [= <-] Hf. vm_compute in Hf. injection Hf as <-.
    eexists. vm_compute. reflexivity.
Defined.

(** C5 as stated fails: with a wrong password [load_key] returns [None]
    (line 162); the call raises nothing. *)
Lemma load_wrong_password_counterexample :
  ∃ p w1,
    KeyExample.save "k1" (Some "secret") = (Ok p, w1)
    ∧ KeyManager.load_key (CD := Toy.codec) (KW := Toy.keywrap)
        KeyExample.km "k1" (Some "Secret") w1 = (Ok None, w1)
    ∧ ∀ e, KeyManager.load_key (CD := Toy.codec) (KW := Toy.keywrap)
             KeyExample.km "k1" (Some "Secret") w1 ≠ (Raise e, w1).
Proof.
  eexists _, _. split; [vm_compute; reflexivity|].
  split; [vm_compute; reflexivity|]. intros e. vm_compute. discriminate.
Qed.

(* ===================================================================== *)
(** ** The key manager: what [load_key] returns after [save_key]         *)
(* ===================================================================== *)

Section KeyRoundTrip.
Context {CD : Codec} {KW : KeyWrap}.
Context (CL : CodecLaws CD) (KL : KeyWrapLaws CD KW).

Import KeyManager.

Lemma dict_set_keys (d : dict) (k : string) (v : pyval) :
  (dict_set d k v).*1 = if bool_decide (k ∈ d.*1) then d.*1 else d.*1 ++ [k].
Proof.
  induction d as [|[k' v'] d IH]; [done|].
  cbn [dict_set fmap list_fmap fst].
  destruct (String.eqb k' k) eqn:E.
  - apply String.eqb_eq in E as ->.
    rewrite bool_decide_eq_true_2 by (cbn; left). done.
  - apply String.eqb_neq in E.
    cbn [fmap list_fmap fst]. change (list_fmap _ _ fst ?l) with (l.*1).
    rewrite IH. destruct (bool_decide (k ∈ d.*1)) eqn:Ed.
    + apply bool_decide_eq_true in Ed.
      rewrite bool_decide_eq_true_2 by (cbn; by right). done.
    + apply bool_decide_eq_false in Ed.
      rewrite bool_decide_eq_false_2; [done|].
      cbn. intros [->|?]%elem_of_cons; done.
Qed.

Lemma dict_set_NoDup (d : dict) (k : string) (v : pyval) :
  NoDup d.*1 → NoDup (dict_set d k v).*1.
Proof.
  intros H. rewrite dict_set_keys. destruct (bool_decide (k ∈ d.*1)) eqn:E; [done|].
  apply bool_decide_eq_false in E. apply NoDup_app. split; [done|].
  split; [|apply NoDup_singleton].
  intros x Hx ->%list_elem_of_singleton. done.
Qed.

Lemma save_fields_NoDup (save_data items : dict) :
  NoDup save_data.*1 → NoDup (save_fields save_data items).*1.
Proof.
  revert save_data. induction items as [|[k v] items IH]; intros sd H; [done|].
  cbn [save_fields]. destruct v; apply IH; try done; by apply dict_set_NoDup.
Qed.

Lemma save_record_NoDup (key_data : dict) (key_name created : string) :
  NoDup (save_record key_data key_name created).*1.
Proof.
  apply save_fields_NoDup. cbn.
  repeat (apply NoDup_cons; split; [set_solver|]). apply NoDup_nil_2.
Qed.

Lemma startswith_json (text : string) :
  String.prefix "{" text = true → startswith (blit text) (blit "ENCRYPTED:") = false.
Proof.
  destruct text as [|c text]; [done|]. cbn [String.prefix].
  destruct (Ascii.ascii_dec "{" c) as [<-|]; [|done]. intros _. done.
Qed.

(** After a successful [save_key] of a record [json] can write, under a
    name sanitising leaves alone, [load_key] with the same name and
    password returns the fields [load_fields] rebuilds from the saved
    record; the store is not changed. *)
Lemma save_then_load (self : KeyManager.t) (key_data : dict)
    (key_name : string) (password : option string) (w w1 : world) (p : string) :
  sanitize key_name = key_name →
  save_key self key_data key_name password w = (Ok p, w1) →
  json_safe (save_record key_data key_name (now w)) = true →
  load_key self key_name password w1
  = (Ok (Some (load_fields [] (save_record key_data key_name (now w)))), w1).
Proof.
  intros Hname Hs Hsafe.
  destruct (save_key_run _ _ _ _ _ _ _ Hs) as (-> & content & Hfs & Hst).
  rewrite Hname in *.
  set (record := save_record key_data key_name (now w)) in *.
  assert (fs w1 !! key_path self key_name = Some content) as Hf
    by (by rewrite Hfs, lookup_insert_eq).
  unfold load_key.
  unfold bind at 1. unfold path_exists at 1.
  rewrite bool_decide_eq_true_2 by (rewrite Hf; eauto). cbn [negb].
  unfold try_except.
  unfold bind at 1. rewrite (open_rb_run _ _ _ Hf).
  unfold bind at 1. rewrite (contents_run _ _ _ Hf).
  unfold bind at 1. unfold read_record.
  unfold stored in Hst. destruct (truthy_str password) eqn:Et.
  - destruct Hst as (salt & iv & text & tok & Hsl & Hj & Hfe & ->).
    rewrite startswith_app. cbn [negb].
    destruct (json_loads_dumps record None Hsafe (save_record_NoDup _ _ _))
      as (text' & Hj' & Hl & _).
    fold record in Hj. rewrite Hj in Hj'. injection Hj' as <-.
    unfold bind at 1. unfold _derive_key_from_password at 1.
    unfold bind at 1. unfold ret at 1. unfold ret at 1. cbn [fst snd].
    change (drop 10 (blit "ENCRYPTED:" ++ salt ++ tok)) with (salt ++ tok).
    change (drop 26 (blit "ENCRYPTED:" ++ salt ++ tok)) with (drop 16 (salt ++ tok)).
    assert (take 16 (salt ++ tok) = salt) as ->
      by (by rewrite <- Hsl, take_app_length).
    assert (drop 16 (salt ++ tok) = tok) as ->
      by (by rewrite <- Hsl, drop_app_length).
    fold (derived_key (default EmptyString password) salt).
    unfold try_except. unfold bind at 1. unfold lift at 1.
    rewrite (fernet_decrypt_encrypt _ _ _ _ Hfe).
    unfold bind at 1. unfold lift at 1. rewrite utf8_decode_encode.
    unfold bind at 1. unfold lift at 1. rewrite Hl. done.
  - destruct Hst as (text & Hj & ->).
    destruct (json_loads_dumps record (Some 2) Hsafe (save_record_NoDup _ _ _))
      as (text' & Hj' & Hl & Hb).
    fold record in Hj. rewrite Hj in Hj'. injection Hj' as <-.
    rewrite (startswith_json text Hb).
    unfold bind at 1. unfold lift at 1. rewrite utf8_decode_encode.
    unfold bind at 1. unfold lift at 1. rewrite Hl. done.
Qed.

Lemma load_fields_encoded (result rest : dict) (key : string) (raw : bytes) :
  is_b64_field key = true →
  load_fields result ((key, VStr (b64encode raw)) :: rest)
  = load_fields
      (dict_set (dict_set result key (VStr (b64encode raw)))
                (remove_b64 key) (VBytes raw))
      rest.
Proof.
  intros H. cbn [load_fields]. fold (is_b64_field key). rewrite H.
  by rewrite b64decode_encode.
Qed.

Lemma load_fields_plain (result rest : dict) (key : string) (v : pyval) :
  is_b64_field key = false →
  load_fields result ((key, v) :: rest) = load_fields (dict_set result key v) rest.
Proof.
  intros H. cbn [load_fields]. fold (is_b64_field key). by rewrite H.
Qed.

(** Saving and loading an AES key dictionary under a name sanitising
    leaves alone, with the same password or none, gives back the key and
    the IV byte for byte. *)
Lemma save_load_aes_key (self : KeyManager.t) (name mode : string)
    (key_size : nat) (key iv : bytes) (key_name : string)
    (password : option string) (w w1 : world) (p : string) :
  sanitize key_name = key_name →
  save_key self (aes_key_dict name mode key_size key iv) key_name password w
  = (Ok p, w1) →
  ∃ result,
    load_key self key_name password w1 = (Ok (Some result), w1)
    ∧ dict_get result "key" = Some (VBytes key)
    ∧ dict_get result "iv" = Some (VBytes iv).
Proof.
  intros Hname Hs. eexists. split.
  - apply (save_then_load self _ key_name password w w1 p Hname Hs).
    reflexivity.
  - unfold save_record, aes_key_dict.
    cbn [save_fields dict_get dict_set String.eqb Ascii.eqb Bool.eqb
         default from_option id].
    rewrite (load_fields_plain _ _ "name") by reflexivity.
    rewrite (load_fields_plain _ _ "algorithm") by reflexivity.
    rewrite (load_fields_plain _ _ "created_at") by reflexivity.
    rewrite (load_fields_encoded _ _ "key") by reflexivity.
    rewrite (load_fields_encoded _ _ "iv") by reflexivity.
    rewrite (load_fields_encoded _ _ "key_b64") by reflexivity.
    rewrite (load_fields_encoded _ _ "iv_b64") by reflexivity.
    rewrite (load_fields_plain _ _ "key_size") by reflexivity.
    rewrite (load_fields_plain _ _ "mode") by reflexivity.
    split; reflexivity.
Qed.

(** The same for the PEM halves of an RSA key dictionary. *)
Lemma save_load_rsa_key (self : KeyManager.t) (name : string)
    (key_size : nat) (private_key public_key private_pem public_pem : bytes)
    (key_name : string) (password : option string) (w w1 : world) (p : string) :
  sanitize key_name = key_name →
  save_key self
    (rsa_key_dict name key_size private_key public_key private_pem public_pem)
    key_name password w = (Ok p, w1) →
  ∃ result,
    load_key self key_name password w1 = (Ok (Some result), w1)
    ∧ dict_get result "private_pem" = Some (VBytes private_pem)
    ∧ dict_get result "public_pem" = Some (VBytes public_pem).
Proof.
  intros Hname Hs. eexists. split.
  - apply (save_then_load self _ key_name password w w1 p Hname Hs).
    reflexivity.
  - unfold save_record, rsa_key_dict.
    cbn [save_fields dict_get dict_set String.eqb Ascii.eqb Bool.eqb
         default from_option id].
    rewrite (load_fields_plain _ _ "name") by reflexivity.
    rewrite (load_fields_plain _ _ "algorithm") by reflexivity.
    rewrite (load_fields_plain _ _ "created_at") by reflexivity.
    rewrite (load_fields_encoded _ _ "private_pem") by reflexivity.
    rewrite (load_fields_encoded _ _ "public_pem") by reflexivity.
    rewrite (load_fields_plain _ _ "key_size") by reflexivity.
    split; reflexivity.
Qed.

End KeyRoundTrip.

(* ===================================================================== *)
(** ** The reference codec and key wrapping meet their contracts         *)
(* ===================================================================== *)

Section ToyCodecFacts.

Import Toy.

Lemma read_unary_unary (n : nat) (rest : string) :
  read_unary (unary n +:+ rest) = Some (n, rest).
Proof.
  induction n as [|n IH]; [done|].
  change (read_unary (String "1" (unary n +:+ rest)) = Some (S n, rest)).
  cbn [read_unary]. by rewrite IH.
Qed.

Lemma take_str_app (s rest : string) :
  take_str (String.length s) (s +:+ rest) = Some (s, rest).
Proof.
  induction s as [|c s IH]; [by destruct rest|].
  change (take_str (S (String.length s)) (String c (s +:+ rest))
          = Some (String c s, rest)).
  cbn [take_str]. by rewrite IH.
Qed.

Lemma read_str_write (s rest : string) :
  read_str (write_str s +:+ rest) = Some (s, rest).
Proof.
  unfold read_str, write_str.
  by rewrite str_app_assoc, read_unary_unary, take_str_app.
Qed.

Lemma write_entries_length (wr : pyval → option string) (d : dict) (body : string) :
  write_entries wr d = Some body → length d < String.length body.
Proof.
  revert body. induction d as [|[k v] d IH]; intros body H.
  - injection H as <-. cbn. lia.
  - cbn [write_entries] in H.
    destruct (wr v) as [sv|]; [|done].
    destruct (write_entries wr d) as [sr|]; [|done].
    injection H as <-. specialize (IH sr eq_refl).
    change (String.length ("," +:+ write_str k +:+ sv +:+ sr))
      with (S (String.length (write_str k +:+ sv +:+ sr))).
    rewrite !str_length_app. simpl. lia.
Qed.

Lemma read_entries_write (rd : string → option (pyval * string))
    (d : dict) (body rest : string) (count : nat) :
  (∀ kv sv r, kv ∈ d → write_val kv.2 = Some sv →
              rd (sv +:+ r) = Some (kv.2, r)) →
  write_entries write_val d = Some body → length d < count →
  read_entries rd count (body +:+ rest) = Some (d, rest).
Proof.
  revert body count. induction d as [|[k v] d IH]; intros body count Hrd H Hc.
  - injection H as <-. destruct count as [|count]; [lia|]. done.
  - cbn [write_entries] in H.
    destruct (write_val v) as [sv|] eqn:Ev; [|done].
    destruct (write_entries write_val d) as [sr|] eqn:Ed; [|done].
    injection H as <-. destruct count as [|count]; [simpl in Hc; lia|].
    change (("," +:+ write_str k +:+ sv +:+ sr) +:+ rest)
      with (String "," ((write_str k +:+ sv +:+ sr) +:+ rest)).
    cbn [read_entries].
    rewrite !str_app_assoc, read_str_write.
    rewrite (Hrd (k, v) sv (sr +:+ rest)); [|left|done].
    rewrite (IH sr count); [done| |done|simpl in Hc; lia].
    intros kv sv' r Hin. apply Hrd. by right.
Qed.

Lemma depth_member (d : dict) (kv : string * pyval) :
  kv ∈ d → depth kv.2 < depth (VDict d).
Proof.
  cbn [depth]. induction 1 as [|? ? ? _ IH]; cbn [foldr]; lia.
Qed.

(** Reading undoes writing. *)
Lemma read_val_write (fuel : nat) (v : pyval) (s rest : string) :
  depth v < fuel → write_val v = Some s →
  read_val fuel (s +:+ rest) = Some (v, rest).
Proof.
  revert v s rest. induction fuel as [|fuel IH]; intros v s rest Hd Hw; [lia|].
  destruct v as [| [|] | z | x | x | d | o]; cbn [write_val] in Hw;
    try discriminate Hw.
  - by injection Hw as <-.
  - by injection Hw as <-.
  - by injection Hw as <-.
  - injection Hw as <-. destruct (z <? 0)%Z eqn:Ez.
    + change (("-" +:+ unary (Z.abs_nat z)) +:+ rest)
        with (String "-" (unary (Z.abs_nat z) +:+ rest)).
      cbn [read_val]. rewrite read_unary_unary.
      apply Z.ltb_lt in Ez. do 3 f_equal. lia.
    + change (("+" +:+ unary (Z.abs_nat z)) +:+ rest)
        with (String "+" (unary (Z.abs_nat z) +:+ rest)).
      cbn [read_val]. rewrite read_unary_unary.
      apply Z.ltb_ge in Ez. do 3 f_equal. lia.
  - injection Hw as <-.
    change (("s" +:+ write_str x) +:+ rest)
      with (String "s" (write_str x +:+ rest)).
    cbn [read_val]. by rewrite read_str_write.
  - destruct (write_entries write_val d) as [body|] eqn:Eb; [|done].
    injection Hw as <-.
    change (("{" +:+ body) +:+ rest) with (String "{" (body +:+ rest)).
    cbn [read_val].
    rewrite (read_entries_write (read_val fuel) d body rest); [done| |done|].
    + intros kv sv r Hin Hsv. apply IH; [|done].
      pose proof (depth_member d kv Hin). lia.
    + pose proof (write_entries_length _ _ _ Eb).
      change (String.length (String "{" (body +:+ rest)))
        with (S (String.length (body +:+ rest))).
      rewrite str_length_app. lia.
Qed.

Lemma write_val_depth (n : nat) (v : pyval) (s : string) :
  depth v ≤ n → write_val v = Some s → depth v ≤ String.length s.
Proof.
  revert v s. induction n as [|n IH]; intros v s Hn Hw.
  { lia. }
  destruct v as [| b | z | x | x | d | o]; cbn [depth]; try lia.
  cbn [write_val] in Hw.
  destruct (write_entries write_val d) as [body|] eqn:Eb; [|done].
  injection Hw as <-.
  change (String.length ("{" +:+ body)) with (S (String.length body)).
  apply le_n_S. cbn [depth] in Hn. apply le_S_n in Hn.
  clear -IH Hn Eb. revert body Hn Eb.
  induction d as [|[k v] d IHd]; intros body Hn Eb; [cbn; lia|].
  cbn [write_entries] in Eb. cbn [foldr snd] in Hn |- *.
  destruct (write_val v) as [sv|] eqn:Ev; [|done].
  destruct (write_entries write_val d) as [sr|] eqn:Ed; [|done].
  injection Eb as <-.
  change (String.length ("," +:+ write_str k +:+ sv +:+ sr))
    with (S (String.length (write_str k +:+ sv +:+ sr))).
  rewrite !str_length_app.
  pose proof (IH v sv ltac:(lia) Ev).
  pose proof (IHd sr ltac:(lia) eq_refl). lia.
Qed.

Lemma write_val_safe (n : nat) (v : pyval) :
  depth v ≤ n → json_safe_val v = true → is_Some (write_val v).
Proof.
  revert v. induction n as [|n IH]; intros v Hn Hs.
  - destruct v as [| [|] | z | x | x | d | o]; cbn in *; try done; lia.
  - destruct v as [| [|] | z | x | x | d | o]; cbn [write_val]; try done.
    cbn [json_safe_val] in Hs. cbn [depth] in Hn. apply le_S_n in Hn.
    assert (is_Some (write_entries write_val d)) as [body ->]; [|done].
    clear -IH Hn Hs. induction d as [|[k v] d IHd]; [done|].
    cbn [forallb snd] in Hs. apply andb_true_iff in Hs as [Hv Hd].
    cbn [foldr snd] in Hn. cbn [write_entries].
    destruct (IH v ltac:(lia) Hv) as [sv ->].
    destruct (IHd ltac:(lia) Hd) as [sr ->]. done.
Qed.

Lemma str_app_empty_r (s : string) : s +:+ EmptyString = s.
Proof.
  induction s as [|c s IH]; [done|].
  change (String c (s +:+ EmptyString) = String c s). by rewrite IH.
Qed.

Lemma toy_codec_laws : CodecLaws Toy.codec.
Proof.
  split.
  - intros x. cbn [b64decode b64encode Toy.codec].
    by rewrite String.list_byte_of_string_of_list_byte.
  - intros s. cbn [utf8_decode Toy.codec]. unfold blit.
    by rewrite String.string_of_list_byte_of_string.
  - intros d indent Hsafe _.
    destruct (write_val_safe (depth (VDict d)) (VDict d) ltac:(lia) Hsafe)
      as [s Hs].
    exists s. cbn [json_dumps json_loads Toy.codec]. rewrite Hs.
    split; [done|]. split.
    + rewrite <- (str_app_empty_r s) at 2.
      rewrite (read_val_write _ (VDict d) s EmptyString); [done| |done].
      pose proof (write_val_depth _ _ _ (le_n _) Hs). lia.
    + cbn [write_val] in Hs.
      destruct (write_entries write_val d) as [body|]; [|done].
      injection Hs as <-. change ("{" +:+ body) with (String "{" body).
      cbn [String.prefix].
      destruct (Ascii.ascii_dec "{" "{"); [by destruct body|done].
Qed.

Lemma toy_keywrap_laws : KeyWrapLaws Toy.codec Toy.keywrap.
Proof.
  split.
  - intros pw salt iters n. cbn [pbkdf2_hmac_sha256 Toy.keywrap].
    rewrite length_take, !length_app, length_replicate. lia.
  - intros raw iv msg Hl.
    cbn [fernet_encrypt urlsafe_b64encode Toy.keywrap Toy.codec].
    rewrite Hl. eauto.
  - intros key iv msg tok. cbn [fernet_encrypt fernet_decrypt Toy.keywrap].
    destruct (length key =? 32) eqn:E; [|done]. apply Nat.eqb_eq in E.
    intros [= <-]. cbn [andb].
    assert (take 32 (key ++ msg) = key) as ->
      by (rewrite <- E; apply take_app_length).
    assert (drop 32 (key ++ msg) = msg) as ->
      by (rewrite <- E; apply drop_app_length).
    by rewrite bytes_eqb_refl.
Qed.

End ToyCodecFacts.

Lemma save_load_aes_key_example :
  ∃ result,
    KeyManager.load_key (CD := Toy.codec) (KW := Toy.keywrap) KeyExample.km
      "k1" (Some "secret") saved_k1.2 = (Ok (Some result), saved_k1.2)
    ∧ dict_get result "key" = Some (VBytes Example.key32)
    ∧ dict_get result "iv" = Some (VBytes Example.iv16).
Proof.
  apply (save_load_aes_key toy_codec_laws toy_keywrap_laws
           KeyExample.km "AES-256-CBC" "CBC" 256 Example.key32 Example.iv16
           "k1" (Some "secret") Toy.world0 saved_k1.2 "keys/k1.key" eq_refl).
  vm_compute. reflexivity.
Defined.

(* ===================================================================== *)
(** ** Files: missing input, encryption in place, and round trips        *)
(* ===================================================================== *)

Section StreamFiles.

(** A transformation that keeps lengths maps the chunks of a file to the
    chunks of the transformed file. *)
Lemma chunks_concat_map (n : nat) (g : bytes → bytes) (data : bytes) :
  0 < n → (∀ c, length (g c) = length c) →
  chunks n (concat (map g (chunks n data))) = map g (chunks n data).
Proof.
  intros Hn Hg.
  remember (length data) as m eqn:Hm. revert data Hm.
  induction m as [m IH] using lt_wf_ind; intros data ->.
  destruct data as [|a data]; [by rewrite chunks_nil|].
  rewrite (chunks_step n (a :: data)) by done.
  cbn [map concat].
  destruct (decide (length (a :: data) ≤ n)) as [Hle|Hgt].
  - rewrite drop_ge by done. rewrite chunks_nil. cbn [map concat].
    rewrite app_nil_r, take_ge by done.
    apply chunks_short; [|by rewrite Hg].
    intros E. apply (f_equal length) in E. rewrite Hg in E. done.
  - rewrite chunks_app; [|done|].
    + f_equal. apply (IH (length (drop n (a :: data)))); [|done].
      rewrite length_drop. simpl. lia.
    + rewrite Hg, length_take. lia.
Qed.

(** The size of the input is asked for first, so a missing input ends
    the call before anything is written. *)
Lemma base_file_missing (f : bytes → bytes → kwargs → M bytes)
    (input_file output_file : string) (key : bytes) (n : nat) (kw : kwargs)
    (w : world) :
  fs w !! input_file = None →
  CryptoBase.encrypt_file f input_file output_file key n kw w = (Ok false, w).
Proof.
  intros Hin.
  assert (getsize input_file w = (Raise OSError, w)) as Hg
    by (unfold getsize; by rewrite Hin).
  unfold CryptoBase.encrypt_file, try_except. unfold bind at 1. by rewrite Hg.
Qed.

(** X1. When the input file does not exist, the streaming loop of
    [CryptoBase] returns [False] and changes nothing: the output file
    is not created, since the size of the input is asked for first. *)
Theorem file_missing_input_returns_false
    (f : bytes → bytes → kwargs → M bytes) (input_file output_file : string)
    (key : bytes) (n : nat) (kw : kwargs) (w : world) :
  fs w !! input_file = None →
  CryptoBase.encrypt_file f input_file output_file key n kw w = (Ok false, w)
  ∧ CryptoBase.decrypt_file f input_file output_file key n kw w = (Ok false, w).
Proof.
  intros Hin. rewrite base_decrypt_file_eq. split; by apply base_file_missing.
Qed.

(** X2. When the output path is the input path, the loop truncates the
    file before it reads it: whatever the cipher, the call returns
    [True] and leaves an empty file. *)
Theorem file_in_place_is_emptied
    (f : bytes → bytes → kwargs → M bytes) (path : string)
    (key : bytes) (n : nat) (kw : kwargs) (data : bytes) (w : world) :
  fs w !! path = Some data →
  CryptoBase.encrypt_file f path path key n kw w
  = (Ok true, wfs (<[path := []]> (fs w)) w)
  ∧ CryptoBase.decrypt_file f path path key n kw w
    = (Ok true, wfs (<[path := []]> (fs w)) w).
Proof.
  intros Hin.
  assert (CryptoBase.encrypt_file f path path key n kw w
          = (Ok true, wfs (<[path := []]> (fs w)) w)) as H; [|by split].
  unfold CryptoBase.encrypt_file, try_except.
  unfold bind at 1. rewrite (getsize_run _ _ _ Hin).
  unfold bind at 1. rewrite (open_rb_run _ _ _ Hin).
  unfold bind at 1. rewrite open_wb_run.
  unfold bind at 1.
  rewrite (contents_run path []) by (by rewrite wfs_fs, lookup_insert_eq).
  by rewrite chunks_nil.
Qed.

End StreamFiles.

Lemma file_missing_input_returns_false_witness :
  CryptoBase.encrypt_file
    (fun d k kw => lift (AESCipher.encrypt_data (BC := Toy.block) aes256 d k kw))
    "absent.bin" "out.bin" Example.key32 4096 (RSACipher.with_iv Example.iv16)
    Toy.world0 = (Ok false, Toy.world0)
  ∧ CryptoBase.decrypt_file
      (fun d k kw => lift (AESCipher.encrypt_data (BC := Toy.block) aes256 d k kw))
      "absent.bin" "out.bin" Example.key32 4096 (RSACipher.with_iv Example.iv16)
      Toy.world0 = (Ok false, Toy.world0).
Proof. apply file_missing_input_returns_false. reflexivity. Defined.

Lemma file_in_place_is_emptied_witness :
  CryptoBase.encrypt_file
    (fun d k kw => lift (AESCipher.encrypt_data (BC := Toy.block) aes256 d k kw))
    "plain.bin" "plain.bin" Example.key32 4096 (RSACipher.with_iv Example.iv16)
    (Example.world_with [x01; x02; x03])
  = (Ok true, wfs (<["plain.bin" := []]> (fs (Example.world_with [x01; x02; x03])))
                  (Example.world_with [x01; x02; x03]))
  ∧ CryptoBase.decrypt_file
      (fun d k kw => lift (AESCipher.encrypt_data (BC := Toy.block) aes256 d k kw))
      "plain.bin" "plain.bin" Example.key32 4096 (RSACipher.with_iv Example.iv16)
      (Example.world_with [x01; x02; x03])
    = (Ok true, wfs (<["plain.bin" := []]> (fs (Example.world_with [x01; x02; x03])))
                    (Example.world_with [x01; x02; x03])).
Proof.
  apply (file_in_place_is_emptied _ "plain.bin" _ _ _ [x01; x02; x03]).
  reflexivity.
Defined.

Section AESFiles.
Context {BC : BlockCipher} {CD : Codec} (BL : BlockCipherLaws BC).

Import AESCipher.

(** Outside CBC, [encrypt_data] keeps the length and [decrypt_data]
    undoes it. *)
Lemma aes_stream_data (ks : nat) (m : string) (self : AESCipher.t)
    (key iv : bytes) (kw : kwargs) :
  init ks m = Ok self → m ≠ "CBC" → length key * 8 = ks → length iv = 16 →
  kw_iv kw = Some iv →
  ∃ g : bytes → bytes,
    ∀ c, encrypt_data self c key kw = Ok (g c)
         ∧ length (g c) = length c
         ∧ decrypt_data self (g c) key kw = Ok c.
Proof.
  intros Hinit Hm Hkey Hiv Hkw.
  destruct (aes_get_cipher_ok ks m self key iv Hinit Hkey Hiv)
    as (c & Hc & Hok & Hcbc).
  pose proof Hinit as (_ & _ & ->)%aes_init_inv.
  assert (String.eqb m "CBC" = false) as Hmb by (by apply String.eqb_neq).
  rewrite Hmb in Hcbc.
  exists (fun d => match encryptor_run c d with Ok x => x | Raise _ => [] end).
  intros d.
  destruct (cipher_roundtrip BL c d Hok) as (ct & He & Hd & Hl).
  { by rewrite Hcbc. }
  rewrite He.
  unfold encrypt_data, decrypt_data. rewrite Hkw. cbn [default from_option id].
  assert (truthy (Some iv) = true) as -> by (by destruct iv).
  cbn [negb]. rewrite Hc. cbn [mode]. rewrite Hmb. done.
Qed.

(** Outside CBC: the encrypted file, and what [decrypt_file] makes of
    it in whatever world it is read. *)
Lemma aes_stream_file_run (ks : nat) (m : string) (self : AESCipher.t)
    (key iv data : bytes) (kw : kwargs)
    (input_file encrypted_file : string) (n : nat) (w : world) :
  init ks m = Ok self → m ≠ "CBC" → length key * 8 = ks → length iv = 16 →
  kw_iv kw = Some iv → 0 < n →
  fs w !! input_file = Some data → input_file ≠ encrypted_file →
  ∃ stream,
    length stream = length data
    ∧ encrypt_file self input_file encrypted_file key n kw w
      = (Ok true, wfs (<[encrypted_file := stream]> (fs w)) w)
    ∧ ∀ output_file w1,
        fs w1 !! encrypted_file = Some stream → encrypted_file ≠ output_file →
        decrypt_file self encrypted_file output_file key n kw w1
        = (Ok true, wfs (<[output_file := data]> (fs w1)) w1).
Proof.
  intros Hinit Hm Hkey Hiv Hkw Hn Hin Hne1.
  destruct (aes_stream_data ks m self key iv kw Hinit Hm Hkey Hiv Hkw)
    as (g & Hg).
  set (stream := concat (map g (chunks n data))).
  exists stream. split; [|split].
  - unfold stream.
    rewrite <- (chunks_concat n data Hn) at 2.
    generalize (chunks n data). intros l.
    induction l as [|c l IH]; [done|].
    cbn [map concat]. rewrite !length_app, IH. f_equal. apply Hg.
  - unfold encrypt_file.
    rewrite (base_file_run (encrypt_data self) _ _ key n kw data w Hin Hne1).
    cbv zeta. rewrite (run_chunks_all_ok _ g); [done|].
    apply Forall_forall. intros c _. apply Hg.
  - intros output_file w1 Hin1 Hne2.
    unfold decrypt_file. rewrite base_decrypt_file_eq.
    rewrite (base_file_run (decrypt_data self) _ _ key n kw stream w1 Hin1 Hne2).
    cbv zeta. unfold stream at 1 2.
    rewrite (chunks_concat_map n g data Hn) by apply Hg.
    set (h := fun x => match decrypt_data self x key kw with
                       | Ok y => y | Raise _ => [] end).
    assert (concat (map h (map g (chunks n data))) = data) as Hback.
    { rewrite <- (chunks_concat n data Hn) at 2.
      generalize (chunks n data). intros l.
      induction l as [|c l IH]; [done|].
      cbn [map concat]. rewrite IH. f_equal.
      unfold h. by rewrite (proj2 (proj2 (Hg c))). }
    rewrite (run_chunks_all_ok _ h).
    + cbn [fst snd is_ok app]. by rewrite Hback.
    + apply Forall_forall. intros x (c & -> & _)%list_elem_of_fmap.
      unfold h. by rewrite (proj2 (proj2 (Hg c))).
Qed.

(** Under CBC, for a file shorter than the chunk size. *)
Lemma aes_cbc_file_small_run (ks : nat) (self : AESCipher.t)
    (key iv data : bytes) (kw : kwargs)
    (input_file encrypted_file : string) (n : nat) (w : world) :
  init ks "CBC" = Ok self → length key * 8 = ks → length iv = 16 →
  kw_iv kw = Some iv → n mod 16 = 0 → length data < n →
  fs w !! input_file = Some data → input_file ≠ encrypted_file →
  let stream := if decide (data = []) then [] else cbc_chunk key iv data in
  encrypt_file self input_file encrypted_file key n kw w
  = (Ok true, wfs (<[encrypted_file := stream]> (fs w)) w)
  ∧ ∀ output_file w1,
      fs w1 !! encrypted_file = Some stream → encrypted_file ≠ output_file →
      decrypt_file self encrypted_file output_file key n kw w1
      = (Ok true, wfs (<[output_file := data]> (fs w1)) w1).
Proof.
  intros Hinit Hkey Hiv Hkw Hn16 Hlen Hin Hne1 stream.
  pose proof (aes_key_ok_of_size ks self key Hinit Hkey) as Hk.
  assert (concat (map (cbc_chunk key iv) (chunks n data)) = stream) as Hs.
  { unfold stream. destruct (decide (data = [])) as [->|Hd].
    - by rewrite chunks_nil.
    - rewrite chunks_short by (done || lia). cbn [map concat].
      by rewrite app_nil_r. }
  split.
  { rewrite (aes_cbc_encrypt_file_run ks self key iv data kw input_file
               encrypted_file n w Hinit Hkey Hiv Hkw Hin Hne1).
    by rewrite Hs. }
  intros output_file w1 Hin1 Hne2.
  unfold decrypt_file. rewrite base_decrypt_file_eq.
  rewrite (base_file_run (decrypt_data self) _ _ key n kw stream w1 Hin1 Hne2).
  cbv zeta.
  assert (run_chunks (fun c => decrypt_data self c key kw) (chunks n stream) []
          = (Ok tt, data)) as ->; [|done].
  unfold stream. destruct (decide (data = [])) as [->|Hd].
  { by rewrite chunks_nil. }
  assert (length (cbc_chunk key iv data) ≤ n) as Hl.
  { rewrite cbc_chunk_length by done.
    pose proof (Nat.div_mod_eq (length data) 16).
    pose proof (Nat.div_mod_eq n 16).
    pose proof (Nat.mod_upper_bound (length data) 16).
    assert (length data / 16 < n / 16)
      by (apply Nat.Div0.div_lt_upper_bound; lia).
    lia. }
  rewrite chunks_short; [|intros E; apply (f_equal length) in E;
    rewrite cbc_chunk_length in E by done; simpl in E; lia|done].
  cbn [run_chunks].
  destruct (aes_data_roundtrip BL ks "CBC" self key iv data kw Hinit Hkey Hiv Hkw)
    as (c & Hce & Hcd).
  rewrite (aes_cbc_encrypt_data ks self key iv data kw Hinit Hkey Hiv Hkw) in Hce.
  injection Hce as <-. by rewrite Hcd.
Qed.

(** X3. In CFB, OFB and CTR mode, [encrypt_file] followed by
    [decrypt_file] with the same key, IV and chunk size restores a file
    of any size; the encrypted file is as long as the plain one. *)
Theorem aes_stream_file_roundtrip (ks : nat) (m : string) (self : AESCipher.t)
    (key iv data : bytes) (kw : kwargs)
    (input_file encrypted_file output_file : string) (n : nat) (w : world) :
  init ks m = Ok self → m ≠ "CBC" → length key * 8 = ks → length iv = 16 →
  kw_iv kw = Some iv → 0 < n →
  fs w !! input_file = Some data →
  input_file ≠ encrypted_file → encrypted_file ≠ output_file →
  ∃ w1 w2 stream,
    encrypt_file self input_file encrypted_file key n kw w = (Ok true, w1)
    ∧ fs w1 !! encrypted_file = Some stream
    ∧ length stream = length data
    ∧ decrypt_file self encrypted_file output_file key n kw w1 = (Ok true, w2)
    ∧ fs w2 !! output_file = Some data.
Proof.
  intros Hinit Hm Hkey Hiv Hkw Hn Hin Hne1 Hne2.
  destruct (aes_stream_file_run ks m self key iv data kw input_file
              encrypted_file n w Hinit Hm Hkey Hiv Hkw Hn Hin Hne1)
    as (stream & Hl & He & Hd).
  set (w1 := wfs (<[encrypted_file := stream]> (fs w)) w) in *.
  assert (fs w1 !! encrypted_file = Some stream) as Hin1
    by (by unfold w1; rewrite wfs_fs, lookup_insert_eq).
  exists w1, (wfs (<[output_file := data]> (fs w1)) w1), stream.
  split; [done|]. split; [done|]. split; [done|].
  split; [by apply Hd|by rewrite wfs_fs, lookup_insert_eq].
Qed.

(** X4. In CBC mode a file shorter than the chunk size (a multiple of
    16, as 4096 is) survives [encrypt_file] followed by
    [decrypt_file]; the encrypted file is the padded single-shot
    encryption. *)
Theorem aes_cbc_file_roundtrip_small (ks : nat) (self : AESCipher.t)
    (key iv data : bytes) (kw : kwargs)
    (input_file encrypted_file output_file : string) (n : nat) (w : world) :
  init ks "CBC" = Ok self → length key * 8 = ks → length iv = 16 →
  kw_iv kw = Some iv → n mod 16 = 0 → length data < n →
  fs w !! input_file = Some data →
  input_file ≠ encrypted_file → encrypted_file ≠ output_file →
  ∃ w1 w2,
    encrypt_file self input_file encrypted_file key n kw w = (Ok true, w1)
    ∧ fs w1 !! encrypted_file
      = Some (if decide (data = []) then [] else cbc_chunk key iv data)
    ∧ decrypt_file self encrypted_file output_file key n kw w1 = (Ok true, w2)
    ∧ fs w2 !! output_file = Some data.
Proof.
  intros Hinit Hkey Hiv Hkw Hn16 Hlen Hin Hne1 Hne2.
  destruct (aes_cbc_file_small_run ks self key iv data kw input_file
              encrypted_file n w Hinit Hkey Hiv Hkw Hn16 Hlen Hin Hne1)
    as (He & Hd).
  set (stream := if decide (data = []) then [] else cbc_chunk key iv data) in *.
  set (w1 := wfs (<[encrypted_file := stream]> (fs w)) w) in *.
  assert (fs w1 !! encrypted_file = Some stream) as Hin1
    by (by unfold w1; rewrite wfs_fs, lookup_insert_eq).
  exists w1, (wfs (<[output_file := data]> (fs w1)) w1).
  split; [done|]. split; [done|].
  split; [by apply Hd|by rewrite wfs_fs, lookup_insert_eq].
Qed.

End AESFiles.

Lemma aes_stream_file_roundtrip_witness :
  ∃ w1 w2 stream,
    AESCipher.encrypt_file (BC := Toy.block) FileExample.aes256_ctr
      "plain.bin" "plain.bin.enc" Example.key32 4096
      (RSACipher.with_iv Example.iv16)
      (Example.world_with (replicate 5000 x41)) = (Ok true, w1)
    ∧ fs w1 !! "plain.bin.enc" = Some stream
    ∧ length stream = length (replicate 5000 x41)
    ∧ AESCipher.decrypt_file (BC := Toy.block) FileExample.aes256_ctr
        "plain.bin.enc" "plain.out" Example.key32 4096
        (RSACipher.with_iv Example.iv16) w1 = (Ok true, w2)
    ∧ fs w2 !! "plain.out" = Some (replicate 5000 x41).
Proof.
  apply (aes_stream_file_roundtrip toy_block_laws 256 "CTR" _
           Example.key32 Example.iv16).
  - reflexivity.
  - discriminate.
  - reflexivity.
  - reflexivity.
  - reflexivity.
  - lia.
  - apply lookup_singleton_eq.
  - discriminate.
  - discriminate.
Defined.

Lemma aes_cbc_file_roundtrip_small_witness :
  ∃ w1 w2,
    AESCipher.encrypt_file (BC := Toy.block) aes256
      "plain.bin" "plain.bin.enc" Example.key32 4096
      (RSACipher.with_iv Example.iv16)
      (Example.world_with (replicate 100 x41)) = (Ok true, w1)
    ∧ fs w1 !! "plain.bin.enc"
      = Some (if decide (replicate 100 x41 = []) then []
              else cbc_chunk (BC := Toy.block) Example.key32 Example.iv16
                     (replicate 100 x41))
    ∧ AESCipher.decrypt_file (BC := Toy.block) aes256
        "plain.bin.enc" "plain.out" Example.key32 4096
        (RSACipher.with_iv Example.iv16) w1 = (Ok true, w2)
    ∧ fs w2 !! "plain.out" = Some (replicate 100 x41).
Proof.
  apply (aes_cbc_file_roundtrip_small toy_block_laws 256 _
           Example.key32 Example.iv16).
  - reflexivity.
  - reflexivity.
  - reflexivity.
  - reflexivity.
  - reflexivity.
  - rewrite length_replicate. lia.
  - apply lookup_singleton_eq.
  - discriminate.
  - discriminate.
Defined.

(* ===================================================================== *)
(** ** ChaCha20-Poly1305 files                                           *)
(* ===================================================================== *)

Section ChaChaFiles.
Context {AE : AEAD} {CD : Codec} (AL : AEADLaws AE) (TL : AEADTagLength AE).

Import ChaCha20Cipher.

Lemma chacha_decrypt_shape (self : ChaCha20Cipher.t) (data key nonce : bytes)
    (kw : kwargs) :
  length key = 32 → length nonce = 12 →
  decrypt_data self
    (nonce ++ aead_encrypt key nonce data (kw_associated_data kw)) key kw
  = Ok data.
Proof.
  intros Hk Hn. unfold decrypt_data, ChaCha20Poly1305.
  rewrite (proj2 (Nat.eqb_eq _ _) Hk).
  rewrite take_app_length' by done. rewrite drop_app_length' by done.
  by rewrite aead_decrypt_encrypt.
Qed.

(** One chunk: a fresh nonce, the ciphertext and the tag; only the
    random stream of the world moves. *)
Lemma chacha_encrypt_step (self : ChaCha20Cipher.t) (data key : bytes)
    (kw : kwargs) (w : world) :
  length key = 32 →
  ∃ nonce w', length nonce = 12 ∧ fs w' = fs w
    ∧ encrypt_data self data key kw w
      = (Ok (nonce ++ aead_encrypt key nonce data (kw_associated_data kw)), w').
Proof.
  intros Hk.
  destruct (chacha_encrypt_shape self data key kw w Hk)
    as (nonce & w' & Hu & Hn & He).
  destruct (urandom_length 12 w) as (x & w'' & Hu' & _ & Hf).
  rewrite Hu in Hu'. injection Hu' as -> ->.
  by exists x, w''.
Qed.

(** The loop of [encrypt_file]: every chunk grows by 28 bytes, and the
    file starts with the first encrypted chunk. *)
Lemma chacha_loop_run (self : ChaCha20Cipher.t) (key : bytes) (kw : kwargs)
    (p : string) (cs : list bytes) (acc : bytes) (w : world) :
  length key = 32 → fs w !! p = Some acc →
  ∃ out w',
    for_each cs (fun chunk =>
      let* x := encrypt_data self chunk key kw in write p x) w = (Ok tt, w')
    ∧ fs w' = <[p := acc ++ out]> (fs w)
    ∧ length out = length (concat cs) + 28 * length cs
    ∧ ∀ c rest, cs = c :: rest →
        ∃ nonce tail,
          length nonce = 12
          ∧ out = (nonce ++ aead_encrypt key nonce c (kw_associated_data kw))
                  ++ tail
          ∧ (rest = [] → tail = []).
Proof.
  intros Hk. revert acc w. induction cs as [|c cs IH]; intros acc w Hp.
  - exists [], w. cbn. rewrite app_nil_r, insert_id by done. done.
  - destruct (chacha_encrypt_step self c key kw w Hk)
      as (nonce & w1 & Hn & Hf1 & He).
    set (x := nonce ++ aead_encrypt key nonce c (kw_associated_data kw)) in *.
    destruct (IH (acc ++ x) (wfs (<[p := acc ++ x]> (fs w1)) w1))
      as (out & w' & Hrun & Hfs & Hlen & Hhead).
    { by rewrite wfs_fs, lookup_insert_eq. }
    exists (x ++ out), w'. split.
    { cbn [for_each]. unfold bind at 1. unfold bind at 1. rewrite He.
      rewrite (write_run p x acc w1) by (by rewrite Hf1). exact Hrun. }
    split.
    { rewrite Hfs, wfs_fs, insert_insert_eq, Hf1. by rewrite app_assoc. }
    split.
    { cbn [concat length]. rewrite !length_app, Hlen. unfold x.
      rewrite length_app, aead_encrypt_length, Hn. lia. }
    intros c' rest [= <- <-]. exists nonce, out. split; [done|]. split; [done|].
    intros ->. destruct out; [done|]. simpl in Hlen. lia.
Qed.

(** What [encrypt_file] writes. *)
Lemma chacha_encrypt_file_run (self : ChaCha20Cipher.t) (key data : bytes)
    (kw : kwargs) (input_file output_file : string) (n : nat) (w : world) :
  length key = 32 →
  fs w !! input_file = Some data → input_file ≠ output_file →
  ∃ stream w1,
    CryptoBase.encrypt_file_m (as_base self) input_file output_file key n kw w
    = (Ok true, w1)
    ∧ fs w1 = <[output_file := stream]> (fs w)
    ∧ length stream = length (concat (chunks n data)) + 28 * length (chunks n data)
    ∧ ∀ c rest, chunks n data = c :: rest →
        ∃ nonce tail,
          length nonce = 12
          ∧ stream = (nonce ++ aead_encrypt key nonce c (kw_associated_data kw))
                     ++ tail
          ∧ (rest = [] → tail = []).
Proof.
  intros Hk Hin Hne.
  destruct (chacha_loop_run self key kw output_file (chunks n data) []
              (wfs (<[output_file := []]> (fs w)) w) Hk)
    as (out & w1 & Hrun & Hfs & Hlen & Hhead).
  { by rewrite wfs_fs, lookup_insert_eq. }
  exists out, w1. split.
  { cbn [as_base CryptoBase.encrypt_file_m].
    unfold CryptoBase.encrypt_file, try_except.
    unfold bind at 1. rewrite (getsize_run _ _ _ Hin).
    unfold bind at 1. rewrite (open_rb_run _ _ _ Hin).
    unfold bind at 1. rewrite open_wb_run.
    unfold bind at 1.
    rewrite (contents_run input_file data)
      by (by rewrite wfs_fs, lookup_insert_ne).
    unfold bind at 1. by rewrite Hrun. }
  split; [by rewrite Hfs, wfs_fs, insert_insert_eq|]. done.
Qed.

(** A file of at most [n - 28] bytes: the encrypted file, and what
    [decrypt_file] makes of it in whatever world it is read. *)
Lemma chacha_file_small_run (self : ChaCha20Cipher.t) (key data : bytes)
    (kw : kwargs) (input_file encrypted_file : string) (n : nat) (w : world) :
  length key = 32 → length data + 28 ≤ n →
  fs w !! input_file = Some data → input_file ≠ encrypted_file →
  ∃ stream w1,
    CryptoBase.encrypt_file_m (as_base self) input_file encrypted_file key n kw w
    = (Ok true, w1)
    ∧ fs w1 = <[encrypted_file := stream]> (fs w)
    ∧ ∀ output_file w2,
        fs w2 !! encrypted_file = Some stream → encrypted_file ≠ output_file →
        CryptoBase.decrypt_file_m (as_base self) encrypted_file output_file key
          n kw w2
        = (Ok true, wfs (<[output_file := data]> (fs w2)) w2).
Proof.
  intros Hk Hlen Hin Hne1.
  destruct (chacha_encrypt_file_run self key data kw input_file encrypted_file
              n w Hk Hin Hne1) as (stream & w1 & He & Hfs & Hsl & Hhead).
  exists stream, w1. split; [done|]. split; [done|].
  intros output_file w2 Hin2 Hne2.
  cbn [as_base CryptoBase.decrypt_file_m]. rewrite base_decrypt_file_eq.
  rewrite (base_file_run (decrypt_data self) _ _ key n kw stream w2 Hin2 Hne2).
  cbv zeta.
  assert (run_chunks (fun c => decrypt_data self c key kw) (chunks n stream) []
          = (Ok tt, data)) as ->; [|done].
  destruct (decide (data = [])) as [->|Hd].
  { rewrite chunks_nil in Hsl. destruct stream; [|done]. by rewrite chunks_nil. }
  rewrite (chunks_short n data) in Hsl, Hhead by (done || lia).
  destruct (Hhead data [] eq_refl) as (nonce & tail & Hn & -> & Ht).
  rewrite (Ht eq_refl), app_nil_r in *.
  cbn [concat length] in Hsl. rewrite app_nil_r in Hsl.
  rewrite chunks_short; [|by destruct nonce|lia].
  cbn [run_chunks]. by rewrite chacha_decrypt_shape.
Qed.

(** X5. A file of at most [n - 28] bytes, [n] being the chunk size
    (4068 bytes for the default of 4096), survives ChaCha20-Poly1305
    [encrypt_file] followed by [decrypt_file]. *)
Theorem chacha_file_roundtrip_small (self : ChaCha20Cipher.t)
    (key data : bytes) (kw : kwargs)
    (input_file encrypted_file output_file : string) (n : nat) (w : world) :
  length key = 32 → length data + 28 ≤ n →
  fs w !! input_file = Some data →
  input_file ≠ encrypted_file → encrypted_file ≠ output_file →
  ∃ w1 w2,
    CryptoBase.encrypt_file_m (as_base self) input_file encrypted_file key n kw w
    = (Ok true, w1)
    ∧ CryptoBase.decrypt_file_m (as_base self) encrypted_file output_file key
        n kw w1 = (Ok true, w2)
    ∧ fs w2 !! output_file = Some data.
Proof.
  intros Hk Hlen Hin Hne1 Hne2.
  destruct (chacha_file_small_run self key data kw input_file encrypted_file
              n w Hk Hlen Hin Hne1) as (stream & w1 & He & Hfs & Hd).
  exists w1, (wfs (<[output_file := data]> (fs w1)) w1).
  split; [done|]. split; [|by rewrite wfs_fs, lookup_insert_eq].
  apply Hd; [by rewrite Hfs, lookup_insert_eq|done].
Qed.

(** X6. A file of more than [n - 28] bytes: [encrypt_file] succeeds and
    writes 28 bytes more than it read for every chunk, so the first [n]
    bytes that [decrypt_file] reads are a truncated chunk. When the
    AEAD does not accept that truncated chunk, [decrypt_file] returns
    [False] and leaves an empty output file. *)
Theorem chacha_file_large_not_restored (self : ChaCha20Cipher.t)
    (key data : bytes) (kw : kwargs)
    (input_file encrypted_file output_file : string) (n : nat) (w : world) :
  length key = 32 → 0 < n → n < length data + 28 → data ≠ [] →
  fs w !! input_file = Some data →
  input_file ≠ encrypted_file → encrypted_file ≠ output_file →
  ∃ w1 stream nonce,
    CryptoBase.encrypt_file_m (as_base self) input_file encrypted_file key n kw w
    = (Ok true, w1)
    ∧ fs w1 !! encrypted_file = Some stream
    ∧ length stream = length data + 28 * length (chunks n data)
    ∧ length nonce = 12
    ∧ take n stream
      = take n (nonce ++ aead_encrypt key nonce (take n data)
                           (kw_associated_data kw))
    ∧ n < length (nonce ++ aead_encrypt key nonce (take n data)
                            (kw_associated_data kw))
    ∧ (is_ok (aead_decrypt key (take 12 (take n stream))
                (drop 12 (take n stream)) (kw_associated_data kw)) = false →
       CryptoBase.decrypt_file_m (as_base self) encrypted_file output_file key
         n kw w1
       = (Ok false, wfs (<[output_file := []]> (fs w1)) w1)).
Proof.
  intros Hk Hn Hlen Hd Hin Hne1 Hne2.
  destruct (chacha_encrypt_file_run self key data kw input_file encrypted_file
              n w Hk Hin Hne1) as (stream & w1 & He & Hfs & Hsl & Hhead).
  rewrite chunks_concat in Hsl by done.
  destruct (Hhead (take n data) (chunks n (drop n data)))
    as (nonce & tail & Hnl & Hs & _); [by apply chunks_step|].
  set (first := nonce ++ aead_encrypt key nonce (take n data)
                                      (kw_associated_data kw)) in *.
  assert (n < length first) as Hfl.
  { unfold first. rewrite length_app, aead_encrypt_length, length_take, Hnl. lia. }
  exists w1, stream, nonce.
  split; [done|]. split; [by rewrite Hfs, lookup_insert_eq|].
  split; [done|]. split; [done|].
  assert (take n stream = take n first) as Ht.
  { rewrite Hs. by rewrite take_app_le by lia. }
  split; [done|]. split; [done|].
  intros Hbad.
  cbn [as_base CryptoBase.decrypt_file_m]. rewrite base_decrypt_file_eq.
  rewrite (base_file_run (decrypt_data self) _ _ key n kw stream w1);
    [|by rewrite Hfs, lookup_insert_eq|done].
  cbv zeta.
  assert (stream ≠ []) as Hne.
  { intros E. rewrite E in Hs. symmetry in Hs.
    apply app_eq_nil in Hs as [Hs _]. rewrite Hs in Hfl. simpl in Hfl. lia. }
  rewrite (chunks_step n stream) by done.
  cbn [run_chunks].
  assert (∃ e, decrypt_data self (take n stream) key kw = Raise e) as [e ->].
  { unfold decrypt_data, ChaCha20Poly1305.
    rewrite (proj2 (Nat.eqb_eq _ _) Hk).
    destruct (aead_decrypt key (take 12 (take n stream))
                (drop 12 (take n stream)) (kw_associated_data kw))
      as [x|[]]; [done|eauto..]. }
  done.
Qed.

End ChaChaFiles.

Lemma toy_aead_tag_length : AEADTagLength Toy.aead.
Proof.
  split. intros key nonce data ad.
  cbn [aead_encrypt Toy.aead]. cbv zeta. unfold Toy.tag.
  rewrite length_app, length_map. simpl. lia.
Qed.

Lemma chacha_file_roundtrip_small_witness :
  ∃ w1 w2,
    CryptoBase.encrypt_file_m
      (ChaCha20Cipher.as_base (AE := Toy.aead) (CD := Toy.codec) ChaCha20Cipher.init)
      "plain.bin" "plain.bin.enc" Example.key32 4096 no_kwargs
      (Example.world_with (replicate 4068 x41)) = (Ok true, w1)
    ∧ CryptoBase.decrypt_file_m
        (ChaCha20Cipher.as_base (AE := Toy.aead) (CD := Toy.codec) ChaCha20Cipher.init)
        "plain.bin.enc" "plain.out" Example.key32 4096 no_kwargs w1 = (Ok true, w2)
    ∧ fs w2 !! "plain.out" = Some (replicate 4068 x41).
Proof.
  apply (chacha_file_roundtrip_small toy_aead_laws toy_aead_tag_length).
  - reflexivity.
  - rewrite length_replicate. lia.
  - apply lookup_singleton_eq.
  - discriminate.
  - discriminate.
Defined.

Lemma chacha_file_large_not_restored_witness :
  ∃ w1,
    CryptoBase.encrypt_file_m
      (ChaCha20Cipher.as_base (AE := Toy.aead) (CD := Toy.codec) ChaCha20Cipher.init)
      "plain.bin" "plain.bin.enc" Example.key32 64 no_kwargs
      (Example.world_with (replicate 100 x41)) = (Ok true, w1)
    ∧ CryptoBase.decrypt_file_m
        (ChaCha20Cipher.as_base (AE := Toy.aead) (CD := Toy.codec) ChaCha20Cipher.init)
        "plain.bin.enc" "plain.out" Example.key32 64 no_kwargs w1
      = (Ok false, wfs (<["plain.out" := []]> (fs w1)) w1).
Proof.
  destruct (chacha_file_large_not_restored (CD := Toy.codec)
              toy_aead_tag_length
              ChaCha20Cipher.init Example.key32 (replicate 100 x41) no_kwargs
              "plain.bin" "plain.bin.enc" "plain.out" 64
              (Example.world_with (replicate 100 x41)))
    as (w1 & stream & nonce & He & Hs & _ & _ & _ & _ & Hd).
  - reflexivity.
  - lia.
  - rewrite length_replicate. lia.
  - discriminate.
  - apply lookup_singleton_eq.
  - discriminate.
  - discriminate.
  - exists w1. split; [exact He|]. apply Hd.
    vm_compute in He. injection He as <-.
    vm_compute in Hs. injection Hs as <-.
    vm_compute. reflexivity.
Defined.

(* ===================================================================== *)
(** ** Strings and paths                                                 *)
(* ===================================================================== *)

Section StringFacts.

Import KeyManager.

Lemma str_cons_app (x : ascii) (s t : string) :
  String x s +:+ t = String x (s +:+ t).
Proof. reflexivity. Qed.

Lemma rev_app_spec (a b : string) : String.rev_app a b = String.rev a +:+ b.
Proof.
  revert b. induction a as [|x a IH]; intros b; [done|].
  unfold String.rev. cbn [String.rev_app].
  rewrite (IH (String x b)), (IH (String x EmptyString)).
  by rewrite str_app_assoc.
Qed.

Lemma rev_app_app (a b c : string) :
  String.rev_app (a +:+ b) c = String.rev_app b (String.rev_app a c).
Proof.
  revert c. induction a as [|x a IH]; intros c; [done|].
  cbn [String.append String.rev_app]. apply IH.
Qed.

Lemma rev_app_distr (a b : string) :
  String.rev (a +:+ b) = String.rev b +:+ String.rev a.
Proof.
  unfold String.rev at 1. rewrite rev_app_app. by rewrite rev_app_spec.
Qed.

Lemma rev_involutive (a : string) : String.rev (String.rev a) = a.
Proof.
  induction a as [|x a IH]; [done|].
  change (String x a) with (String x EmptyString +:+ a) at 1.
  rewrite rev_app_distr, rev_app_distr, IH. done.
Qed.

Lemma prefix_app (p s : string) : String.prefix p (p +:+ s) = true.
Proof.
  induction p as [|x p IH]; [by destruct s|].
  rewrite ?str_cons_app. cbn [String.prefix]. by destruct (Ascii.ascii_dec x x).
Qed.

Lemma prefix_inv (p s : string) :
  String.prefix p s = true → ∃ t, s = p +:+ t.
Proof.
  revert s. induction p as [|x p IH]; intros s H; [by exists s|].
  destruct s as [|y s]; [done|]. cbn [String.prefix] in H.
  destruct (Ascii.ascii_dec x y) as [<-|]; [|done].
  destruct (IH s H) as [t ->]. by exists t.
Qed.

Lemma endswith_app (s suffix : string) : endswith (s +:+ suffix) suffix = true.
Proof. unfold endswith. rewrite rev_app_distr. apply prefix_app. Qed.

Lemma endswith_inv (s suffix : string) :
  endswith s suffix = true → ∃ t, s = t +:+ suffix.
Proof.
  unfold endswith. intros [t Ht]%prefix_inv.
  exists (String.rev t).
  rewrite <- (rev_involutive s), Ht, rev_app_distr. by rewrite rev_involutive.
Qed.

Lemma substring_app (s t : string) :
  String.substring 0 (String.length s) (s +:+ t) = s.
Proof.
  induction s as [|x s IH]; [by destruct t|].
  rewrite ?str_cons_app. cbn [String.length String.substring]. by rewrite IH.
Qed.

Lemma drop_last_app (s suffix : string) :
  drop_last (String.length suffix) (s +:+ suffix) = s.
Proof.
  unfold drop_last. rewrite str_length_app.
  replace (String.length s + String.length suffix - String.length suffix)
    with (String.length s) by lia.
  apply substring_app.
Qed.

Lemma drop_last_key (s : string) : drop_last 4 (s +:+ ".key") = s.
Proof. exact (drop_last_app s ".key"). Qed.

Lemma strip_prefix_app (p s : string) : strip_prefix p (p +:+ s) = Some s.
Proof.
  induction p as [|x p IH]; [done|].
  rewrite ?str_cons_app. cbn [strip_prefix]. by rewrite Ascii.eqb_refl.
Qed.

Lemma strip_prefix_inv (p s r : string) :
  strip_prefix p s = Some r → s = p +:+ r.
Proof.
  revert s. induction p as [|x p IH]; intros s H; [by injection H as ->|].
  destruct s as [|y s]; [done|]. cbn [strip_prefix] in H.
  destruct (Ascii.eqb x y) eqn:E; [|done].
  apply Ascii.eqb_eq in E as ->. rewrite str_cons_app. f_equal. by apply IH.
Qed.

Lemma first_component_id (s : string) :
  contains_char "/" s = false → first_component s = s.
Proof.
  induction s as [|x s IH]; [done|]. cbn [contains_char first_component].
  destruct (Ascii.eqb x "/") eqn:E; [done|]. cbn [orb]. intros H. by rewrite IH.
Qed.

Lemma contains_char_app (c : ascii) (s t : string) :
  contains_char c (s +:+ t) = contains_char c s || contains_char c t.
Proof.
  induction s as [|x s IH]; [done|].
  rewrite ?str_cons_app. cbn [contains_char]. rewrite IH. by rewrite orb_assoc.
Qed.

Lemma replace_char_clean (old new : ascii) (s : string) :
  old ≠ new → contains_char old (replace_char old new s) = false.
Proof.
  intros Hne. induction s as [|x s IH]; [done|].
  cbn [replace_char contains_char].
  rewrite IH, orb_false_r.
  destruct (Ascii.eqb x old) eqn:E; [|done].
  apply Ascii.eqb_neq. congruence.
Qed.

Lemma replace_char_keeps (c old new : ascii) (s : string) :
  c ≠ new → contains_char c s = false →
  contains_char c (replace_char old new s) = false.
Proof.
  intros Hne. induction s as [|x s IH]; [done|].
  cbn [replace_char contains_char].
  intros [Hx Hs]%orb_false_iff. rewrite (IH Hs), orb_false_r.
  destruct (Ascii.eqb x old); [|done].
  apply Ascii.eqb_neq. congruence.
Qed.

(** A sanitised name holds no slash. *)
Lemma sanitize_no_slash (key_name : string) :
  contains_char "/" (sanitize key_name) = false.
Proof.
  unfold sanitize. apply replace_char_keeps; [done|].
  by apply replace_char_clean.
Qed.

Lemma no_slash_not_absolute (s t : string) :
  contains_char "/" s = false → String.prefix "/" (s +:+ t) = false
  ∨ s = EmptyString.
Proof.
  destruct s as [|x s]; [by right|].
  rewrite ?str_cons_app. cbn [contains_char String.prefix].
  intros [Hx _]%orb_false_iff. left.
  destruct (Ascii.ascii_dec "/" x) as [<-|]; [done|]. done.
Qed.

Lemma path_join_relative (d b : string) :
  String.prefix "/" b = false → path_join d b = dir_prefix d +:+ b.
Proof.
  intros H. unfold path_join, dir_prefix. rewrite H.
  destruct (String.eqb d EmptyString || String.prefix "/" (String.rev d)); [done|].
  by rewrite str_app_assoc.
Qed.

(** The file of a record whose name holds no slash is an entry of the
    storage directory, under its own file name. *)
Lemma entry_of_key_path (self : KeyManager.t) (key_name : string) :
  contains_char "/" key_name = false →
  entry_of (storage_dir self) (key_path self key_name)
  = Some (key_name +:+ ".key").
Proof.
  intros Hc. unfold key_path, entry_of.
  assert (String.prefix "/" (key_name +:+ ".key") = false) as Hrel.
  { destruct (no_slash_not_absolute key_name ".key" Hc) as [H| ->]; done. }
  rewrite path_join_relative by done.
  rewrite strip_prefix_app. cbv zeta.
  rewrite first_component_id
    by (rewrite contains_char_app, Hc; reflexivity).
  destruct key_name; done.
Qed.

End StringFacts.

(* ===================================================================== *)
(** ** The key store: listing, deleting, saving without protection      *)
(* ===================================================================== *)

Section DictFacts.

Lemma dict_get_set_eq (d : dict) (k : string) (v : pyval) :
  dict_get (dict_set d k v) k = Some v.
Proof.
  induction d as [|[k' v'] d IH]; cbn [dict_set dict_get].
  - by rewrite String.eqb_refl.
  - destruct (String.eqb k' k) eqn:E; cbn [dict_get]; by rewrite E.
Qed.

Lemma dict_get_set_ne (d : dict) (k k0 : string) (v : pyval) :
  k ≠ k0 → dict_get (dict_set d k v) k0 = dict_get d k0.
Proof.
  intros Hne. induction d as [|[k' v'] d IH]; cbn [dict_set dict_get].
  - by rewrite (proj2 (String.eqb_neq _ _) Hne).
  - destruct (String.eqb k' k) eqn:E; cbn [dict_get].
    + apply String.eqb_eq in E as ->.
      by rewrite (proj2 (String.eqb_neq _ _) Hne).
    + by rewrite IH.
Qed.

Lemma dict_get_None (d : dict) (k : string) :
  k ∉ d.*1 → dict_get d k = None.
Proof.
  induction d as [|[k' v'] d IH]; [done|]. cbn. intros H.
  apply not_elem_of_cons in H as [H1 H2].
  rewrite (proj2 (String.eqb_neq _ _)) by congruence. by apply IH.
Qed.

End DictFacts.

Section ListingFacts.
Context {CD : Codec} {KW : KeyWrap}.

Import KeyManager.

Lemma dir_entries_elem (d : string) (w : world) (f : string) :
  f ∈ dir_entries d w ↔ ∃ p, is_Some (fs w !! p) ∧ entry_of d p = Some f.
Proof.
  unfold dir_entries. rewrite elem_of_remove_dups, list_elem_of_omap. split.
  - intros (p & Hp & He). exists p. split; [|done].
    apply list_elem_of_fmap in Hp as ([p' v] & -> & Hv).
    apply elem_of_map_to_list in Hv. cbn. eauto.
  - intros (p & [v Hv] & He). exists p. split; [|done].
    apply list_elem_of_fmap. exists (p, v). split; [done|].
    by apply elem_of_map_to_list.
Qed.

Lemma read_is_encrypted_run (key_file : string) (w : world) :
  read_is_encrypted key_file w = (Ok (is_encrypted_file w key_file), w).
Proof.
  unfold read_is_encrypted, is_encrypted_file, try_except.
  destruct (fs w !! key_file) as [data|] eqn:E.
  - unfold bind at 1. rewrite (open_rb_run _ _ _ E).
    unfold bind at 1. by rewrite (contents_run _ _ _ E).
  - unfold bind at 1. unfold open_rb. by rewrite E.
Qed.

Lemma read_algorithm_run (key_file : string) (w : world) :
  read_algorithm key_file w = (Ok (algorithm_in_file w key_file), w).
Proof.
  unfold read_algorithm, algorithm_in_file, try_except.
  destruct (fs w !! key_file) as [data|] eqn:E.
  - unfold bind at 1. rewrite (open_rb_run _ _ _ E).
    unfold bind at 1. rewrite (contents_run _ _ _ E).
    unfold bind at 1. unfold lift at 1.
    destruct (utf8_decode data) as [text|]; [|done].
    unfold bind at 1. unfold lift at 1.
    by destruct (json_loads text).
  - unfold bind at 1. unfold open_rb. by rewrite E.
Qed.

Lemma fold_each_pure {A B} (xs : list A) (acc : B) (body : A → B → M B)
    (g : B → A → B) (w : world) :
  (∀ x a, body x a w = (Ok (g a x), w)) →
  fold_each xs acc body w = (Ok (foldl g acc xs), w).
Proof.
  intros H. revert acc. induction xs as [|x xs IH]; intros acc; [done|].
  cbn [fold_each foldl]. unfold bind. by rewrite H, IH.
Qed.

(** The dictionary the loop of [list_keys] builds from the names in the
    directory. *)
Lemma listed_lookup (self : KeyManager.t) (w : world) (names : list string)
    (acc : gmap string key_info) (n : string) :
  foldl (fun result file_name =>
           if endswith file_name ".key"
           then <[drop_last 4 file_name :=
                    listed_info self w (drop_last 4 file_name)]> result
           else result) acc names !! n
  = if bool_decide (n +:+ ".key" ∈ names) then Some (listed_info self w n)
    else acc !! n.
Proof.
  revert acc. induction names as [|f names IH]; intros acc.
  - cbn. by rewrite bool_decide_eq_false_2 by set_solver.
  - cbn [foldl]. rewrite IH.
    destruct (decide (f = n +:+ ".key")) as [->|Hne].
    + rewrite endswith_app.
      rewrite drop_last_key, lookup_insert_eq.
      rewrite (bool_decide_eq_true_2 (_ ∈ _ :: _)) by set_solver.
      by destruct (bool_decide _).
    + assert (bool_decide (n +:+ ".key" ∈ f :: names)
              = bool_decide (n +:+ ".key" ∈ names)) as ->.
      { apply bool_decide_ext. set_solver. }
      destruct (bool_decide (n +:+ ".key" ∈ names)); [done|].
      destruct (endswith f ".key") eqn:E; [|done].
      rewrite lookup_insert_ne; [done|].
      intros <-. apply Hne.
      apply endswith_inv in E as [t ->].
      by rewrite drop_last_key.
Qed.

(** [list_keys] raises nothing, leaves the world alone, and lists
    exactly the names whose file name is an entry of the directory. *)
Lemma list_keys_run (self : KeyManager.t) (w : world) :
  ∃ m, list_keys self w = (Ok m, w)
       ∧ ∀ n, m !! n
              = if bool_decide (n +:+ ".key" ∈ dir_entries (storage_dir self) w)
                then Some (listed_info self w n) else None.
Proof.
  eexists. split.
  - unfold list_keys. unfold bind at 1.
    change (listdir (storage_dir self) w)
      with (Ok (dir_entries (storage_dir self) w), w).
    apply (fold_each_pure _ _ _
             (fun result file_name =>
                if endswith file_name ".key"
                then <[drop_last 4 file_name :=
                         listed_info self w (drop_last 4 file_name)]> result
                else result)).
    intros f acc. destruct (endswith f ".key") eqn:E; [|done].
    apply endswith_inv in E as [t ->].
    rewrite drop_last_key.
    unfold bind at 1. rewrite read_is_encrypted_run.
    unfold listed_info, key_path.
    destruct (is_encrypted_file w _) eqn:Ee; cbn [negb].
    + unfold bind, ret. done.
    + unfold bind at 1. rewrite read_algorithm_run. done.
  - intros n. rewrite listed_lookup. by rewrite lookup_empty.
Qed.

(** An algorithm name in the key dictionary is the one in the record. *)
Lemma save_fields_other (save_data items : dict) (k : string) :
  k ∉ items.*1 → dict_get (save_fields save_data items) k = dict_get save_data k.
Proof.
  revert save_data. induction items as [|[k' v'] items IH]; intros sd H; [done|].
  cbn in H. apply not_elem_of_cons in H as [H1 H2].
  cbn [save_fields]. destruct v'; rewrite IH by done;
    try (by apply dict_get_set_ne); done.
Qed.

Lemma save_fields_str (save_data items : dict) (k a : string) :
  NoDup items.*1 → dict_get items k = Some (VStr a) →
  dict_get (save_fields save_data items) k = Some (VStr a).
Proof.
  revert save_data. induction items as [|[k' v'] items IH]; intros sd Hnd H;
    [done|].
  cbn in Hnd. apply NoDup_cons in Hnd as [Hk Hnd].
  cbn [dict_get] in H. destruct (String.eqb k' k) eqn:E.
  - apply String.eqb_eq in E as ->. injection H as ->.
    cbn [save_fields]. rewrite save_fields_other by done.
    apply dict_get_set_eq.
  - cbn [save_fields]. destruct v'; by apply IH.
Qed.

End ListingFacts.

Section KeyStoreExtras.
Context {CD : Codec} {KW : KeyWrap}.
Context (CL : CodecLaws CD) (KL : KeyWrapLaws CD KW).

Import KeyManager.

(** [save_key] succeeds on every record [json] can write. *)
Lemma save_key_ok (self : KeyManager.t) (key_data : dict) (key_name : string)
    (password : option string) (w : world) :
  json_safe (save_record key_data (sanitize key_name) (now w)) = true →
  ∃ p w1, save_key self key_data key_name password w = (Ok p, w1).
Proof.
  intros Hsafe. unfold save_key.
  unfold bind at 1. unfold datetime_now_isoformat at 1.
  fold (save_record key_data (sanitize key_name) (now w)).
  set (record := save_record key_data (sanitize key_name) (now w)) in *.
  destruct (truthy_str password).
  - destruct (json_loads_dumps record None Hsafe (save_record_NoDup CL KL _ _ _))
      as (text & Hj & _).
    unfold bind at 1. unfold _derive_key_from_password at 1.
    unfold bind at 1.
    destruct (urandom_length 16 w) as (salt & wa & Hu & Hsl & Hfa).
    rewrite Hu. unfold ret at 1. cbn [fst snd].
    unfold bind at 1. unfold lift at 1. rewrite Hj.
    unfold bind at 1.
    destruct (urandom_length 16 wa) as (iv & wb & Hu2 & _ & Hfb).
    rewrite Hu2.
    destruct (fernet_encrypt_ok
                (pbkdf2_hmac_sha256 (blit (default EmptyString password)) salt
                   kdf_iterations 32) iv (blit text)) as (tok & Hf).
    { apply pbkdf2_length. }
    unfold bind at 1. unfold lift at 1. rewrite Hf.
    unfold bind, open_wb, write, ret. eauto.
  - destruct (json_loads_dumps record (Some 2) Hsafe (save_record_NoDup CL KL _ _ _))
      as (text & Hj & _).
    unfold bind at 1. rewrite open_wb_run.
    unfold bind at 1. unfold lift at 1. rewrite Hj.
    unfold bind, write, ret. eauto.
Qed.

(** A record stored without protection loads under any password. *)
Lemma load_unprotected (self : KeyManager.t) (key_data : dict)
    (key_name : string) (other : option string) (w w1 : world) (p : string) :
  sanitize key_name = key_name →
  save_key self key_data key_name None w = (Ok p, w1) →
  json_safe (save_record key_data key_name (now w)) = true →
  load_key self key_name other w1
  = (Ok (Some (load_fields [] (save_record key_data key_name (now w)))), w1).
Proof.
  intros Hname Hs Hsafe.
  destruct (save_key_run _ _ _ _ _ _ _ Hs) as (-> & content & Hfs & Hst).
  rewrite Hname in *.
  set (record := save_record key_data key_name (now w)) in *.
  assert (fs w1 !! key_path self key_name = Some content) as Hf
    by (by rewrite Hfs, lookup_insert_eq).
  unfold load_key.
  unfold bind at 1. unfold path_exists at 1.
  rewrite bool_decide_eq_true_2 by (rewrite Hf; eauto). cbn [negb].
  unfold try_except.
  unfold bind at 1. rewrite (open_rb_run _ _ _ Hf).
  unfold bind at 1. rewrite (contents_run _ _ _ Hf).
  unfold bind at 1. unfold read_record.
  unfold stored in Hst. cbn [truthy_str] in Hst.
  destruct Hst as (text & Hj & ->).
  destruct (json_loads_dumps record (Some 2) Hsafe (save_record_NoDup CL KL _ _ _))
    as (text' & Hj' & Hl & Hb).
  fold record in Hj. rewrite Hj in Hj'. injection Hj' as <-.
  rewrite (startswith_json text Hb).
  unfold bind at 1. unfold lift at 1. rewrite utf8_decode_encode.
  unfold bind at 1. unfold lift at 1. rewrite Hl. done.
Qed.

(** X7. An empty password protects nothing: [save_key] with the empty
    string for a password does what it does with none, and the record
    it stores is returned by [load_key] under any password or none. *)
Theorem empty_password_stores_plain (self : KeyManager.t) (key_data : dict)
    (key_name : string) (w : world) :
  save_key self key_data key_name (Some EmptyString) w
  = save_key self key_data key_name None w
  ∧ ∀ p w1 other,
      sanitize key_name = key_name →
      json_safe (save_record key_data key_name (now w)) = true →
      save_key self key_data key_name (Some EmptyString) w = (Ok p, w1) →
      load_key self key_name other w1
      = (Ok (Some (load_fields [] (save_record key_data key_name (now w)))), w1).
Proof.
  split; [done|]. intros p w1 other Hname Hsafe Hs.
  by apply (load_unprotected self key_data key_name other w w1 p).
Qed.

(** X8. What is saved can be deleted once: after [save_key],
    [delete_key] under the sanitised name returns [True] and removes
    the file; from then on [load_key] returns [None] and a second
    [delete_key] returns [False]. *)
Theorem save_delete_load (self : KeyManager.t) (key_data : dict)
    (key_name : string) (password : option string) (w w1 : world) (p : string) :
  save_key self key_data key_name password w = (Ok p, w1) →
  ∃ w2,
    delete_key self (sanitize key_name) w1 = (Ok true, w2)
    ∧ fs w2 = delete p (fs w1)
    ∧ load_key self (sanitize key_name) password w2 = (Ok None, w2)
    ∧ delete_key self (sanitize key_name) w2 = (Ok false, w2).
Proof.
  intros Hs.
  destruct (save_key_run _ _ _ _ _ _ _ Hs) as (-> & content & Hfs & _).
  set (p := key_path self (sanitize key_name)) in *.
  assert (fs w1 !! p = Some content) as Hf by (by rewrite Hfs, lookup_insert_eq).
  exists (wfs (delete p (fs w1)) w1).
  assert (fs (wfs (delete p (fs w1)) w1) !! p = None) as Hgone
    by (by rewrite wfs_fs, lookup_delete_eq).
  split; [by apply delete_key_present with content|]. split; [done|].
  split; [by apply load_key_missing|by apply delete_key_absent].
Qed.

(** X9. [list_keys] after [save_key]: it raises nothing, leaves the
    store alone, and lists the record under its sanitised name with the
    path [save_key] returned, with [is_encrypted] set exactly when a
    non-empty password was given, and with the algorithm name of the key
    dictionary, or ["encrypted"] for a protected record. *)
Theorem list_keys_after_save (self : KeyManager.t) (key_data : dict)
    (key_name : string) (password : option string) (a : string)
    (w w1 : world) (p : string) :
  save_key self key_data key_name password w = (Ok p, w1) →
  json_safe (save_record key_data (sanitize key_name) (now w)) = true →
  NoDup key_data.*1 → dict_get key_data "algorithm" = Some (VStr a) →
  ∃ m, list_keys self w1 = (Ok m, w1)
       ∧ m !! sanitize key_name
         = Some (MkKeyInfo (sanitize key_name) p (truthy_str password)
                   (VStr (if truthy_str password then "encrypted" else a))).
Proof.
  intros Hs Hsafe Hnd Ha.
  destruct (save_key_run _ _ _ _ _ _ _ Hs) as (-> & content & Hfs & Hst).
  set (n := sanitize key_name) in *.
  set (record := save_record key_data n (now w)) in *.
  assert (fs w1 !! key_path self n = Some content) as Hf
    by (by rewrite Hfs, lookup_insert_eq).
  destruct (list_keys_run self w1) as (m & Hm & Hlook).
  exists m. split; [done|]. rewrite Hlook.
  rewrite bool_decide_eq_true_2.
  2:{ apply dir_entries_elem. exists (key_path self n). split; [eauto|].
      apply entry_of_key_path. apply sanitize_no_slash. }
  f_equal. unfold listed_info, is_encrypted_file, algorithm_in_file.
  rewrite Hf. unfold stored in Hst.
  destruct (truthy_str password).
  - destruct Hst as (salt & iv & text & tok & _ & _ & _ & ->).
    change (take 10 (blit "ENCRYPTED:" ++ salt ++ tok)) with (blit "ENCRYPTED:").
    done.
  - destruct Hst as (text & Hj & ->).
    destruct (json_loads_dumps record (Some 2) Hsafe (save_record_NoDup CL KL _ _ _))
      as (text' & Hj' & Hl & Hb).
    fold record in Hj. rewrite Hj in Hj'. injection Hj' as <-.
    pose proof (startswith_json text Hb) as Hsw. unfold startswith in Hsw.
    change (length (blit "ENCRYPTED:")) with 10 in Hsw. rewrite Hsw.
    rewrite utf8_decode_encode, Hl.
    unfold record, save_record. by rewrite (save_fields_str _ _ _ a).
Qed.

End KeyStoreExtras.

Lemma empty_password_stores_plain_witness :
  KeyManager.load_key (CD := Toy.codec) (KW := Toy.keywrap) KeyExample.km
    "k1" (Some "guess") (KeyExample.save "k1" (Some EmptyString)).2
  = (Ok (Some (KeyManager.load_fields (CD := Toy.codec) []
                 (save_record (CD := Toy.codec) KeyExample.aes_key "k1"
                    (now Toy.world0)))),
     (KeyExample.save "k1" (Some EmptyString)).2).
Proof.
  apply (proj2 (empty_password_stores_plain toy_codec_laws toy_keywrap_laws
                  KeyExample.km KeyExample.aes_key "k1" Toy.world0)
           "keys/k1.key").
  - reflexivity.
  - vm_compute. reflexivity.
  - vm_compute. reflexivity.
Defined.

Lemma save_delete_load_witness :
  ∃ w2,
    KeyManager.delete_key KeyExample.km (KeyManager.sanitize "my key")
      (KeyExample.save "my key" (Some "secret")).2 = (Ok true, w2)
    ∧ fs w2 = delete "keys/my_key.key"
                (fs (KeyExample.save "my key" (Some "secret")).2)
    ∧ KeyManager.load_key (CD := Toy.codec) (KW := Toy.keywrap) KeyExample.km
        (KeyManager.sanitize "my key") (Some "secret") w2 = (Ok None, w2)
    ∧ KeyManager.delete_key KeyExample.km (KeyManager.sanitize "my key") w2
      = (Ok false, w2).
Proof.
  apply (save_delete_load (CD := Toy.codec) (KW := Toy.keywrap) KeyExample.km
           KeyExample.aes_key "my key" (Some "secret") Toy.world0).
  vm_compute. reflexivity.
Defined.

Lemma list_keys_after_save_witness :
  ∃ m,
    KeyManager.list_keys (CD := Toy.codec) KeyExample.km
      (KeyExample.save "my key" None).2
    = (Ok m, (KeyExample.save "my key" None).2)
    ∧ m !! KeyManager.sanitize "my key"
      = Some (KeyManager.MkKeyInfo (KeyManager.sanitize "my key")
                "keys/my_key.key" (truthy_str None)
                (VStr (if truthy_str None then "encrypted" else "AES-256-CBC"))).
Proof.
  apply (list_keys_after_save toy_codec_laws toy_keywrap_laws KeyExample.km
           KeyExample.aes_key "my key" None "AES-256-CBC" Toy.world0).
  - vm_compute. reflexivity.
  - vm_compute. reflexivity.
  - vm_compute. repeat (apply NoDup_cons; split; [set_solver|]). apply NoDup_nil_2.
  - vm_compute. reflexivity.
Defined.

(* ===================================================================== *)
(** ** Generated keys through the key store                              *)
(* ===================================================================== *)

Section GeneratedKeys.
Context {BC : BlockCipher} {AE : AEAD} {CD : Codec} {R : RSA} {KW : KeyWrap}.
Context (CL : CodecLaws CD) (KL : KeyWrapLaws CD KW).

Import KeyManager.

(** Saving a key dictionary [json] can write and loading it again. *)
Lemma save_load_ok (self : KeyManager.t) (key_data : dict) (key_name : string)
    (password : option string) (w : world) :
  sanitize key_name = key_name →
  json_safe (save_record key_data key_name (now w)) = true →
  ∃ p w1,
    save_key self key_data key_name password w = (Ok p, w1)
    ∧ load_key self key_name password w1
      = (Ok (Some (load_fields [] (save_record key_data key_name (now w)))), w1).
Proof.
  intros Hname Hsafe.
  destruct (save_key_ok CL KL self key_data key_name password w)
    as (p & w1 & Hs); [by rewrite Hname|].
  exists p, w1. split; [done|].
  by apply (save_then_load CL KL self key_data key_name password w w1 p).
Qed.

(** X10. For every registered algorithm, the dictionary [generate_key]
    returns can be saved under a name that sanitising leaves alone, with
    any password or none, and [load_key] with the same name and password
    then returns a dictionary with the same [key], [iv], [private_pem]
    and [public_pem] byte strings and the name of the algorithm. *)
Theorem generated_key_save_load (name : string) (cipher : CryptoBase.t)
    (self : KeyManager.t) (key_name : string) (password : option string)
    (w0 : world) :
  created name cipher → sanitize key_name = key_name →
  ∃ kd w p w1 result,
    CryptoBase.generate_key cipher no_kwargs w0 = (Ok kd, w)
    ∧ save_key self kd key_name password w = (Ok p, w1)
    ∧ load_key self key_name password w1 = (Ok (Some result), w1)
    ∧ bytes_entry result "key" = bytes_entry kd "key"
    ∧ bytes_entry result "iv" = bytes_entry kd "iv"
    ∧ bytes_entry result "private_pem" = bytes_entry kd "private_pem"
    ∧ bytes_entry result "public_pem" = bytes_entry kd "public_pem"
    ∧ dict_get result "algorithm" = Some (VStr name).
Proof.
  intros Hc Hname. destruct Hc as [ks m c Hks Hm Hinit|bits c Hbits Hinit|].
  - pose proof Hinit as (_ & _ & ->)%aes_init_inv.
    cbn [AESCipher.as_base CryptoBase.generate_key].
    unfold AESCipher.generate_key. cbn [AESCipher.key_size AESCipher.name
      AESCipher.mode].
    destruct (urandom_length (ks / 8) w0) as (key & wa & Hu1 & _ & _).
    destruct (urandom_length 16 wa) as (iv & w & Hu2 & _ & _).
    set (kd := aes_key_dict ("AES-" +:+ pretty ks +:+ "-" +:+ m) m ks key iv).
    destruct (save_load_ok self kd key_name password w Hname eq_refl)
      as (p & w1 & Hs & Hl).
    exists kd, w, p, w1. eexists.
    split; [unfold bind; by rewrite Hu1, Hu2|].
    split; [done|]. split; [exact Hl|].
    unfold save_record, kd, aes_key_dict.
    cbn [save_fields dict_get dict_set String.eqb Ascii.eqb Bool.eqb
         default from_option id].
    repeat first [ rewrite (load_fields_encoded CL) by reflexivity
                 | rewrite load_fields_plain by reflexivity ].
    repeat split; reflexivity.
  - unfold RSACipher.init in Hinit.
    destruct (bits <? 1024); [done|]. injection Hinit as <-.
    cbn [RSACipher.as_base CryptoBase.generate_key].
    unfold RSACipher.generate_key. cbn [RSACipher.key_size RSACipher.name
      kw_passphrase no_kwargs].
    destruct (urandom_length (bits / 8) w0) as (seed & w & Hu1 & _ & _).
    set (priv := rsa_generate bits seed).
    set (kd := rsa_key_dict ("RSA-" +:+ pretty bits) bits priv
                 (rsa_public_key priv)
                 (rsa_private_pem priv (RSACipher.passphrase_bytes None))
                 (rsa_public_pem (rsa_public_key priv))).
    destruct (save_load_ok self kd key_name password w Hname eq_refl)
      as (p & w1 & Hs & Hl).
    exists kd, w, p, w1. eexists.
    split; [unfold bind; by rewrite Hu1|].
    split; [done|]. split; [exact Hl|].
    unfold save_record, kd, rsa_key_dict.
    cbn [save_fields dict_get dict_set String.eqb Ascii.eqb Bool.eqb
         default from_option id].
    repeat first [ rewrite (load_fields_encoded CL) by reflexivity
                 | rewrite load_fields_plain by reflexivity ].
    repeat split; reflexivity.
  - cbn [ChaCha20Cipher.as_base CryptoBase.generate_key].
    unfold ChaCha20Cipher.generate_key.
    cbn [ChaCha20Cipher.key_size ChaCha20Cipher.name ChaCha20Cipher.init].
    destruct (urandom_length 32 w0) as (key & w & Hu1 & _ & _).
    set (kd := [ ("algorithm", VStr "ChaCha20-Poly1305");
                 ("key", VBytes key);
                 ("key_b64", VStr (b64encode key));
                 ("key_format", VStr "base64");
                 ("meta", VDict [("key_size", VInt (Z.of_nat 256))]) ]).
    destruct (save_load_ok self kd key_name password w Hname eq_refl)
      as (p & w1 & Hs & Hl).
    exists kd, w, p, w1. eexists.
    split; [unfold bind; by rewrite Hu1|].
    split; [done|]. split; [exact Hl|].
    unfold save_record, kd.
    cbn [save_fields dict_get dict_set String.eqb Ascii.eqb Bool.eqb
         default from_option id].
    repeat first [ rewrite (load_fields_encoded CL) by reflexivity
                 | rewrite load_fields_plain by reflexivity ].
    repeat split; reflexivity.
Qed.

End GeneratedKeys.

Lemma generated_key_save_load_witness :
  ∃ kd w p w1 result,
    CryptoBase.generate_key
      (AESCipher.as_base (BC := Toy.block) (CD := Toy.codec) aes256)
      no_kwargs Toy.world0 = (Ok kd, w)
    ∧ KeyManager.save_key (CD := Toy.codec) (KW := Toy.keywrap) KeyExample.km
        kd "k1" (Some "secret") w = (Ok p, w1)
    ∧ KeyManager.load_key (CD := Toy.codec) (KW := Toy.keywrap) KeyExample.km
        "k1" (Some "secret") w1 = (Ok (Some result), w1)
    ∧ bytes_entry result "key" = bytes_entry kd "key"
    ∧ bytes_entry result "iv" = bytes_entry kd "iv"
    ∧ bytes_entry result "private_pem" = bytes_entry kd "private_pem"
    ∧ bytes_entry result "public_pem" = bytes_entry kd "public_pem"
    ∧ dict_get result "algorithm" = Some (VStr "AES-256-CBC").
Proof.
  apply (generated_key_save_load (BC := Toy.block) (AE := Toy.aead)
           (R := Toy.rsa) toy_codec_laws toy_keywrap_laws
           "AES-256-CBC" _ KeyExample.km "k1" (Some "secret") Toy.world0).
  - apply (created_aes (BC := Toy.block) (AE := Toy.aead) (CD := Toy.codec)
             (R := Toy.rsa) 256 "CBC" aes256).
    + set_solver.
    + set_solver.
    + reflexivity.
  - reflexivity.
Defined.

(* ===================================================================== *)
(** ** The registry: lookup by name and categories                       *)
(* ===================================================================== *)

Section RegistryExtras.
Context {BC : BlockCipher} {AE : AEAD} {CD : Codec} {R : RSA}.

Import CryptoFactory.

(** Every registered name has a constructor that succeeds. *)
Lemma create_algorithm_registered (name : string) :
  name ∈ registered_names →
  ∃ cipher, create_algorithm crypto_factory name = Ok cipher.
Proof.
  unfold registered_names. rewrite !elem_of_cons, elem_of_nil.
  intros H. repeat (destruct H as [->|H]; [eexists; reflexivity|]). done.
Qed.

(** X11. [get_crypto_by_name] on the module's registry never raises: for
    a registered name it returns the cipher [create_algorithm] makes,
    for any other name it returns [None] where [create_algorithm] raises
    [ValueError]. *)
Theorem get_crypto_by_name_total (name : string) :
  (name ∈ registered_names
   ∧ ∃ cipher, get_crypto_by_name crypto_factory name = Ok (Some cipher)
               ∧ create_algorithm crypto_factory name = Ok cipher)
  ∨ (name ∉ registered_names
     ∧ get_crypto_by_name crypto_factory name = Ok None
     ∧ create_algorithm crypto_factory name = Raise ValueError).
Proof.
  destruct (decide (name ∈ registered_names)) as [Hin|Hout].
  - left. split; [done|].
    destruct (create_algorithm_registered name Hin) as [c Hc].
    exists c. unfold get_crypto_by_name. by rewrite Hc.
  - right. split; [done|].
    pose proof (create_algorithm_unregistered name Hout) as Hc.
    unfold get_crypto_by_name. by rewrite Hc.
Qed.

(** The loop of [get_algorithm_by_category] over any list of names. *)
Lemma category_loop (names : list string) (sym asym other : list string) :
  foldl (fun categories algo_name =>
           if String.prefix "AES" algo_name
           then category_append categories "对称加密" algo_name
           else if String.prefix "RSA" algo_name
                then category_append categories "非对称加密" algo_name
                else category_append categories "其他" algo_name)
        [ ("对称加密", sym); ("非对称加密", asym); ("其他", other) ] names
  = [ ("对称加密",
       sym ++ filter (fun n => String.prefix "AES" n = true) names);
      ("非对称加密",
       asym ++ filter (fun n => String.prefix "AES" n = false
                                ∧ String.prefix "RSA" n = true) names);
      ("其他",
       other ++ filter (fun n => String.prefix "AES" n = false
                                 ∧ String.prefix "RSA" n = false) names) ].
Proof.
  revert sym asym other. induction names as [|n names IH];
    intros sym asym other.
  - cbn. by rewrite !app_nil_r.
  - cbn [foldl]. destruct (String.prefix "AES" n) eqn:Ea.
    + change (category_append _ "对称加密" n)
        with [ ("对称加密", sym ++ [n]); ("非对称加密", asym); ("其他", other) ].
      rewrite IH.
      rewrite (filter_cons_True (fun n => String.prefix "AES" n = true)) by done.
      rewrite !filter_cons_False by (rewrite Ea; intros [? ?]; done).
      by rewrite <- app_assoc.
    + destruct (String.prefix "RSA" n) eqn:Er.
      * change (category_append _ "非对称加密" n)
          with [ ("对称加密", sym); ("非对称加密", asym ++ [n]); ("其他", other) ].
        rewrite IH.
        rewrite (filter_cons_False (fun n => String.prefix "AES" n = true))
          by (by rewrite Ea).
        rewrite (filter_cons_True
                   (fun n => String.prefix "AES" n = false
                             ∧ String.prefix "RSA" n = true)) by done.
        rewrite filter_cons_False by (rewrite Er; intros [? ?]; done).
        by rewrite <- app_assoc.
      * change (category_append _ "其他" n)
          with [ ("对称加密", sym); ("非对称加密", asym); ("其他", other ++ [n]) ].
        rewrite IH.
        rewrite (filter_cons_False (fun n => String.prefix "AES" n = true))
          by (by rewrite Ea).
        rewrite (filter_cons_False
                   (fun n => String.prefix "AES" n = false
                             ∧ String.prefix "RSA" n = true))
          by (rewrite Er; intros [? ?]; done).
        rewrite filter_cons_True by done.
        by rewrite <- app_assoc.
Qed.

Lemma get_all_algorithms_elem (self : CryptoFactory.t) (name : string) :
  name ∈ get_all_algorithms self ↔ is_Some (algorithms self !! name).
Proof.
  unfold get_all_algorithms. rewrite list_elem_of_fmap. split.
  - intros ([n f] & -> & H). apply elem_of_map_to_list in H. cbn. eauto.
  - intros [f H]. exists (name, f). split; [done|]. by apply elem_of_map_to_list.
Qed.

(** X12. [get_algorithm_by_category] files every registered name under
    exactly one of its three headings, by the first letters of the name
    alone: ["AES"] under the symmetric heading, ["RSA"] under the
    asymmetric one, anything else under the third. On the module's
    registry the third heading therefore holds ChaCha20-Poly1305, a
    symmetric cipher. *)
Theorem categories_by_prefix (self : CryptoFactory.t) :
  ∃ sym asym other,
    get_algorithm_by_category self
    = [ ("对称加密", sym); ("非对称加密", asym); ("其他", other) ]
    ∧ (∀ name, name ∈ sym ↔
         is_Some (algorithms self !! name) ∧ String.prefix "AES" name = true)
    ∧ (∀ name, name ∈ asym ↔
         is_Some (algorithms self !! name) ∧ String.prefix "AES" name = false
         ∧ String.prefix "RSA" name = true)
    ∧ (∀ name, name ∈ other ↔
         is_Some (algorithms self !! name) ∧ String.prefix "AES" name = false
         ∧ String.prefix "RSA" name = false)
    ∧ (self = crypto_factory → other = ["ChaCha20-Poly1305"]).
Proof.
  eexists _, _, _. split.
  { unfold get_algorithm_by_category. apply category_loop. }
  cbn [app].
  split; [|split; [|split]].
  - intros name. rewrite list_elem_of_filter, get_all_algorithms_elem. tauto.
  - intros name. rewrite list_elem_of_filter, get_all_algorithms_elem. tauto.
  - intros name. rewrite list_elem_of_filter, get_all_algorithms_elem. tauto.
  - intros ->. vm_compute. reflexivity.
Qed.

End RegistryExtras.

(* ===================================================================== *)
(** ** RSA: loading keys, and the envelope on bad input                  *)
(* ===================================================================== *)

Section RSAExtras.
Context {BC : BlockCipher} {CD : Codec} {R : RSA}.
Context (BL : BlockCipherLaws BC) (RL : RSALaws R).

Import RSACipher.

(** X13. [load_key] on the private PEM text that [generate_key] made,
    with the passphrase it was made with, rebuilds every entry of the
    generated dictionary: the key objects, both PEM texts, the name and
    the size; a public PEM passed along is not looked at. *)
Theorem rsa_load_key_generated (self : RSACipher.t) (kw : kwargs)
    (any_public_pem : option bytes) (kd : dict) (w w' : world) :
  generate_key self kw w = (Ok kd, w') →
  ∃ loaded,
    load_key self any_public_pem (bytes_entry kd "private_pem")
      (kw_passphrase kw) = Ok loaded
    ∧ ∀ k, dict_get loaded k = dict_get kd k.
Proof.
  unfold generate_key. unfold bind at 1.
  destruct (urandom_length (key_size self / 8) w) as (seed & w1 & Hu & _ & _).
  rewrite Hu. unfold ret. intros [= <- <-].
  set (priv := rsa_generate (key_size self) seed).
  set (pw := passphrase_bytes (kw_passphrase kw)).
  change (bytes_entry _ "private_pem") with (Some (rsa_private_pem priv pw)).
  unfold load_key.
  assert (truthy (Some (rsa_private_pem priv pw)) = true) as ->.
  { pose proof (rsa_private_pem_nonempty priv pw).
    by destruct (rsa_private_pem priv pw). }
  cbn [default from_option id]. fold pw.
  rewrite load_private_pem.
  eexists. split; [reflexivity|].
  cbn [dict_set String.eqb Ascii.eqb Bool.eqb].
  intros k. cbn [dict_get].
  repeat match goal with
         | |- context [String.eqb ?s k] =>
             lazymatch s with
             | k => fail
             | _ => destruct (String.eqb_spec s k) as [<-|?]; [reflexivity|]
             end
         end.
  reflexivity.
Qed.

(** X14. [encrypt_file] on an input file that does not exist returns
    [False], yet leaves an output file behind: the 4-byte length and the
    wrapped session key are written before the missing temporary file is
    noticed, because the result of the AES pass is not looked at. *)
Theorem rsa_encrypt_file_missing_input (self : RSACipher.t)
    (input_file output_file : string) (k : bytes) (n : nat) (kw : kwargs)
    (pub : bytes) (w : world) :
  kw_public_key kw = Some pub →
  48 + 66 ≤ rsa_modulus_bytes pub →
  (N.of_nat (rsa_modulus_bytes pub) < 2 ^ 32)%N →
  fs w !! input_file = None →
  fs w !! (output_file +:+ ".temp") = None →
  ∃ prefix wrapped w',
    encrypt_file self input_file output_file k n kw w = (Ok false, w')
    ∧ fs w' = <[output_file := prefix ++ wrapped]> (fs w)
    ∧ length prefix = 4
    ∧ length wrapped = rsa_modulus_bytes pub.
Proof.
  intros Hpub Hmod Hmod32 Hin Htemp.
  destruct (urandom_length 32 w) as (key & w1 & Hu1 & Hkl & Hf1).
  destruct (urandom_length 16 w1) as (iv & w2 & Hu2 & Hil & Hf2).
  set (temp := output_file +:+ ".temp") in *.
  destruct (urandom_length 32 w2) as (seed & w4 & Hu3 & _ & Hf4).
  destruct (oaep_encrypt_ok pub seed (key ++ iv)) as (wrapped & Hw & Hwl).
  { rewrite length_app. lia. }
  destruct (to_bytes4_big_ok (length wrapped)) as (prefix & Hp & Hpl & _).
  { by rewrite Hwl. }
  exists prefix, wrapped. eexists.
  assert (output_file ≠ temp) as Hot by apply temp_ne.
  split; [|split; [|by split]].
  - unfold encrypt_file, missing_public, resolve_public. rewrite Hpub.
    rewrite bool_decide_eq_true_2 by eauto. cbn [negb andb].
    unfold try_except.
    unfold bind at 1. unfold lift at 1.
    unfold bind at 1. unfold lift at 1. rewrite aes256_init.
    unfold bind at 1. unfold AESCipher.generate_key.
    unfold bind at 1. cbn [AESCipher.key_size aes256].
    change (256 / 8) with 32. rewrite Hu1.
    unfold bind at 1. rewrite Hu2. unfold ret at 1.
    unfold bind at 1. unfold lift at 1. unfold dict_bytes at 1.
    cbn [dict_get String.eqb Ascii.eqb Bool.eqb].
    unfold bind at 1. unfold lift at 1. unfold dict_bytes at 1.
    cbn [dict_get String.eqb Ascii.eqb Bool.eqb].
    unfold bind at 1. unfold AESCipher.encrypt_file.
    rewrite (base_file_missing _ input_file temp key n (with_iv iv) w2)
      by (by rewrite Hf2, Hf1).
    unfold bind at 1. rewrite Hu3.
    unfold bind at 1. unfold lift at 1. rewrite Hw.
    unfold bind at 1. rewrite open_wb_run.
    unfold bind at 1. unfold lift at 1. rewrite Hp.
    unfold bind at 1.
    rewrite (write_run output_file prefix [])
      by (by rewrite wfs_fs, lookup_insert_eq).
    unfold bind at 1.
    rewrite (write_run output_file wrapped ([] ++ prefix))
      by (by rewrite wfs_fs, lookup_insert_eq).
    unfold bind at 1. unfold open_rb at 1.
    rewrite !wfs_fs, !lookup_insert_ne by done.
    fold temp. rewrite Hf4, Hf2, Hf1, Htemp.
    unfold bind at 1. rewrite remove_if_exists_run. unfold ret. reflexivity.
  - rewrite !wfs_fs, !insert_insert_eq.
    rewrite delete_id by (by rewrite lookup_insert_ne).
    by rewrite app_nil_l.
Qed.

(** X15. [decrypt_file] on a container that is shorter than its own
    header says (fewer than 4 bytes, or fewer bytes after them than the
    length they announce) returns [False] and writes nothing: no output
    file, and a temporary file left from before is removed. *)
Theorem rsa_decrypt_file_malformed (self : RSACipher.t)
    (input_file output_file : string) (k : bytes) (n : nat) (kw : kwargs)
    (priv container : bytes) (w : world) :
  kw_private_key kw = Some priv →
  fs w !! input_file = Some container →
  length container < 4 + from_bytes_big (take 4 container) →
  decrypt_file self input_file output_file k n kw w
  = (Ok false, wfs (delete (input_file +:+ ".temp") (fs w)) w).
Proof.
  intros Hpriv Hin Hshort.
  unfold decrypt_file, missing_private, resolve_private. rewrite Hpriv.
  rewrite bool_decide_eq_true_2 by eauto. cbn [negb andb].
  unfold try_except.
  unfold bind at 1. unfold lift at 1.
  unfold bind at 1. rewrite (open_rb_run _ _ _ Hin).
  unfold bind at 1. rewrite (contents_run _ _ _ Hin).
  destruct (length (take 4 container) =? 4) eqn:E4; cbn [negb].
  - apply Nat.eqb_eq in E4.
    assert ((length (take (from_bytes_big (take 4 container)) (drop 4 container))
             =? from_bytes_big (take 4 container)) = false) as ->.
    { apply Nat.eqb_neq. rewrite length_take, length_drop.
      rewrite length_take in E4. lia. }
    cbn [negb]. unfold raise. unfold bind at 1.
    by rewrite remove_if_exists_run.
  - unfold raise. unfold bind at 1. by rewrite remove_if_exists_run.
Qed.

End RSAExtras.

Lemma rsa_load_key_generated_witness :
  ∃ loaded,
    RSACipher.load_key (R := Toy.rsa) EnvelopeExample.rsa2048 None
      (bytes_entry
         (rsa_key_dict "RSA-2048" 2048 EnvelopeExample.priv EnvelopeExample.priv
            (x2d :: EnvelopeExample.priv) (x2d :: EnvelopeExample.priv))
         "private_pem")
      (kw_passphrase no_kwargs) = Ok loaded
    ∧ ∀ k, dict_get loaded k
           = dict_get
               (rsa_key_dict "RSA-2048" 2048 EnvelopeExample.priv
                  EnvelopeExample.priv (x2d :: EnvelopeExample.priv)
                  (x2d :: EnvelopeExample.priv)) k.
Proof.
  apply (rsa_load_key_generated (R := Toy.rsa) toy_rsa_laws
           EnvelopeExample.rsa2048 no_kwargs None _ Toy.world0
           (RSACipher.generate_key (R := Toy.rsa) EnvelopeExample.rsa2048
              no_kwargs Toy.world0).2).
  vm_compute. reflexivity.
Defined.

Lemma rsa_encrypt_file_missing_input_witness :
  ∃ prefix wrapped w',
    RSACipher.encrypt_file (BC := Toy.block) (CD := Toy.codec) (R := Toy.rsa)
      EnvelopeExample.rsa2048 "absent.bin" "out.enc" [] 4096
      EnvelopeExample.kw Toy.world0 = (Ok false, w')
    ∧ fs w' = <["out.enc" := prefix ++ wrapped]> (fs Toy.world0)
    ∧ length prefix = 4
    ∧ length wrapped
      = rsa_modulus_bytes (RSA := Toy.rsa)
          (rsa_public_key (RSA := Toy.rsa) EnvelopeExample.priv).
Proof.
  apply (rsa_encrypt_file_missing_input (CD := Toy.codec) toy_rsa_laws).
  - reflexivity.
  - vm_compute. lia.
  - reflexivity.
  - apply lookup_empty.
  - apply lookup_empty.
Defined.

Lemma rsa_decrypt_file_malformed_witness :
  RSACipher.decrypt_file (BC := Toy.block) (R := Toy.rsa)
    EnvelopeExample.rsa2048 "plain.bin" "plain.out" [] 4096
    EnvelopeExample.kw (Example.world_with [x00; x00; x01; x00; x2a])
  = (Ok false,
     wfs (delete "plain.bin.temp" (fs (Example.world_with [x00; x00; x01; x00; x2a])))
         (Example.world_with [x00; x00; x01; x00; x2a])).
Proof.
  apply (rsa_decrypt_file_malformed (BC := Toy.block)
           (R := Toy.rsa) EnvelopeExample.rsa2048 "plain.bin" "plain.out" []
           4096 EnvelopeExample.kw EnvelopeExample.priv
           [x00; x00; x01; x00; x2a]).
  - reflexivity.
  - apply lookup_singleton_eq.
  - vm_compute. lia.
Defined.

(* ===================================================================== *)
(** ** Hashing files                                                     *)
(* ===================================================================== *)

Section HashFacts.

Lemma hash_update_all (h : hash_obj) (cs : list bytes) :
  foldl hash_update h cs = MkHashObj (digest_of h) (fed h ++ concat cs).
Proof.
  revert h. induction cs as [|c cs IH]; intros h.
  - cbn. rewrite app_nil_r. by destruct h.
  - cbn [foldl concat]. rewrite IH. cbn [hash_update digest_of fed].
    by rewrite app_assoc.
Qed.

Lemma hash_loop_run (h : hash_obj) (cs : list bytes) (w : world) :
  fold_each cs h (fun chunk hash_obj => ret (hash_update hash_obj chunk)) w
  = (Ok (foldl hash_update h cs), w).
Proof. by apply fold_each_pure. Qed.

(** What [hash_file] returns on a file that exists. *)
Lemma hash_file_run (hf : HashFunction.t) (file_path : string) (n : nat)
    (data : bytes) (w : world) :
  fs w !! file_path = Some data →
  HashFunction.hash_file hf file_path n w
  = (HashFunction.hash_data hf (if n =? 0 then [] else data), w).
Proof.
  intros Hin. unfold HashFunction.hash_file, HashFunction.hash_data.
  unfold bind at 1. unfold lift at 1.
  destruct (HashFunction.hash_func hf tt) as [h|e]; [|done].
  unfold bind at 1. rewrite (getsize_run _ _ _ Hin).
  unfold bind at 1. rewrite (open_rb_run _ _ _ Hin).
  unfold bind at 1. rewrite (contents_run _ _ _ Hin).
  unfold bind at 1. rewrite hash_loop_run. unfold ret.
  rewrite hash_update_all. unfold hexdigest, hash_update. cbn [digest_of fed].
  destruct n as [|n]; cbn [Nat.eqb].
  - by rewrite chunks_zero.
  - by rewrite chunks_concat by lia.
Qed.

(** X16. [hash_file] reads the file in chunks and yet returns what
    [hash_data] returns on the whole content, for every positive chunk
    size and every hash function, raising when the function raises. With
    a chunk size of 0 the loop reads nothing, and the result is the
    digest of the empty string whatever the file holds. *)
Theorem hash_file_matches_hash_data (hf : HashFunction.t) (file_path : string)
    (n : nat) (data : bytes) (w : world) :
  fs w !! file_path = Some data →
  HashFunction.hash_file hf file_path n w
  = (HashFunction.hash_data hf (if n =? 0 then [] else data), w).
Proof. apply hash_file_run. Qed.



End HashFacts.

Section HashRegistry.
Context {HL : Hashlib}.

Import HashAlgorithms.


(** X18. [verify_file_hash] never raises: for an algorithm name that is
    not registered and for a file that does not exist it returns
    [False], where [get_algorithm] raises [ValueError] and [hash_file]
    raises [OSError]. Names are matched exactly: the registry holds
    ["SHA256"], not ["sha256"]. *)
Theorem verify_file_hash_failures (self : HashAlgorithms.t)
    (algorithm_name file_path expected : string) (n : nat) (w : world) :
  (algorithms self !! algorithm_name = None →
     get_algorithm self algorithm_name = Raise ValueError
     ∧ verify_file_hash self file_path expected algorithm_name n w
       = (Ok false, w))
  ∧ (∀ hf h, get_algorithm self algorithm_name = Ok hf →
       HashFunction.hash_func hf tt = Ok h →
       fs w !! file_path = None →
       HashFunction.hash_file hf file_path n w = (Raise OSError, w)
       ∧ verify_file_hash self file_path expected algorithm_name n w
         = (Ok false, w))
  ∧ is_Some (algorithms hash_algorithms !! "SHA256")
  ∧ algorithms hash_algorithms !! "sha256" = None.
Proof.
  split; [|split; [|split]].
  - intros Hnone.
    assert (get_algorithm self algorithm_name = Raise ValueError) as Hg
      by (unfold get_algorithm; by rewrite Hnone).
    split; [done|].
    unfold verify_file_hash, try_except. unfold bind at 1. unfold lift at 1.
    by rewrite Hg.
  - intros hf h Hg Hh Hin.
    assert (HashFunction.hash_file hf file_path n w = (Raise OSError, w)) as Hf.
    { unfold HashFunction.hash_file. unfold bind at 1. unfold lift at 1.
      rewrite Hh. unfold bind at 1. unfold getsize. by rewrite Hin. }
    split; [done|].
    unfold verify_file_hash, try_except. unfold bind at 1. unfold lift at 1.
    rewrite Hg. unfold bind at 1. by rewrite Hf.
  - unfold hash_algorithms, init, _register_algorithms.
    destruct hashlib_has_sha3, hashlib_has_blake2; vm_compute; eauto.
  - unfold hash_algorithms, init, _register_algorithms.
    destruct hashlib_has_sha3, hashlib_has_blake2; vm_compute; reflexivity.
Qed.

End HashRegistry.

(* ===================================================================== *)
(** ** [secure_delete]                                                   *)
(* ===================================================================== *)

Section SecureDelete.

Import FileUtils.

(** X19. [secure_delete] removes a file only when asked for no
    overwriting pass at all. With one pass or more, the first pass
    replaces the content by zero bytes and the call then fails on the
    closed file object: it returns [False] and the file stays, zeroed.
    A missing file gives [False] and no change. *)
Theorem secure_delete_outcome (file_path : string) (passes : nat) (w : world) :
  secure_delete file_path passes w
  = match fs w !! file_path with
    | None => (Ok false, w)
    | Some data =>
        if passes =? 0
        then (Ok true, wfs (delete file_path (fs w)) w)
        else (Ok false,
              wfs (<[file_path := replicate (length data) x00]> (fs w)) w)
    end.
Proof.
  unfold secure_delete. unfold bind at 1. unfold isfile at 1.
  destruct (fs w !! file_path) as [data|] eqn:Hin.
  - rewrite bool_decide_eq_true_2 by eauto. cbn [negb].
    unfold try_except. unfold bind at 1. rewrite (getsize_run _ _ _ Hin).
    destruct passes as [|passes]; cbn [Nat.eqb seq for_each].
    + unfold bind at 1. unfold ret at 1.
      unfold bind at 1. unfold remove. rewrite Hin. done.
    + unfold bind at 1. unfold bind at 1. unfold bind at 1.
      rewrite open_wb_run.
      unfold bind at 1.
      rewrite (write_run file_path _ []) by (by rewrite wfs_fs, lookup_insert_eq).
      unfold bind at 1. unfold fileno_closed, raise, ret.
      by rewrite !wfs_fs, insert_insert_eq, wfs_wfs.
  - rewrite bool_decide_eq_false_2 by (by intros [? ?]). done.
Qed.

End SecureDelete.


Lemma hash_file_matches_hash_data_witness :
  HashFunction.hash_file
    (HashFunction.MkHashFunction "SHA256"
       (hash_constructor (hashlib_sha256 (Hashlib := Toy.hashlib))) EmptyString)
    "plain.bin" 2 (Example.world_with [x01; x02; x02])
  = (HashFunction.hash_data
       (HashFunction.MkHashFunction "SHA256"
          (hash_constructor (hashlib_sha256 (Hashlib := Toy.hashlib))) EmptyString)
       (if 2 =? 0 then [] else [x01; x02; x02]),
     Example.world_with [x01; x02; x02]).
Proof. apply hash_file_matches_hash_data. apply lookup_singleton_eq. Defined.

(* ===================================================================== *)
(** ** The command line                                                  *)
(* ===================================================================== *)

Section CliFacts.
Context {BC : BlockCipher} {AE : AEAD} {CD : Codec} {R : RSA} {KW : KeyWrap}.
Context (CL : CodecLaws CD) (KL : KeyWrapLaws CD KW).

Import CryptoFactory KeyManager.

Lemma path_exists_run (p : string) (d : bytes) (w : world) :
  fs w !! p = Some d → path_exists p w = (Ok true, w).
Proof.
  intros H. unfold path_exists. by rewrite bool_decide_eq_true_2 by eauto.
Qed.

(** [generate_key] returns [True] only when every step went through. *)
Lemma cli_generate_key_inv (km : KeyManager.t) (a : Cli.args) (w w1 : world) :
  Cli.generate_key km a w = (Ok true, w1) →
  ∃ cipher kd w' p,
    create_algorithm crypto_factory (Cli.algorithm a) = Ok cipher
    ∧ CryptoBase.generate_key cipher no_kwargs w = (Ok kd, w')
    ∧ save_key km kd (Cli.name a) (Cli.password a) w' = (Ok p, w1).
Proof.
  unfold Cli.generate_key, try_except. unfold bind at 1. unfold lift at 1.
  destruct (create_algorithm crypto_factory (Cli.algorithm a)) as [c|e] eqn:Ec;
    [|by intros [= ?]].
  unfold bind at 1.
  destruct (CryptoBase.generate_key c no_kwargs w) as [[kd|e] w'] eqn:Eg;
    [|by intros [= ?]].
  unfold bind at 1.
  destruct (save_key km kd (Cli.name a) (Cli.password a) w') as [[p|e] w'']
    eqn:Es; [|by intros [= ?]].
  unfold ret. intros [= <-]. by exists c, kd, w', p.
Qed.

Lemma create_rsa (bits : nat) :
  bits ∈ [1024; 2048; 4096] →
  create_algorithm crypto_factory ("RSA-" +:+ pretty bits)
  = Ok (RSACipher.as_base (RSACipher.MkRSA ("RSA-" +:+ pretty bits) bits)).
Proof.
  rewrite !elem_of_cons, elem_of_nil.
  intros [->|[->|[->|[]]]]; reflexivity.
Qed.

Lemma create_aes_cbc (ks : nat) :
  ks ∈ [128; 192; 256] →
  create_algorithm crypto_factory ("AES-" +:+ pretty ks +:+ "-CBC")
  = Ok (AESCipher.as_base
          (AESCipher.MkAES ("AES-" +:+ pretty ks +:+ "-CBC") ks "CBC" 128))
  ∧ AESCipher.init ks "CBC"
    = Ok (AESCipher.MkAES ("AES-" +:+ pretty ks +:+ "-CBC") ks "CBC" 128).
Proof.
  rewrite !elem_of_cons, elem_of_nil.
  intros [->|[->|[->|[]]]]; split; reflexivity.
Qed.

(** What the registry makes, with no assumption on the libraries. *)
Lemma create_algorithm_created (name : string) (cipher : CryptoBase.t) :
  create_algorithm crypto_factory name = Ok cipher → created name cipher.
Proof.
  clear CL KL.
  unfold create_algorithm.
  destruct (algorithms crypto_factory !! name) as [f|] eqn:E; [|done].
  unfold crypto_factory, init, _register_algorithms, register_algorithm in E.
  cbn [algorithms] in E.
  repeat (apply lookup_insert_Some in E as [[<- <-]|[_ E]]);
    [.. | by rewrite lookup_empty in E].
  all: intros H.
  1: { injection H as <-. apply created_chacha. }
  1-3: (unfold rsa_factory in H;
          match type of H with
          | match RSACipher.init ?b with _ => _ end = _ =>
              destruct (RSACipher.init b) as [self|] eqn:Ei; [|done];
              injection H as <-;
              apply (created_rsa b self); [set_solver|done]
          end).
  all: unfold aes_factory in H;
       match type of H with
       | match AESCipher.init ?k ?m with _ => _ end = _ =>
           destruct (AESCipher.init k m) as [self|] eqn:Ei; [|done];
           injection H as <-;
           apply (created_aes k m self); [set_solver|set_solver|done]
       end.
Qed.

(** Generating a key draws random bytes and touches no file. *)
Lemma generate_key_keeps_files (name : string) (cipher : CryptoBase.t)
    (kd : dict) (w w' : world) :
  create_algorithm crypto_factory name = Ok cipher →
  CryptoBase.generate_key cipher no_kwargs w = (Ok kd, w') →
  fs w' = fs w.
Proof.
  intros Hc%create_algorithm_created.
  destruct Hc as [ks m c Hks Hm Hinit|bits c Hbits Hinit|].
  - cbn [AESCipher.as_base CryptoBase.generate_key].
    unfold AESCipher.generate_key. unfold bind at 1.
    destruct (urandom_length (AESCipher.key_size c / 8) w)
      as (key & wa & Hu1 & _ & Hf1).
    rewrite Hu1. unfold bind at 1.
    destruct (urandom_length 16 wa) as (iv & wb & Hu2 & _ & Hf2).
    rewrite Hu2. unfold ret. intros [= _ <-]. by rewrite Hf2.
  - cbn [RSACipher.as_base CryptoBase.generate_key].
    unfold RSACipher.generate_key. unfold bind at 1.
    destruct (urandom_length (RSACipher.key_size c / 8) w)
      as (seed & wa & Hu1 & _ & Hf1).
    rewrite Hu1. unfold ret. by intros [= _ <-].
  - cbn [ChaCha20Cipher.as_base CryptoBase.generate_key].
    unfold ChaCha20Cipher.generate_key. unfold bind at 1.
    destruct (urandom_length 32 w) as (key & wa & Hu1 & _ & Hf1).
    rewrite Hu1. unfold ret. by intros [= _ <-].
Qed.

(** A stored record is read back wherever the world has moved to, as
    long as its file is as [save_key] left it. *)
Lemma load_stored (self : KeyManager.t) (key_data : dict)
    (key_name created : string) (password : option string) (content : bytes)
    (w : world) :
  fs w !! key_path self key_name = Some content →
  stored key_data key_name created password content →
  json_safe (save_record key_data key_name created) = true →
  load_key self key_name password w
  = (Ok (Some (load_fields [] (save_record key_data key_name created))), w).
Proof.
  intros Hf Hst Hsafe.
  set (record := save_record key_data key_name created) in *.
  unfold load_key.
  unfold bind at 1. unfold path_exists at 1.
  rewrite bool_decide_eq_true_2 by (rewrite Hf; eauto). cbn [negb].
  unfold try_except.
  unfold bind at 1. rewrite (open_rb_run _ _ _ Hf).
  unfold bind at 1. rewrite (contents_run _ _ _ Hf).
  unfold bind at 1. unfold read_record.
  unfold stored in Hst. destruct (truthy_str password) eqn:Et.
  - destruct Hst as (salt & iv & text & tok & Hsl & Hj & Hfe & ->).
    rewrite startswith_app. cbn [negb].
    destruct (json_loads_dumps record None Hsafe (save_record_NoDup CL KL _ _ _))
      as (text' & Hj' & Hl & _).
    fold record in Hj. rewrite Hj in Hj'. injection Hj' as <-.
    unfold bind at 1. unfold _derive_key_from_password at 1.
    unfold bind at 1. unfold ret at 1. unfold ret at 1. cbn [fst snd].
    change (drop 10 (blit "ENCRYPTED:" ++ salt ++ tok)) with (salt ++ tok).
    change (drop 26 (blit "ENCRYPTED:" ++ salt ++ tok)) with (drop 16 (salt ++ tok)).
    assert (take 16 (salt ++ tok) = salt) as ->
      by (by rewrite <- Hsl, take_app_length).
    assert (drop 16 (salt ++ tok) = tok) as ->
      by (by rewrite <- Hsl, drop_app_length).
    fold (derived_key (default EmptyString password) salt).
    unfold try_except. unfold bind at 1. unfold lift at 1.
    rewrite (fernet_decrypt_encrypt _ _ _ _ Hfe).
    unfold bind at 1. unfold lift at 1. rewrite utf8_decode_encode.
    unfold bind at 1. unfold lift at 1. rewrite Hl. done.
  - destruct Hst as (text & Hj & ->).
    destruct (json_loads_dumps record (Some 2) Hsafe (save_record_NoDup CL KL _ _ _))
      as (text' & Hj' & Hl & Hb).
    fold record in Hj. rewrite Hj in Hj'. injection Hj' as <-.
    rewrite (startswith_json text Hb).
    unfold bind at 1. unfold lift at 1. rewrite utf8_decode_encode.
    unfold bind at 1. unfold lift at 1. rewrite Hl. done.
Qed.

(** X20. An algorithm name that is not registered: [encrypt_file] of the
    command line raises [ValueError], since it asks the registry outside
    its [try] and the test for a missing cipher that follows can never
    fire; [generate_key], which asks inside its [try], returns [False];
    [main] turns both into exit status 1. Nothing is written. *)
Theorem cli_unknown_algorithm (km : KeyManager.t) (a : Cli.args)
    (parsed : bool) (data : bytes) (w : world) :
  Cli.algorithm a ∉ registered_names →
  fs w !! Cli.file a = Some data →
  Cli.encrypt_file km a w = (Raise ValueError, w)
  ∧ Cli.generate_key km a w = (Ok false, w)
  ∧ (Cli.command a = Some "encrypt" → Cli.main km a parsed w = (Ok 1, w))
  ∧ (Cli.command a = Some "key" → Cli.key_command a = Some "generate" →
     Cli.main km a parsed w = (Ok 1, w)).
Proof.
  intros Hout Hin.
  pose proof (create_algorithm_unregistered _ Hout) as Hc.
  assert (Cli.encrypt_file km a w = (Raise ValueError, w)) as He.
  { unfold Cli.encrypt_file. unfold bind at 1.
    rewrite (path_exists_run _ _ _ Hin). cbn [negb].
    unfold bind at 1. unfold lift at 1. by rewrite Hc. }
  assert (Cli.generate_key km a w = (Ok false, w)) as Hg.
  { unfold Cli.generate_key, try_except. unfold bind at 1. unfold lift at 1.
    by rewrite Hc. }
  split; [done|]. split; [done|]. split.
  - intros Hcmd. unfold Cli.main, try_except. rewrite Hcmd.
    cbn [default from_option id String.eqb Ascii.eqb Bool.eqb].
    unfold bind at 1. by rewrite He.
  - intros Hcmd Hk. unfold Cli.main, try_except. rewrite Hcmd, Hk.
    cbn [default from_option id String.eqb Ascii.eqb Bool.eqb].
    unfold bind at 1. by rewrite Hg.
Qed.

(** X21. The command line cannot encrypt with RSA. Without a key name,
    [encrypt_file] generates a key pair and then looks up its ["key"]
    entry, which an RSA dictionary does not have: the result is
    [False], no key is saved and no file is written. *)
Theorem cli_encrypt_rsa_fails (km : KeyManager.t) (a : Cli.args) (bits : nat)
    (data : bytes) (w : world) :
  bits ∈ [1024; 2048; 4096] →
  Cli.algorithm a = "RSA-" +:+ pretty bits →
  truthy_str (Cli.key a) = false →
  fs w !! Cli.file a = Some data →
  ∃ w', Cli.encrypt_file km a w = (Ok false, w') ∧ fs w' = fs w.
Proof.
  intros Hbits Halg Hkey Hin.
  destruct (urandom_length (bits / 8) w) as (seed & w' & Hu & _ & Hf).
  exists w'. split; [|done].
  unfold Cli.encrypt_file. unfold bind at 1.
  rewrite (path_exists_run _ _ _ Hin). cbn [negb].
  unfold bind at 1. unfold lift at 1. rewrite Halg, (create_rsa bits Hbits).
  unfold try_except. unfold bind at 1. rewrite Hkey.
  unfold bind at 1.
  cbn [RSACipher.as_base CryptoBase.generate_key].
  unfold RSACipher.generate_key.
  cbn [RSACipher.key_size RSACipher.name kw_passphrase no_kwargs].
  unfold bind at 1. rewrite Hu. unfold ret at 1.
  unfold bind at 1. unfold lift at 1. unfold dict_item.
  cbn [dict_get String.eqb Ascii.eqb Bool.eqb]. done.
Qed.

(** X22. A key that [generate_key] of the command line stored with a
    password, or for an RSA algorithm, is of no use to the command line:
    [encrypt_file] and [decrypt_file] load keys without a password and
    want a ["key"] entry, so with that key name both return [False] and
    write nothing. *)
Theorem cli_generated_key_rejected (km : KeyManager.t) (g a : Cli.args)
    (data : bytes) (w w1 : world) :
  Cli.generate_key km g w = (Ok true, w1) →
  truthy_str (Cli.password g) = true
  ∨ (∃ bits, bits ∈ [1024; 2048; 4096]
             ∧ Cli.algorithm g = "RSA-" +:+ pretty bits) →
  sanitize (Cli.name g) = Cli.name g →
  Cli.key a = Some (Cli.name g) → Cli.name g ≠ EmptyString →
  Cli.algorithm a ∈ registered_names →
  fs w1 !! Cli.file a = Some data →
  Cli.encrypt_file km a w1 = (Ok false, w1)
  ∧ Cli.decrypt_file km a w1 = (Ok false, w1).
Proof.
  intros Hg Hwhy Hname Hkey Hne Halg Hin.
  destruct (cli_generate_key_inv km g w w1 Hg)
    as (cipher & kd & w' & p & Hc & Hgen & Hs).
  assert (truthy_str (Cli.key a) = true) as Ht.
  { rewrite Hkey. by destruct (Cli.name g). }
  destruct (create_algorithm_registered _ Halg) as [crypto Hcr].
  assert (∃ loaded,
            load_key km (Cli.name g) None w1 = (Ok loaded, w1)
            ∧ match loaded with
              | None => True
              | Some result =>
                  dict_get result "key" = None
                  ∧ ∃ c, Cli.algorithm_of result = Ok c
              end) as (loaded & Hl & Hres).
  { destruct (truthy_str (Cli.password g)) eqn:Ep.
    - exists None. split; [|done].
      destruct (save_key_run _ _ _ _ _ _ _ Hs) as (-> & content & Hfs & Hst).
      rewrite Hname in *. unfold stored in Hst. rewrite Ep in Hst.
      destruct Hst as (salt & iv & text & tok & _ & _ & _ & ->).
      apply (load_key_protected_none km (Cli.name g) None (salt ++ tok)).
      + by rewrite Hfs, lookup_insert_eq.
      + done.
    - destruct Hwhy as [?|(bits & Hbits & Hrsa)]; [done|].
      rewrite Hrsa, (create_rsa bits Hbits) in Hc. injection Hc as <-.
      cbn [RSACipher.as_base CryptoBase.generate_key] in Hgen.
      unfold RSACipher.generate_key in Hgen.
      cbn [RSACipher.key_size RSACipher.name kw_passphrase no_kwargs] in Hgen.
      unfold bind at 1 in Hgen.
      destruct (urandom_length (bits / 8) w) as (seed & w'' & Hu & _ & _).
      rewrite Hu in Hgen. unfold ret in Hgen. injection Hgen as <- <-.
      match type of Hs with
      | save_key _ ?d _ _ _ = _ => set (kd := d) in *
      end.
      exists (Some (load_fields [] (save_record kd (Cli.name g) (now w'')))).
      split.
      + destruct (save_key_run _ _ _ _ _ _ _ Hs) as (-> & content & Hfs & Hst).
        rewrite Hname in *.
        apply (load_stored km kd (Cli.name g) (now w'') None content).
        * by rewrite Hfs, lookup_insert_eq.
        * unfold stored in *. rewrite Ep in Hst. exact Hst.
        * reflexivity.
      + unfold save_record, kd.
        cbn [save_fields dict_get dict_set String.eqb Ascii.eqb Bool.eqb
             default from_option id].
        rewrite (load_fields_plain _ _ "name") by reflexivity.
        rewrite (load_fields_plain _ _ "algorithm") by reflexivity.
        rewrite (load_fields_plain _ _ "created_at") by reflexivity.
        rewrite (load_fields_encoded CL _ _ "private_pem") by reflexivity.
        rewrite (load_fields_encoded CL _ _ "public_pem") by reflexivity.
        rewrite (load_fields_plain _ _ "key_size") by reflexivity.
        split; [reflexivity|].
        unfold Cli.algorithm_of.
        match goal with
        | |- context [dict_get ?r "algorithm"] =>
            assert (dict_get r "algorithm"
                    = Some (VStr ("RSA-" +:+ pretty bits))) as ->
              by reflexivity
        end.
        cbn [default from_option id].
        rewrite (create_rsa bits Hbits). eauto. }
  split.
  - unfold Cli.encrypt_file. unfold bind at 1.
    rewrite (path_exists_run _ _ _ Hin). cbn [negb].
    unfold bind at 1. unfold lift at 1. rewrite Hcr.
    unfold try_except. unfold bind at 1. rewrite Ht.
    unfold bind at 1. rewrite Hkey. cbn [default from_option id]. rewrite Hl.
    destruct loaded as [result|]; [|done].
    destruct Hres as [Hnokey _].
    destruct result as [|entry result]; [done|]. by rewrite Hnokey.
  - unfold Cli.decrypt_file. unfold bind at 1.
    rewrite (path_exists_run _ _ _ Hin). cbn [negb]. rewrite Ht. cbn [negb].
    unfold bind at 1. rewrite Hkey. cbn [default from_option id]. rewrite Hl.
    destruct loaded as [result|]; [|done].
    destruct Hres as [Hnokey [c Hc']].
    destruct result as [|entry result]; [done|].
    unfold bind at 1. unfold lift at 1. rewrite Hc'.
    unfold try_except. by rewrite Hnokey.
Qed.

(** X23. Default output names: [encrypt_file] appends [".enc"], and
    [decrypt_file] on that name takes it off again, so that decrypting
    with no output given writes to the path of the original file. *)
Theorem cli_default_output_roundtrip (a d : Cli.args) :
  Cli.output a = None → Cli.output d = None →
  Cli.file d = Cli.encrypt_output a →
  Cli.encrypt_output a = Cli.file a +:+ ".enc"
  ∧ Cli.decrypt_output d = Cli.file a.
Proof.
  intros Ha Hd Hf. unfold Cli.decrypt_output, Cli.encrypt_output in *.
  rewrite Ha in *. rewrite Hd. cbn [truthy_str] in *. rewrite Hf.
  split; [done|]. rewrite endswith_app.
  exact (drop_last_app (Cli.file a) ".enc").
Qed.

(** X24. [delete_key] of the command line after [generate_key]: under a
    name that sanitising leaves alone the record is deleted; under a
    name that sanitising changes, and that was not listed before, the
    command reports that the key does not exist and the record, stored
    under the sanitised name, stays. *)
Theorem cli_delete_after_generate (km : KeyManager.t) (g : Cli.args)
    (w w1 : world) :
  Cli.generate_key km g w = (Ok true, w1) →
  (sanitize (Cli.name g) = Cli.name g →
   ∃ w2, Cli.delete_key km g w1 = (Ok true, w2)
         ∧ fs w2 = delete (key_path km (Cli.name g)) (fs w1))
  ∧ (sanitize (Cli.name g) ≠ Cli.name g →
     Cli.name g +:+ ".key" ∉ dir_entries (storage_dir km) w →
     Cli.delete_key km g w1 = (Ok false, w1)
     ∧ is_Some (fs w1 !! key_path km (sanitize (Cli.name g)))).
Proof.
  intros Hg.
  destruct (cli_generate_key_inv km g w w1 Hg)
    as (cipher & kd & w' & p & Hc & Hgen & Hs).
  destruct (save_key_run _ _ _ _ _ _ _ Hs) as (-> & content & Hfs & _).
  destruct (list_keys_run km w1) as (m & Hm & Hlook).
  assert (fs w1 !! key_path km (sanitize (Cli.name g)) = Some content) as Hf
    by (by rewrite Hfs, lookup_insert_eq).
  split.
  - intros Hname. rewrite Hname in *.
    exists (wfs (delete (key_path km (Cli.name g)) (fs w1)) w1).
    split; [|done].
    assert (m !! Cli.name g = Some (listed_info km w1 (Cli.name g))) as Hmk.
    { rewrite Hlook. rewrite bool_decide_eq_true_2; [done|].
      apply dir_entries_elem. exists (key_path km (Cli.name g)).
      split; [eauto|]. apply entry_of_key_path.
      rewrite <- Hname. apply sanitize_no_slash. }
    unfold Cli.delete_key, try_except. unfold bind at 1. rewrite Hm, Hmk.
    rewrite bool_decide_eq_true_2 by eauto. cbn [negb].
    by rewrite (delete_key_present km _ content w1 Hf).
  - intros Hname Hnot. split; [|eauto].
    assert (m !! Cli.name g = None) as Hmk.
    { rewrite Hlook. rewrite bool_decide_eq_false_2; [done|].
      intros (q & Hq & He)%dir_entries_elem. apply Hnot.
      apply dir_entries_elem. exists q. split; [|done].
      rewrite Hfs in Hq.
      destruct (decide (q = key_path km (sanitize (Cli.name g)))) as [->|Hne].
      - rewrite entry_of_key_path in He by apply sanitize_no_slash.
        injection He as He. exfalso. apply Hname.
        apply (str_app_inv_tail _ _ ".key"); [|done].
        apply (f_equal String.length) in He.
        rewrite !str_length_app in He. lia.
      - rewrite lookup_insert_ne in Hq by done.
        by rewrite (generate_key_keeps_files _ _ _ _ _ Hc Hgen) in Hq. }
    unfold Cli.delete_key, try_except. unfold bind at 1. rewrite Hm, Hmk.
    rewrite bool_decide_eq_false_2 by (by intros [? ?]). done.
Qed.

End CliFacts.

(* ===================================================================== *)
(** ** The command line: encrypting, then decrypting                     *)
(* ===================================================================== *)

Section CliRoundTrip.
Context {BC : BlockCipher} {AE : AEAD} {CD : Codec} {R : RSA} {KW : KeyWrap}.
Context (BL : BlockCipherLaws BC) (AL : AEADLaws AE) (TL : AEADTagLength AE).
Context (CL : CodecLaws CD) (KL : KeyWrapLaws CD KW).

Import CryptoFactory KeyManager.

Lemma remove_original_run (a : Cli.args) (p : string) (d : bytes) (w : world) :
  fs w !! p = Some d →
  ∃ w', Cli.remove_original a p w = (Ok tt, w')
        ∧ fs w' = (if Cli.delete a then delete p (fs w) else fs w).
Proof.
  intros H. unfold Cli.remove_original. destruct (Cli.delete a).
  - unfold try_except, remove. rewrite H. eexists. split; [reflexivity|done].
  - by exists w.
Qed.

(** What the command line needs of a symmetric cipher of the registry:
    the key it generates passes through the key store, and a file
    within the bounds of the streaming loop is restored with it. *)
Lemma cli_cipher_run (name : string) (crypto : CryptoBase.t) (data : bytes)
    (w : world) :
  created name crypto →
  String.prefix "RSA" name = false →
  (name ∈ ["AES-128-CBC"; "AES-192-CBC"; "AES-256-CBC"] → length data < 4096) →
  (name = "ChaCha20-Poly1305" → length data + 28 ≤ 4096) →
  ∃ kd w' key kw,
    CryptoBase.generate_key crypto no_kwargs w = (Ok kd, w')
    ∧ fs w' = fs w
    ∧ dict_get kd "key" = Some (VBytes key)
    ∧ (if truthy_val (dict_get kd "iv") then Cli.iv_kwargs (dict_get kd "iv")
       else Ok no_kwargs) = Ok kw
    ∧ (∀ key_name created_at,
         json_safe (save_record kd key_name created_at) = true
         ∧ dict_get (load_fields [] (save_record kd key_name created_at)) "key"
           = Some (VBytes key)
         ∧ dict_get (load_fields [] (save_record kd key_name created_at))
             "algorithm" = Some (VStr name)
         ∧ Cli.iv_kwargs
             (dict_get (load_fields [] (save_record kd key_name created_at)) "iv")
           = Ok kw)
    ∧ (∀ input_file encrypted_file w0,
         fs w0 !! input_file = Some data → input_file ≠ encrypted_file →
         ∃ stream w1,
           CryptoBase.encrypt_file_m crypto input_file encrypted_file key
             CryptoBase.default_chunk_size kw w0 = (Ok true, w1)
           ∧ fs w1 = <[encrypted_file := stream]> (fs w0)
           ∧ ∀ output_file w2,
               fs w2 !! encrypted_file = Some stream →
               encrypted_file ≠ output_file →
               CryptoBase.decrypt_file_m crypto encrypted_file output_file key
                 CryptoBase.default_chunk_size kw w2
               = (Ok true, wfs (<[output_file := data]> (fs w2)) w2)).
Proof.
  intros Hc Hrsa Hcbc Hcha.
  destruct Hc as [ks m c Hks Hm Hinit|bits c Hbits Hinit|].
  - pose proof Hinit as (_ & _ & ->)%aes_init_inv.
    cbn [AESCipher.as_base CryptoBase.generate_key CryptoBase.encrypt_file_m
         CryptoBase.decrypt_file_m].
    unfold AESCipher.generate_key.
    cbn [AESCipher.key_size AESCipher.name AESCipher.mode].
    destruct (urandom_length (ks / 8) w) as (key & wa & Hu1 & Hkl & Hf1).
    destruct (urandom_length 16 wa) as (iv & w' & Hu2 & Hil & Hf2).
    set (kd := aes_key_dict ("AES-" +:+ pretty ks +:+ "-" +:+ m) m ks key iv).
    exists kd, w', key, (RSACipher.with_iv iv).
    split; [unfold bind; by rewrite Hu1, Hu2|].
    split; [by rewrite Hf2|].
    split; [reflexivity|].
    split.
    { change (dict_get kd "iv") with (Some (VBytes iv)).
      destruct iv; [done|reflexivity]. }
    split.
    { intros key_name created_at. split; [reflexivity|].
      unfold save_record, kd, aes_key_dict.
      cbn [save_fields dict_get dict_set String.eqb Ascii.eqb Bool.eqb
           default from_option id].
      repeat first [ rewrite (load_fields_encoded CL) by reflexivity
                 | rewrite load_fields_plain by reflexivity ].
      repeat split; reflexivity. }
    intros input_file encrypted_file w0 Hin Hne.
    assert (length key * 8 = ks) as Hkey.
    { rewrite Hkl. rewrite !elem_of_cons, elem_of_nil in Hks.
      destruct Hks as [->|[->|[->|[]]]]; reflexivity. }
    unfold CryptoBase.default_chunk_size.
    destruct (decide (m = "CBC")) as [->|Hm'].
    + assert (length data < 4096) as Hlen.
      { apply Hcbc. rewrite !elem_of_cons, elem_of_nil in Hks.
        destruct Hks as [->|[->|[->|[]]]]; rewrite !elem_of_cons; auto. }
      destruct (aes_cbc_file_small_run BL ks _ key iv data
                  (RSACipher.with_iv iv) input_file encrypted_file 4096 w0
                  Hinit Hkey Hil eq_refl eq_refl Hlen Hin Hne) as [He Hd].
      eexists _, _. split; [exact He|]. split; [by rewrite wfs_fs|]. exact Hd.
    + destruct (aes_stream_file_run BL ks m _ key iv data
                  (RSACipher.with_iv iv) input_file encrypted_file 4096 w0
                  Hinit Hm' Hkey Hil eq_refl ltac:(lia) Hin Hne)
        as (stream & _ & He & Hd).
      eexists _, _. split; [exact He|]. split; [by rewrite wfs_fs|]. exact Hd.
  - exfalso. by change (true = false) in Hrsa.
  - cbn [ChaCha20Cipher.as_base CryptoBase.generate_key].
    unfold ChaCha20Cipher.generate_key.
    cbn [ChaCha20Cipher.key_size ChaCha20Cipher.name ChaCha20Cipher.init].
    destruct (urandom_length 32 w) as (key & w' & Hu1 & Hkl & Hf1).
    set (kd := [ ("algorithm", VStr "ChaCha20-Poly1305");
                 ("key", VBytes key);
                 ("key_b64", VStr (b64encode key));
                 ("key_format", VStr "base64");
                 ("meta", VDict [("key_size", VInt (Z.of_nat 256))]) ]).
    exists kd, w', key, no_kwargs.
    split; [unfold bind; by rewrite Hu1|].
    split; [done|]. split; [reflexivity|]. split; [reflexivity|].
    split.
    { intros key_name created_at. split; [reflexivity|].
      unfold save_record, kd.
      cbn [save_fields dict_get dict_set String.eqb Ascii.eqb Bool.eqb
           default from_option id].
      repeat first [ rewrite (load_fields_encoded CL) by reflexivity
                 | rewrite load_fields_plain by reflexivity ].
      repeat split; reflexivity. }
    intros input_file encrypted_file w0 Hin Hne.
    apply (chacha_file_small_run AL TL); [done|by apply Hcha|done|done].
Qed.

(** X25. [encrypt] without a key name, then [decrypt] with the name of
    the temporary key that [encrypt] stored: for every registered AES
    algorithm and for ChaCha20-Poly1305, and default output names, the
    second command writes the original content back to the original
    path, also when the first one deleted the original. It holds for
    files below one chunk of 4096 bytes in CBC mode, of at most 4068
    bytes for ChaCha20-Poly1305, and of any size in CFB and CTR mode,
    provided sanitising leaves the key name alone. *)
Theorem cli_encrypt_decrypt_roundtrip (km : KeyManager.t) (a d : Cli.args)
    (key_name : string) (data : bytes) (w : world) :
  Cli.algorithm a ∈ registered_names →
  String.prefix "RSA" (Cli.algorithm a) = false →
  (Cli.algorithm a ∈ ["AES-128-CBC"; "AES-192-CBC"; "AES-256-CBC"] →
   length data < 4096) →
  (Cli.algorithm a = "ChaCha20-Poly1305" → length data + 28 ≤ 4096) →
  truthy_str (Cli.key a) = false → Cli.output a = None →
  fs w !! Cli.file a = Some data →
  key_name = "temp_" +:+ basename (Cli.file a) →
  sanitize key_name = key_name →
  key_path km key_name ≠ Cli.file a →
  key_path km key_name ≠ Cli.file a +:+ ".enc" →
  Cli.file d = Cli.file a +:+ ".enc" → Cli.key d = Some key_name →
  Cli.output d = None →
  ∃ w1 w2,
    Cli.encrypt_file km a w = (Ok true, w1)
    ∧ fs w1 !! Cli.file a = (if Cli.delete a then None else Some data)
    ∧ Cli.decrypt_file km d w1 = (Ok true, w2)
    ∧ fs w2 !! Cli.file a = Some data.
Proof.
  intros Halg Hrsa Hcbc Hcha Hkey Hout Hin Hkn Hsan Hp1 Hp2 Hfd Hkd Hod.
  destruct (create_algorithm_registered _ Halg) as [crypto Hcr].
  pose proof (create_algorithm_created _ _ Hcr) as Hc.
  destruct (cli_cipher_run _ crypto data w Hc Hrsa Hcbc Hcha)
    as (kd & wg & key & kw & Hgen & Hfg & Hk & Hkw & Hrec & Hfile).
  assert (Cli.decrypt_output d = Cli.file a) as Hdo.
  { unfold Cli.decrypt_output. rewrite Hod, Hfd. cbn [truthy_str].
    rewrite endswith_app. exact (drop_last_app (Cli.file a) ".enc"). }
  set (input_file := Cli.file a) in *.
  set (enc := input_file +:+ ".enc") in *.
  set (kp := key_path km key_name) in *.
  destruct (Hrec key_name (now wg)) as (Hsafe & Hlk & Hla & Hlkw).
  destruct (save_key_ok CL KL km kd key_name None wg) as (p & ws & Hs).
  { by rewrite Hsan. }
  destruct (save_key_run _ _ _ _ _ _ _ Hs) as (-> & content & Hfs & Hst).
  rewrite Hsan in Hfs, Hst, Hs. fold kp in Hfs, Hs.
  assert (input_file ≠ enc) as Hne by (by apply string_app_ne).
  destruct (Hfile input_file enc ws) as (stream & we & He & Hfe & Hd).
  { by rewrite Hfs, lookup_insert_ne, Hfg. }
  { done. }
  destruct (remove_original_run a input_file data we) as (w1 & Hrm & Hf1).
  { by rewrite Hfe, lookup_insert_ne, Hfs, lookup_insert_ne, Hfg. }
  assert (fs w1 !! enc = Some stream) as Henc.
  { rewrite Hf1. destruct (Cli.delete a).
    - by rewrite lookup_delete_ne, Hfe, lookup_insert_eq.
    - by rewrite Hfe, lookup_insert_eq. }
  assert (fs w1 !! kp = Some content) as Hkp.
  { rewrite Hf1. destruct (Cli.delete a).
    - by rewrite lookup_delete_ne, Hfe, lookup_insert_ne, Hfs, lookup_insert_eq.
    - by rewrite Hfe, lookup_insert_ne, Hfs, lookup_insert_eq. }
  set (wd := wfs (<[input_file := data]> (fs w1)) w1).
  destruct (remove_original_run d enc stream wd) as (w2 & Hrm2 & Hf2).
  { by unfold wd; rewrite wfs_fs, lookup_insert_ne. }
  exists w1, w2. split; [|split; [|split]].
  - unfold Cli.encrypt_file. fold input_file. unfold bind at 1.
    rewrite (path_exists_run _ _ _ Hin). cbn [negb].
    unfold bind at 1. unfold lift at 1. rewrite Hcr.
    unfold try_except. unfold bind at 1. rewrite Hkey.
    unfold bind at 1. rewrite Hgen.
    unfold bind at 1. unfold lift at 1. unfold dict_item. rewrite Hk.
    unfold bind at 1. rewrite <- Hkn, Hs. unfold ret at 1.
    unfold bind at 1. unfold lift at 1. rewrite Hkw.
    unfold bind at 1. unfold lift at 1. cbn [Cli.bytes_arg].
    unfold Cli.encrypt_output. rewrite Hout. cbn [truthy_str].
    fold input_file. fold enc.
    unfold bind at 1. rewrite He.
    unfold bind at 1. rewrite Hrm. done.
  - rewrite Hf1. destruct (Cli.delete a).
    + by rewrite lookup_delete_eq.
    + by rewrite Hfe, lookup_insert_ne, Hfs, lookup_insert_ne, Hfg.
  - unfold Cli.decrypt_file. rewrite Hfd. fold input_file. fold enc.
    unfold bind at 1.
    rewrite (path_exists_run _ _ _ Henc). cbn [negb].
    rewrite Hkd. assert (truthy_str (Some key_name) = true) as ->
      by (by rewrite Hkn).
    cbn [negb default from_option id].
    unfold bind at 1.
    rewrite (load_stored CL KL km kd key_name (now wg) None content w1 Hkp Hst Hsafe).
    destruct (load_fields [] (save_record kd key_name (now wg)))
      as [|entry result] eqn:Er; [done|].
    unfold bind at 1. unfold lift at 1. unfold Cli.algorithm_of.
    rewrite Hla. cbn [default from_option id]. rewrite Hcr.
    unfold try_except. rewrite Hlk.
    unfold bind at 1. unfold lift at 1. rewrite Hlkw.
    unfold bind at 1. unfold lift at 1. cbn [Cli.bytes_arg].
    rewrite Hdo.
    unfold bind at 1. rewrite (Hd input_file w1 Henc) by done. fold wd.
    unfold bind at 1. rewrite Hrm2. done.
  - rewrite Hf2. unfold wd. rewrite wfs_fs. destruct (Cli.delete d).
    + by rewrite lookup_delete_ne, lookup_insert_eq.
    + by rewrite lookup_insert_eq.
Qed.

End CliRoundTrip.

Lemma cli_unknown_algorithm_witness :
  Cli.encrypt_file (BC := Toy.block) (AE := Toy.aead) (CD := Toy.codec)
    (R := Toy.rsa) (KW := Toy.keywrap) KeyExample.km
    (CliExample.encrypt_args "plain.bin" "DES" None false)
    (Example.world_with [x01])
  = (Raise ValueError, Example.world_with [x01])
  ∧ Cli.main (BC := Toy.block) (AE := Toy.aead) (CD := Toy.codec)
      (R := Toy.rsa) (KW := Toy.keywrap) KeyExample.km
      (CliExample.encrypt_args "plain.bin" "DES" None false) true
      (Example.world_with [x01])
    = (Ok 1, Example.world_with [x01]).
Proof.
  destruct (cli_unknown_algorithm (BC := Toy.block) (AE := Toy.aead)
              (CD := Toy.codec) (R := Toy.rsa) (KW := Toy.keywrap)
              KeyExample.km
              (CliExample.encrypt_args "plain.bin" "DES" None false) true
              [x01] (Example.world_with [x01]))
    as (H1 & _ & H3 & _).
  - apply (bool_decide_unpack _). vm_compute. exact I.
  - apply lookup_singleton_eq.
  - split; [exact H1|]. apply H3. reflexivity.
Defined.

Lemma cli_encrypt_rsa_fails_witness :
  ∃ w',
    Cli.encrypt_file (BC := Toy.block) (AE := Toy.aead) (CD := Toy.codec)
      (R := Toy.rsa) (KW := Toy.keywrap) KeyExample.km
      (CliExample.encrypt_args "plain.bin" "RSA-2048" None false)
      (Example.world_with [x01]) = (Ok false, w')
    ∧ fs w' = fs (Example.world_with [x01]).
Proof.
  apply (cli_encrypt_rsa_fails (BC := Toy.block) (AE := Toy.aead)
           (CD := Toy.codec) (R := Toy.rsa) (KW := Toy.keywrap) KeyExample.km
           (CliExample.encrypt_args "plain.bin" "RSA-2048" None false)
           2048 [x01]).
  - rewrite !elem_of_cons. auto.
  - reflexivity.
  - reflexivity.
  - apply lookup_singleton_eq.
Defined.

Lemma cli_generated_key_rejected_witness :
  Cli.encrypt_file (BC := Toy.block) (AE := Toy.aead) (CD := Toy.codec)
    (R := Toy.rsa) (KW := Toy.keywrap) KeyExample.km
    (CliExample.encrypt_args "plain.bin" "AES-256-CBC" (Some "k1") false)
    (CliExample.generated
       (CliExample.generate_args "k1" "AES-256-CBC" (Some "secret"))
       (Example.world_with [x01]))
  = (Ok false,
     CliExample.generated
       (CliExample.generate_args "k1" "AES-256-CBC" (Some "secret"))
       (Example.world_with [x01]))
  ∧ Cli.decrypt_file (BC := Toy.block) (AE := Toy.aead) (CD := Toy.codec)
      (R := Toy.rsa) (KW := Toy.keywrap) KeyExample.km
      (CliExample.encrypt_args "plain.bin" "AES-256-CBC" (Some "k1") false)
      (CliExample.generated
         (CliExample.generate_args "k1" "AES-256-CBC" (Some "secret"))
         (Example.world_with [x01]))
    = (Ok false,
       CliExample.generated
         (CliExample.generate_args "k1" "AES-256-CBC" (Some "secret"))
         (Example.world_with [x01])).
Proof.
  apply (cli_generated_key_rejected (BC := Toy.block) (AE := Toy.aead)
           (R := Toy.rsa) toy_codec_laws toy_keywrap_laws KeyExample.km
           (CliExample.generate_args "k1" "AES-256-CBC" (Some "secret"))
           (CliExample.encrypt_args "plain.bin" "AES-256-CBC" (Some "k1") false)
           [x01] (Example.world_with [x01])).
  - vm_compute. reflexivity.
  - left. reflexivity.
  - reflexivity.
  - reflexivity.
  - discriminate.
  - apply (bool_decide_unpack _). vm_compute. exact I.
  - vm_compute. reflexivity.
Defined.

Lemma cli_default_output_roundtrip_witness :
  Cli.encrypt_output
    (CliExample.encrypt_args "plain.bin" "AES-256-CBC" None false)
  = "plain.bin.enc"
  ∧ Cli.decrypt_output (CliExample.decrypt_args "plain.bin.enc" (Some "k1"))
    = "plain.bin".
Proof.
  apply (cli_default_output_roundtrip
           (CliExample.encrypt_args "plain.bin" "AES-256-CBC" None false)
           (CliExample.decrypt_args "plain.bin.enc" (Some "k1")));
    reflexivity.
Defined.

Lemma cli_delete_after_generate_witness :
  (∃ w2,
     Cli.delete_key (CD := Toy.codec) KeyExample.km
       (CliExample.generate_args "k1" "AES-256-CBC" None)
       (CliExample.generated
          (CliExample.generate_args "k1" "AES-256-CBC" None) Toy.world0)
     = (Ok true, w2)
     ∧ fs w2
       = delete (KeyManager.key_path KeyExample.km "k1")
           (fs (CliExample.generated
                  (CliExample.generate_args "k1" "AES-256-CBC" None)
                  Toy.world0)))
  ∧ Cli.delete_key (CD := Toy.codec) KeyExample.km
      (CliExample.generate_args "my key" "AES-256-CBC" None)
      (CliExample.generated
         (CliExample.generate_args "my key" "AES-256-CBC" None) Toy.world0)
    = (Ok false,
       CliExample.generated
         (CliExample.generate_args "my key" "AES-256-CBC" None) Toy.world0)
  ∧ is_Some
      (fs (CliExample.generated
             (CliExample.generate_args "my key" "AES-256-CBC" None) Toy.world0)
       !! "keys/my_key.key").
Proof.
  split.
  - apply (cli_delete_after_generate (BC := Toy.block) (AE := Toy.aead)
             (CD := Toy.codec) (R := Toy.rsa) (KW := Toy.keywrap)
             KeyExample.km (CliExample.generate_args "k1" "AES-256-CBC" None)
             Toy.world0).
    + vm_compute. reflexivity.
    + reflexivity.
  - apply (cli_delete_after_generate (BC := Toy.block) (AE := Toy.aead)
             (CD := Toy.codec) (R := Toy.rsa) (KW := Toy.keywrap)
             KeyExample.km
             (CliExample.generate_args "my key" "AES-256-CBC" None)
             Toy.world0).
    + vm_compute. reflexivity.
    + discriminate.
    + apply (bool_decide_unpack _). vm_compute. exact I.
Defined.

Lemma cli_encrypt_decrypt_roundtrip_witness :
  ∃ w1 w2,
    Cli.encrypt_file (BC := Toy.block) (AE := Toy.aead) (CD := Toy.codec)
      (R := Toy.rsa) (KW := Toy.keywrap) KeyExample.km
      (CliExample.encrypt_args "plain.bin" "AES-256-CBC" None true)
      (Example.world_with [x01; x02; x03]) = (Ok true, w1)
    ∧ fs w1 !! "plain.bin" = None
    ∧ Cli.decrypt_file (BC := Toy.block) (AE := Toy.aead) (CD := Toy.codec)
        (R := Toy.rsa) (KW := Toy.keywrap) KeyExample.km
        (CliExample.decrypt_args "plain.bin.enc" (Some "temp_plain.bin")) w1
      = (Ok true, w2)
    ∧ fs w2 !! "plain.bin" = Some [x01; x02; x03].
Proof.
  apply (cli_encrypt_decrypt_roundtrip (BC := Toy.block) (AE := Toy.aead)
           (CD := Toy.codec) (R := Toy.rsa) (KW := Toy.keywrap)
           toy_block_laws toy_aead_laws toy_aead_tag_length toy_codec_laws
           toy_keywrap_laws KeyExample.km
           (CliExample.encrypt_args "plain.bin" "AES-256-CBC" None true)
           (CliExample.decrypt_args "plain.bin.enc" (Some "temp_plain.bin"))
           "temp_plain.bin" [x01; x02; x03]).
  - apply (bool_decide_unpack _). vm_compute. exact I.
  - reflexivity.
  - intros _. simpl. lia.
  - discriminate.
  - reflexivity.
  - reflexivity.
  - apply lookup_singleton_eq.
  - reflexivity.
  - reflexivity.
  - discriminate.
  - discriminate.
  - reflexivity.
  - reflexivity.
  - reflexivity.
Defined.
